(** * WARP+ key generator: a shallow embedding of [tools/warp-plus-keygen.py]

    The script is one linear workflow of HTTP requests wrapped in a retry
    loop.  Its behaviour depends on the outside world (the seed-key source,
    the provider API, the random generator, the operator's Ctrl-C), so the
    embedding is a small state-and-exception monad over an explicit [world]
    of oracles; every effect of the script is appended to a chronological
    [trace] of events, and the properties of the script are stated on that
    trace, on the result and on the local variable [retry_count].

    What the libraries do is taken from their documented behaviour:
    - [requests]' [raise_for_status] raises for a status in 400..599,
      [httpx]'s for every status outside 200..299;
    - a call through [requests] or through the [httpx] client either returns
      a response or raises, and what it raises is up to the world;
    - [r.json()] gives a Python value or raises;
    - [bytes.decode], [str.split] and [str.strip] are written out on code
      points;
    - [print] on stdout raises [UnicodeEncodeError], and writes nothing,
      when the encoder of the stream refuses the text (a lone surrogate that
      [r.json()] returned; under an ASCII locale any other character too);
      which texts are refused is up to the world; stderr escapes what it
      cannot encode, so a [print] on stderr does not fail; the text printed
      is kept as the pieces of the f-string, unformatted;
    - [KeyboardInterrupt] comes out of the blocking calls: the fetch of the
      seed keys, a request, a sleep. *)

From Stdlib Require Import ZArith NArith List String Ascii Strings.Byte Bool Lia.
Import ListNotations.

Set Implicit Arguments.
Set Warnings "-register-all".


(** ** Python strings, bytes and the [str] methods the script calls *)

Module PyStr.

(** A Python [str] is a sequence of Unicode code points. *)
Definition pystr := list N.

(** An ASCII literal of the source, as a [str]. *)
Definition py (s : string) : pystr := map N_of_ascii (list_ascii_of_string s).

(** The empty [str]. *)
Definition empty : pystr := [].

Fixpoint eqb (a b : pystr) : bool :=
  match a, b with
  | [], [] => true
  | x :: a', y :: b' => N.eqb x y && eqb a' b'
  | _, _ => false
  end.

(** [bytes.decode("UTF-8")] with the default strict error handler:
    [None] stands for [UnicodeDecodeError].  Overlong forms, surrogates
    and code points above U+10FFFF are rejected. *)
Definition is_cont (b : N) : bool := (0x80 <=? b)%N && (b <=? 0xBF)%N.

Definition low6 (b : N) : N := N.land b 0x3F.

Definition cp2 (b0 b1 : N) : N :=
  N.lor (N.shiftl (N.land b0 0x1F) 6) (low6 b1).

Definition cp3 (b0 b1 b2 : N) : N :=
  N.lor (N.shiftl (N.land b0 0x0F) 12) (N.lor (N.shiftl (low6 b1) 6) (low6 b2)).

Definition cp4 (b0 b1 b2 b3 : N) : N :=
  N.lor (N.shiftl (N.land b0 0x07) 18)
    (N.lor (N.shiftl (low6 b1) 12) (N.lor (N.shiftl (low6 b2) 6) (low6 b3))).

Definition is_surrogate (c : N) : bool := (0xD800 <=? c)%N && (c <=? 0xDFFF)%N.

Fixpoint decode_utf8 (bs : list N) : option pystr :=
  match bs with
  | [] => Some []
  | b0 :: t1 =>
      if (b0 <? 0x80)%N then option_map (cons b0) (decode_utf8 t1)
      else if (0xC2 <=? b0)%N && (b0 <=? 0xDF)%N then
        match t1 with
        | b1 :: t2 =>
            if is_cont b1 then option_map (cons (cp2 b0 b1)) (decode_utf8 t2)
            else None
        | _ => None
        end
      else if (0xE0 <=? b0)%N && (b0 <=? 0xEF)%N then
        match t1 with
        | b1 :: b2 :: t3 =>
            let c := cp3 b0 b1 b2 in
            if is_cont b1 && is_cont b2 && (0x800 <=? c)%N && negb (is_surrogate c)
            then option_map (cons c) (decode_utf8 t3)
            else None
        | _ => None
        end
      else if (0xF0 <=? b0)%N && (b0 <=? 0xF4)%N then
        match t1 with
        | b1 :: b2 :: b3 :: t4 =>
            let c := cp4 b0 b1 b2 b3 in
            if is_cont b1 && is_cont b2 && is_cont b3
               && (0x10000 <=? c)%N && (c <=? 0x10FFFF)%N
            then option_map (cons c) (decode_utf8 t4)
            else None
        | _ => None
        end
      else None
  end.

Definition bytes_decode_UTF8 (content : list byte) : option pystr :=
  decode_utf8 (map Byte.to_N content).

(** [str.split(sep)] with an explicit one-character separator: every
    occurrence splits, empty segments are kept, the empty string gives one
    empty segment. *)
Fixpoint split (sep : N) (s : pystr) : list pystr :=
  match s with
  | [] => [[]]
  | c :: s' =>
      if N.eqb c sep then [] :: split sep s'
      else match split sep s' with
           | seg :: segs => (c :: seg) :: segs
           | [] => [[c]]
           end
  end.

(** [str.isspace] on one code point (the table of CPython's
    [_PyUnicode_IsWhitespace]). *)
Definition isspace (c : N) : bool :=
  ((0x09 <=? c) && (c <=? 0x0D) || (0x1C <=? c) && (c <=? 0x20)
   || (c =? 0x85) || (c =? 0xA0) || (c =? 0x1680)
   || (0x2000 <=? c) && (c <=? 0x200A)
   || (c =? 0x2028) || (c =? 0x2029) || (c =? 0x202F)
   || (c =? 0x205F) || (c =? 0x3000))%N.

Fixpoint lstrip (s : pystr) : pystr :=
  match s with
  | [] => []
  | c :: s' => if isspace c then lstrip s' else s
  end.

Definition rstrip (s : pystr) : pystr := rev (lstrip (rev s)).

(** [str.strip()] without argument. *)
Definition strip (s : pystr) : pystr := rstrip (lstrip s).

(** Truth value of a [str]: non-empty. *)
Definition truthy (s : pystr) : bool :=
  match s with [] => false | _ :: _ => true end.

Definition comma : N := 44.

End PyStr.
Import PyStr.

(** The list comprehension of [get_base_keys], line 30:
    [[k.strip() for k in keys_str.split(",") if k.strip()]]. *)
Definition parse_keys (keys_str : pystr) : list pystr :=
  map strip (filter (fun k => truthy (strip k)) (split comma keys_str)).

(** The hard-coded keys of the [except] branch of [get_base_keys]. *)
Definition fallback_keys : list pystr :=
  [ py "Qi286N5r-v4R05pT1-3Hl8V24w";
    py "mJ9t3X82-N7hB46s9-Dq5yP13f";
    py "Yk147R6p-b2S98vT4-Mw3nH71x" ].

(** ** Python values, as [r.json()] returns them *)

Inductive pyval :=
| PNone
| PBool (b : bool)
| PInt (z : Z)
| PFloat (bits : Z)
| PStr (s : pystr)
| PList (l : list pyval)
| PDict (d : list (pystr * pyval)).

(** A [dict] is kept as an association list; the first binding of a key is
    the one the dictionary holds. *)
Fixpoint dict_lookup (k : pystr) (d : list (pystr * pyval)) : option pyval :=
  match d with
  | [] => None
  | (k', v) :: d' => if PyStr.eqb k k' then Some v else dict_lookup k d'
  end.

(** ** Exceptions

    The classes that matter to the [except] clauses of the script.
    [SystemExit] is raised only by [sys.exit] and is kept apart, as the
    [Exit] result below. *)
Inductive exn :=
| HTTPStatusError (status : Z)      (* httpx.HTTPStatusError, from raise_for_status *)
| RequestError (what : string)      (* httpx.RequestError: transport, timeout *)
| HTTPError (status : Z)            (* requests.HTTPError, from raise_for_status *)
| UnicodeDecodeError
| UnicodeEncodeError
| JSONDecodeError
| KeyError (k : pystr)
| TypeError
| AttributeError
| IndexError
| OtherException (what : string)    (* any other subclass of Exception *)
| KeyboardInterrupt.

Definition is_HTTPStatusError (e : exn) : bool :=
  match e with HTTPStatusError _ => true | _ => false end.

Definition is_RequestError (e : exn) : bool :=
  match e with RequestError _ => true | _ => false end.

Definition is_KeyboardInterrupt (e : exn) : bool :=
  match e with KeyboardInterrupt => true | _ => false end.

(** [KeyboardInterrupt] derives from [BaseException], not from [Exception]. *)
Definition is_Exception (e : exn) : bool := negb (is_KeyboardInterrupt e).

(** ** Requests, responses and printed text *)

(** An f-string (or a plain literal): literal pieces and interpolated values,
    kept unformatted. *)
Inductive piece :=
| Lit (s : string)
| Fmt (v : pyval)
| FmtExn (e : exn).

Definition fstring := list piece.

Inductive http_method := POST | PATCH | DELETE | PUT | GET.

Definition headers_t := list (string * fstring).

Record request := {
  rq_method : http_method;
  rq_path : fstring;
  rq_headers : headers_t;
  rq_json : option pyval
}.

(** An [httpx.Response]: the status code and what [r.json()] gives
    ([None] when the body does not decode, which raises). *)
Record response := {
  status_code : Z;
  resp_json : option pyval
}.

Inductive api_outcome :=
| ApiResp (r : response)
| ApiRaise (e : exn).

(** What [requests.get] gives: a response (status, raw content) or an
    exception. *)
Inductive fetch_outcome :=
| FetchResp (status : Z) (content : list byte)
| FetchRaise (e : exn).

Inductive channel := Stdout | Stderr.

Record client_config := {
  cfg_base_url : string;
  cfg_headers : headers_t;
  cfg_timeout : Z
}.

Inductive event :=
| EvFetch (url : string) (timeout : Z) (o : fetch_outcome)
| EvOpen (cfg : client_config)
| EvClose
| EvRequest (rq : request) (o : api_outcome)
| EvChoice (pool : list pystr) (draw : nat)
| EvSleep (secs : Z) (interrupted : bool)
| EvPrint (ch : channel) (text : fstring).

(** ** The outside world and the program state *)

(** The world answers the n-th call of each kind.  Any behaviour of the
    servers, of the random generator and of the operator is some world. *)
Record world := {
  seed_source : nat -> fetch_outcome;   (* n-th requests.get *)
  api : nat -> api_outcome;             (* n-th request through an httpx client *)
  rng : nat -> nat;                     (* n-th random draw *)
  ctrl_c : nat -> bool;                 (* is the n-th time.sleep interrupted *)
  stdout_accepts : fstring -> bool      (* can sys.stdout encode this text *)
}.

Record state := {
  trace : list event;
  n_fetch : nat;
  n_api : nat;
  n_rng : nat;
  n_sleep : nat;
  retry_count : Z                       (* the local of generate_single_key *)
}.

Definition init : state :=
  {| trace := []; n_fetch := 0; n_api := 0; n_rng := 0; n_sleep := 0;
     retry_count := 0 |}.

Definition log (ev : event) (s : state) : state :=
  {| trace := trace s ++ [ev]; n_fetch := n_fetch s; n_api := n_api s;
     n_rng := n_rng s; n_sleep := n_sleep s; retry_count := retry_count s |}.

Definition tick_fetch (s : state) : state :=
  {| trace := trace s; n_fetch := S (n_fetch s); n_api := n_api s;
     n_rng := n_rng s; n_sleep := n_sleep s; retry_count := retry_count s |}.

Definition tick_api (s : state) : state :=
  {| trace := trace s; n_fetch := n_fetch s; n_api := S (n_api s);
     n_rng := n_rng s; n_sleep := n_sleep s; retry_count := retry_count s |}.

Definition tick_rng (s : state) : state :=
  {| trace := trace s; n_fetch := n_fetch s; n_api := n_api s;
     n_rng := S (n_rng s); n_sleep := n_sleep s; retry_count := retry_count s |}.

Definition tick_sleep (s : state) : state :=
  {| trace := trace s; n_fetch := n_fetch s; n_api := n_api s;
     n_rng := n_rng s; n_sleep := S (n_sleep s); retry_count := retry_count s |}.

Definition set_retry_count (z : Z) (s : state) : state :=
  {| trace := trace s; n_fetch := n_fetch s; n_api := n_api s;
     n_rng := n_rng s; n_sleep := n_sleep s; retry_count := z |}.

(** ** The monad: world reader, state, exceptions, exit *)

Inductive result (A : Type) :=
| Ok (a : A)
| Raise (e : exn)
| Exit (code : Z)          (* SystemExit from sys.exit *)
| Diverge.                 (* the loop fuel ran out *)

Arguments Ok {A} a.
Arguments Raise {A} e.
Arguments Exit {A} code.
Arguments Diverge {A}.

Definition M (A : Type) := world -> state -> result A * state.

Definition ret {A} (a : A) : M A := fun _ s => (Ok a, s).

Definition bind {A B} (m : M A) (k : A -> M B) : M B :=
  fun w s =>
    match m w s with
    | (Ok a, s1) => k a w s1
    | (Raise e, s1) => (Raise e, s1)
    | (Exit c, s1) => (Exit c, s1)
    | (Diverge, s1) => (Diverge, s1)
    end.

Definition raise {A} (e : exn) : M A := fun _ s => (Raise e, s).

Definition sys_exit {A} (code : Z) : M A := fun _ s => (Exit code, s).

Declare Scope py_scope.
Delimit Scope py_scope with pyM.
Notation "x <- m ;; k" := (bind m (fun x => k))
  (at level 61, m at next level, right associativity) : py_scope.
Notation "m ;; k" := (bind m (fun _ => k))
  (at level 61, right associativity) : py_scope.
Open Scope py_scope.
Open Scope string_scope.
Open Scope list_scope.
Open Scope Z_scope.

(** [try: body except C1: h1 except C2: h2 ...]: the first clause whose class
    matches handles the exception; with none, it propagates.  [sys.exit]
    inside [body] is not an exception of these classes and passes through. *)
Definition try_except {A} (body : M A)
    (handlers : list ((exn -> bool) * (exn -> M A))) : M A :=
  fun w s =>
    match body w s with
    | (Raise e, s1) =>
        match find (fun h => fst h e) handlers with
        | Some h => snd h e w s1
        | None => (Raise e, s1)
        end
    | other => other
    end.

(** [print(text)] and [print(text, file=sys.stderr)].  [sys.stdout] encodes
    with the error handler [strict]: a text it cannot encode raises
    [UnicodeEncodeError] and nothing is written.  [sys.stderr] encodes with
    [backslashreplace] and takes every text. *)
Definition print (ch : channel) (text : fstring) : M unit :=
  fun w s =>
    match ch with
    | Stdout =>
        if stdout_accepts w text then (Ok tt, log (EvPrint Stdout text) s)
        else (Raise UnicodeEncodeError, s)
    | Stderr => (Ok tt, log (EvPrint Stderr text) s)
    end.

(** [time.sleep(secs)]: completes, unless the operator interrupts it. *)
Definition time_sleep (secs : Z) : M unit :=
  fun w s =>
    let irq := ctrl_c w (n_sleep s) in
    let s1 := log (EvSleep secs irq) (tick_sleep s) in
    if irq then (Raise KeyboardInterrupt, s1) else (Ok tt, s1).

(** [random.choice(seq)]: [IndexError] on an empty sequence, else
    [seq[i]] at a drawn index [i] below [len(seq)]. *)
Definition random_choice (pool : list pystr) : M pystr :=
  fun w s =>
    if Nat.eqb (List.length pool) 0 then (Raise IndexError, s)
    else
      let i := (rng w (n_rng s) mod List.length pool)%nat in
      let s1 := log (EvChoice pool i) (tick_rng s) in
      match nth_error pool i with
      | Some k => (Ok k, s1)
      | None => (Raise IndexError, s1)
      end.

(** [requests.get(url, timeout=t)]. *)
Definition requests_get (url : string) (timeout : Z) : M (Z * list byte) :=
  fun w s =>
    let o := seed_source w (n_fetch s) in
    let s1 := log (EvFetch url timeout o) (tick_fetch s) in
    match o with
    | FetchResp st content => (Ok (st, content), s1)
    | FetchRaise e => (Raise e, s1)
    end.

(** [requests]' [Response.raise_for_status]: raises for 4xx and 5xx. *)
Definition requests_raise_for_status (st : Z) : M unit :=
  if (400 <=? st) && (st <? 600) then raise (HTTPError st) else ret tt.

Definition decode_UTF8 (content : list byte) : M pystr :=
  match bytes_decode_UTF8 content with
  | Some s => ret s
  | None => raise UnicodeDecodeError
  end.

(** One request through the [httpx.Client]. *)
Definition client_request (m : http_method) (path : fstring)
    (headers : headers_t) (json : option pyval) : M response :=
  fun w s =>
    let rq := {| rq_method := m; rq_path := path; rq_headers := headers;
                 rq_json := json |} in
    let o := api w (n_api s) in
    let s1 := log (EvRequest rq o) (tick_api s) in
    match o with
    | ApiResp r => (Ok r, s1)
    | ApiRaise e => (Raise e, s1)
    end.

(** [httpx]'s [Response.is_success] and [raise_for_status]: anything but
    2xx raises [HTTPStatusError]. *)
Definition is_success (st : Z) : bool := (200 <=? st) && (st <=? 299).

Definition raise_for_status (r : response) : M unit :=
  if is_success (status_code r) then ret tt
  else raise (HTTPStatusError (status_code r)).

(** [r.json()]. *)
Definition json (r : response) : M pyval :=
  match resp_json r with
  | Some v => ret v
  | None => raise JSONDecodeError
  end.

(** [v[k]] with a string key: [KeyError] on a dict without the key,
    [TypeError] on anything that is not a dict. *)
Definition getitem (v : pyval) (k : pystr) : M pyval :=
  match v with
  | PDict d =>
      match dict_lookup k d with
      | Some x => ret x
      | None => raise (KeyError k)
      end
  | _ => raise TypeError
  end.

(** [v.get(k, default)]: only a dict has the method. *)
Definition dict_get (v : pyval) (k : pystr) (default : pyval) : M pyval :=
  match v with
  | PDict d =>
      match dict_lookup k d with
      | Some x => ret x
      | None => ret default
      end
  | _ => raise AttributeError
  end.

(** [with httpx.Client(...) as client: body]: the client is closed on every
    way out of the block, and whatever ended the block goes on. *)
Definition with_client {A} (cfg : client_config) (body : M A) : M A :=
  fun w s =>
    let (r, s1) := body w (log (EvOpen cfg) s) in
    (r, log EvClose s1).

Definition get_retry_count : M Z := fun _ s => (Ok (retry_count s), s).

Definition incr_retry_count : M unit :=
  fun _ s => (Ok tt, set_retry_count (retry_count s + 1) s).

Definition assign_retry_count (z : Z) : M unit :=
  fun _ s => (Ok tt, set_retry_count z s).

(** ** The script *)

Definition base_keys_url : string :=
  "https://gitlab.com/Misaka-blog/warp-script/-/raw/main/files/24pbgen/base_keys".

(** [get_base_keys], lines 21-38. *)
Definition get_base_keys : M (list pystr) :=
  try_except
    (response <- requests_get base_keys_url 10;;
     requests_raise_for_status (fst response);;
     keys_str <- decode_UTF8 (snd response);;
     ret (parse_keys keys_str))
    [ (is_Exception, fun _ => ret fallback_keys) ].

Definition headers : headers_t :=
  [ ("CF-Client-Version", [Lit "a-6.11-2223"]);
    ("Host", [Lit "api.cloudflareclient.com"]);
    ("Connection", [Lit "Keep-Alive"]);
    ("Accept-Encoding", [Lit "gzip"]);
    ("User-Agent", [Lit "okhttp/3.12.1"]) ].

Definition max_retries : Z := 3.

Definition client_cfg : client_config :=
  {| cfg_base_url := "https://api.cloudflareclient.com/v0a2223";
     cfg_headers := headers;
     cfg_timeout := 30 |}.

Definition bearer (token : pyval) : fstring := [Lit "Bearer "; Fmt token].

Definition reg_path (id : pyval) : fstring := [Lit "/reg/"; Fmt id].

Definition account_path (id : pyval) : fstring :=
  [Lit "/reg/"; Fmt id; Lit "/account"].

(** The body of the [try], lines 59-117: one attempt. *)
Definition attempt (base_keys : list pystr) : M pyval :=
  with_client client_cfg
    ((* Register first account *)
     r <- client_request POST [Lit "/reg"] [] None;;
     raise_for_status r;;
     j <- json r;; id1 <- getitem j (py "id");;
     j <- json r;; a <- getitem j (py "account");;
     license <- getitem a (py "license");;
     j <- json r;; token1 <- getitem j (py "token");;
     (* Register second account (referrer) *)
     r <- client_request POST [Lit "/reg"] [] None;;
     raise_for_status r;;
     j <- json r;; id2 <- getitem j (py "id");;
     j <- json r;; token2 <- getitem j (py "token");;
     let headers_get1 := [("Authorization", bearer token1)] in
     let headers_get2 := [("Authorization", bearer token2)] in
     let headers_post :=
       [ ("Content-Type", [Lit "application/json; charset=UTF-8"]);
         ("Authorization", bearer token1) ] in
     (* Set referrer *)
     client_request PATCH (reg_path id1) headers_post
       (Some (PDict [(py "referrer", id2)]));;
     (* Delete second account *)
     client_request DELETE (reg_path id2) headers_get2 None;;
     (* Apply base key *)
     base_key <- random_choice base_keys;;
     client_request PUT (account_path id1) headers_post
       (Some (PDict [(py "license", PStr base_key)]));;
     (* Restore original license *)
     client_request PUT (account_path id1) headers_post
       (Some (PDict [(py "license", license)]));;
     (* Get final account info *)
     r <- client_request GET (account_path id1) headers_get1 None;;
     raise_for_status r;;
     j <- json r;; account_type <- dict_get j (py "account_type") (PStr empty);;
     j <- json r;; referral_count <- dict_get j (py "referral_count") (PInt 0);;
     j <- json r;; final_license <- getitem j (py "license");;
     (* Delete first account *)
     client_request DELETE (reg_path id1) headers_get1 None;;
     (* Success - output the key *)
     print Stdout [Fmt final_license];;
     print Stderr [Lit "Account Type: "; Fmt account_type];;
     print Stderr [Lit "Data Count: "; Fmt referral_count; Lit " GB(s)"];;
     ret final_license).

(** The three [except] clauses, lines 119-133.  Each returns [None]: the
    loop goes on. *)
Definition retry_message (what : string) (rc : Z) (e : exn) : fstring :=
  [ Lit what; Lit " (attempt "; Fmt (PInt rc); Lit "/"; Fmt (PInt max_retries);
    Lit "): "; FmtExn e ].

Definition on_error (what : string) (delay : Z) (e : exn) : M (option pyval) :=
  incr_retry_count;;
  rc <- get_retry_count;;
  print Stderr (retry_message what rc e);;
  (if rc <? max_retries then time_sleep delay else ret tt);;
  ret None.

(** The [try] statement of the loop body: [Some v] when the attempt executed
    [return v], [None] when a clause handled its failure. *)
Definition try_attempt (base_keys : list pystr) : M (option pyval) :=
  try_except
    (v <- attempt base_keys;; ret (Some v))
    [ (is_HTTPStatusError, on_error "HTTP error occurred" 5);
      (is_RequestError, on_error "Request error occurred" 5);
      (is_Exception, on_error "Unexpected error" 10) ].

Definition failed_message : fstring :=
  [Lit "Failed to generate WARP+ key after all retries"].

(** The [while] loop of lines 57-133 and the two statements after it. *)
Fixpoint retry_loop (fuel : nat) (base_keys : list pystr) : M pyval :=
  match fuel with
  | O => fun _ s => (Diverge, s)
  | S fuel' =>
      rc <- get_retry_count;;
      if rc <? max_retries then
        r <- try_attempt base_keys;;
        match r with
        | Some v => ret v
        | None => retry_loop fuel' base_keys
        end
      else
        print Stderr failed_message;;
        sys_exit 1
  end.

(** [generate_single_key], lines 41-136. *)
Definition generate_single_key_fuel (fuel : nat) : M pyval :=
  base_keys <- get_base_keys;;
  assign_retry_count 0;;
  retry_loop fuel base_keys.

Definition generate_single_key : M pyval :=
  generate_single_key_fuel (S (Z.to_nat max_retries)).

Definition cancelled_message : fstring :=
  [Lit (String "010"%char "Cancelled by user")].

(** [main], lines 139-148. *)
Definition main : M unit :=
  try_except
    (generate_single_key;; ret tt)
    [ (is_KeyboardInterrupt,
       fun _ => print Stderr cancelled_message;; sys_exit 130);
      (is_Exception,
       fun e => print Stderr [Lit "Fatal error: "; FmtExn e];; sys_exit 1) ].

(** The exit status of the process when [main] ends with [r]. *)
Definition exit_status (r : result unit) : option Z :=
  match r with
  | Ok _ => Some 0
  | Exit c => Some c
  | Raise _ => Some 1
  | Diverge => None
  end.

(** ** Observations on a trace *)

Definition printed (ch : channel) (ev : event) : option fstring :=
  match ev, ch with
  | EvPrint Stdout t, Stdout => Some t
  | EvPrint Stderr t, Stderr => Some t
  | _, _ => None
  end.

Fixpoint lines (ch : channel) (tr : list event) : list fstring :=
  match tr with
  | [] => []
  | ev :: tr' =>
      match printed ch ev with
      | Some t => t :: lines ch tr'
      | None => lines ch tr'
      end
  end.

Definition stdout (tr : list event) : list fstring := lines Stdout tr.
Definition stderr (tr : list event) : list fstring := lines Stderr tr.

(** Requests and random draws, the events inside a client block that are
    neither prints nor sleeps. *)
Definition is_io (ev : event) : bool :=
  match ev with
  | EvRequest _ _ | EvChoice _ _ => true
  | _ => false
  end.

(** The events that structure a run: everything but requests and draws. *)
Definition control (tr : list event) : list event :=
  filter (fun ev => negb (is_io ev)) tr.

(** The operator's Ctrl-C showed up in this event. *)
Definition interrupted_ev (ev : event) : bool :=
  match ev with
  | EvFetch _ _ (FetchRaise KeyboardInterrupt) => true
  | EvRequest _ (ApiRaise KeyboardInterrupt) => true
  | EvSleep _ true => true
  | _ => false
  end.

Definition interrupted (tr : list event) : bool := existsb interrupted_ev tr.

(** The requests of a trace, in order, with their outcomes. *)
Fixpoint requests (tr : list event) : list (request * api_outcome) :=
  match tr with
  | [] => []
  | EvRequest rq o :: tr' => (rq, o) :: requests tr'
  | _ :: tr' => requests tr'
  end.

(** The events of [tr] that follow its last [EvOpen]; [acc] when it has
    none. *)
Fixpoint after_last_open (acc tr : list event) : list event :=
  match tr with
  | [] => acc
  | EvOpen _ :: tr' => after_last_open tr' tr'
  | _ :: tr' => after_last_open acc tr'
  end.

(** The events of the last client block (nothing when no client was
    opened). *)
Definition last_attempt (tr : list event) : list event :=
  after_last_open [] tr.

(** The k-th request of the last attempt (0: POST for account A, 1: POST for
    account B, 2: PATCH, 3: DELETE B, 4: PUT seed key, 5: PUT original
    license, 6: GET account info, 7: DELETE A). *)
Definition step (k : nat) (tr : list event) : option (request * api_outcome) :=
  nth_error (requests (last_attempt tr)) k.

(** [r.json()[k]] and [r.json().get(k, default)] as pure lookups. *)
Definition item (v : pyval) (k : pystr) : option pyval :=
  match v with
  | PDict d => dict_lookup k d
  | _ => None
  end.

Definition json_item (r : response) (k : pystr) : option pyval :=
  match resp_json r with
  | Some v => item v k
  | None => None
  end.

Definition json_get (r : response) (k : pystr) (default : pyval) : option pyval :=
  match resp_json r with
  | Some (PDict d) =>
      Some (match dict_lookup k d with Some x => x | None => default end)
  | _ => None
  end.

(** Which [except] clause of the loop takes an exception: its label and the
    sleep that follows. *)
Definition retry_label (e : exn) : string :=
  if is_HTTPStatusError e then "HTTP error occurred"
  else if is_RequestError e then "Request error occurred"
  else "Unexpected error".

Definition retry_delay (e : exn) : Z :=
  if is_HTTPStatusError e then 5
  else if is_RequestError e then 5
  else 10.

Definition diagnostic (rc : Z) (e : exn) : event :=
  EvPrint Stderr (retry_message (retry_label e) rc e).

(** *** The events of an attempt that runs to its [return] *)

Definition mk_request (m : http_method) (path : fstring) (h : headers_t)
    (j : option pyval) : request :=
  {| rq_method := m; rq_path := path; rq_headers := h; rq_json := j |}.

Definition headers_get (token : pyval) : headers_t :=
  [("Authorization", bearer token)].

Definition headers_post (token : pyval) : headers_t :=
  [ ("Content-Type", [Lit "application/json; charset=UTF-8"]);
    ("Authorization", bearer token) ].

Definition license_body (v : pyval) : option pyval :=
  Some (PDict [(py "license", v)]).

Record attempt_data := {
  ad_reg1 : response;          (* answer to POST /reg, account A *)
  ad_reg2 : response;          (* answer to POST /reg, account B *)
  ad_id1 : pyval;
  ad_license : pyval;
  ad_token1 : pyval;
  ad_id2 : pyval;
  ad_token2 : pyval;
  ad_patch : response;
  ad_delete2 : response;
  ad_draw : nat;
  ad_base_key : pystr;
  ad_put_seed : response;
  ad_put_license : response;
  ad_info : response;          (* answer to the final GET *)
  ad_account_type : pyval;
  ad_referral_count : pyval;
  ad_final_license : pyval;
  ad_delete1 : response
}.

Definition success_body (bk : list pystr) (d : attempt_data) : list event :=
  [ EvRequest (mk_request POST [Lit "/reg"] [] None) (ApiResp (ad_reg1 d));
    EvRequest (mk_request POST [Lit "/reg"] [] None) (ApiResp (ad_reg2 d));
    EvRequest (mk_request PATCH (reg_path (ad_id1 d)) (headers_post (ad_token1 d))
                 (Some (PDict [(py "referrer", ad_id2 d)])))
              (ApiResp (ad_patch d));
    EvRequest (mk_request DELETE (reg_path (ad_id2 d)) (headers_get (ad_token2 d)) None)
              (ApiResp (ad_delete2 d));
    EvChoice bk (ad_draw d);
    EvRequest (mk_request PUT (account_path (ad_id1 d)) (headers_post (ad_token1 d))
                 (license_body (PStr (ad_base_key d))))
              (ApiResp (ad_put_seed d));
    EvRequest (mk_request PUT (account_path (ad_id1 d)) (headers_post (ad_token1 d))
                 (license_body (ad_license d)))
              (ApiResp (ad_put_license d));
    EvRequest (mk_request GET (account_path (ad_id1 d)) (headers_get (ad_token1 d)) None)
              (ApiResp (ad_info d));
    EvRequest (mk_request DELETE (reg_path (ad_id1 d)) (headers_get (ad_token1 d)) None)
              (ApiResp (ad_delete1 d));
    EvPrint Stdout [Fmt (ad_final_license d)];
    EvPrint Stderr [Lit "Account Type: "; Fmt (ad_account_type d)];
    EvPrint Stderr [Lit "Data Count: "; Fmt (ad_referral_count d); Lit " GB(s)"] ].

(** The two registrations gave what lines 66-76 read. *)
Definition registered_A (d : attempt_data) : Prop :=
  is_success (status_code (ad_reg1 d)) = true
  /\ json_item (ad_reg1 d) (py "id") = Some (ad_id1 d)
  /\ (exists a, json_item (ad_reg1 d) (py "account") = Some a
                /\ item a (py "license") = Some (ad_license d))
  /\ json_item (ad_reg1 d) (py "token") = Some (ad_token1 d).

Definition registered_B (d : attempt_data) : Prop :=
  is_success (status_code (ad_reg2 d)) = true
  /\ json_item (ad_reg2 d) (py "id") = Some (ad_id2 d)
  /\ json_item (ad_reg2 d) (py "token") = Some (ad_token2 d).

Definition registered (d : attempt_data) : Prop :=
  registered_A d /\ registered_B d.

(** The final account info gave what lines 102-107 read. *)
Definition informed (d : attempt_data) : Prop :=
  is_success (status_code (ad_info d)) = true
  /\ json_get (ad_info d) (py "account_type") (PStr empty) = Some (ad_account_type d)
  /\ json_get (ad_info d) (py "referral_count") (PInt 0) = Some (ad_referral_count d)
  /\ json_item (ad_info d) (py "license") = Some (ad_final_license d).

Definition well_formed (bk : list pystr) (d : attempt_data) : Prop :=
  registered d
  /\ nth_error bk (ad_draw d) = Some (ad_base_key d)
  /\ informed d.

(** The world answers the requests of the attempt that starts in state [s]
    with the responses of [d], up to the final GET, and draws [ad_draw d]. *)
Definition answers_until_info (w : world) (s : state) (bk : list pystr)
    (d : attempt_data) : Prop :=
  api w (n_api s) = ApiResp (ad_reg1 d)
  /\ api w (1 + n_api s)%nat = ApiResp (ad_reg2 d)
  /\ api w (2 + n_api s)%nat = ApiResp (ad_patch d)
  /\ api w (3 + n_api s)%nat = ApiResp (ad_delete2 d)
  /\ (rng w (n_rng s) mod List.length bk)%nat = ad_draw d
  /\ api w (4 + n_api s)%nat = ApiResp (ad_put_seed d)
  /\ api w (5 + n_api s)%nat = ApiResp (ad_put_license d)
  /\ api w (6 + n_api s)%nat = ApiResp (ad_info d).

Definition answers (w : world) (s : state) (bk : list pystr)
    (d : attempt_data) : Prop :=
  answers_until_info w s bk d
  /\ api w (7 + n_api s)%nat = ApiResp (ad_delete1 d).

(** Inside a failed attempt: requests, and draws from the pool [bk]. *)
Definition io_of (bk : list pystr) (ev : event) : Prop :=
  match ev with
  | EvRequest _ _ => True
  | EvChoice pool _ => pool = bk
  | _ => False
  end.

(** *** The shape of one loop iteration and of the whole loop

    [iter_run bk rc tr r rc'] : started with [retry_count = rc], the [try]
    statement of the loop body may append the events [tr], end with [r] and
    leave [retry_count = rc']. *)
Inductive iter_run (bk : list pystr) (rc : Z) :
    list event -> result (option pyval) -> Z -> Prop :=
| IR_return d :
    well_formed bk d ->
    iter_run bk rc (EvOpen client_cfg :: success_body bk d ++ [EvClose])
      (Ok (Some (ad_final_license d))) rc
| IR_interrupt evs :
    Forall (io_of bk) evs ->
    interrupted evs = true ->
    iter_run bk rc (EvOpen client_cfg :: evs ++ [EvClose])
      (Raise KeyboardInterrupt) rc
| IR_handled evs e :
    Forall (io_of bk) evs ->
    interrupted evs = false ->
    is_Exception e = true ->
    (rc + 1 <? max_retries) = false ->
    iter_run bk rc
      (EvOpen client_cfg :: evs ++ [EvClose; diagnostic (rc + 1) e])
      (Ok None) (rc + 1)
| IR_handled_sleep evs e irq :
    Forall (io_of bk) evs ->
    interrupted evs = false ->
    is_Exception e = true ->
    (rc + 1 <? max_retries) = true ->
    iter_run bk rc
      (EvOpen client_cfg :: evs
         ++ [EvClose; diagnostic (rc + 1) e; EvSleep (retry_delay e) irq])
      (if irq then Raise KeyboardInterrupt else Ok None) (rc + 1).

(** [loop_run bk rc tr r rc'] : the same for the [while] loop and the two
    statements after it. *)
Inductive loop_run (bk : list pystr) :
    Z -> list event -> result pyval -> Z -> Prop :=
| LR_exhausted rc :
    (rc <? max_retries) = false ->
    loop_run bk rc [EvPrint Stderr failed_message] (Exit 1) rc
| LR_return rc tr v rc' :
    (rc <? max_retries) = true ->
    iter_run bk rc tr (Ok (Some v)) rc' ->
    loop_run bk rc tr (Ok v) rc'
| LR_raise rc tr e rc' :
    (rc <? max_retries) = true ->
    iter_run bk rc tr (Raise e) rc' ->
    loop_run bk rc tr (Raise e) rc'
| LR_again rc tr rc1 tl r rc' :
    (rc <? max_retries) = true ->
    iter_run bk rc tr (Ok None) rc1 ->
    loop_run bk rc1 tl r rc' ->
    loop_run bk rc (tr ++ tl) r rc'.


(** The retry diagnostics of a trace: the attempt number and the exception
    of every line printed by an [except] clause of the loop. *)
Definition failure_of (ev : event) : option (Z * exn) :=
  match ev with
  | EvPrint Stderr [Lit _; Lit _; Fmt (PInt n); Lit _; Fmt _; Lit _; FmtExn e] =>
      Some (n, e)
  | _ => None
  end.

Fixpoint failures (tr : list event) : list (Z * exn) :=
  match tr with
  | [] => []
  | ev :: tr' =>
      match failure_of ev with
      | Some f => f :: failures tr'
      | None => failures tr'
      end
  end.

(** What [main] adds to the run of the loop, and how it ends. *)
Definition epilogue (r : result pyval) : list event :=
  match r with
  | Raise _ => [EvPrint Stderr cancelled_message]
  | _ => []
  end.

Definition outcome (r : result pyval) : result unit :=
  match r with
  | Ok _ => Ok tt
  | Raise _ => Exit 130
  | Exit c => Exit c
  | Diverge => Diverge
  end.

(** [gsk_shape w tr r rc] : the trace, the result and the final
    [retry_count] of [generate_single_key] in the world [w]. *)
Inductive gsk_shape (w : world) : list event -> result pyval -> Z -> Prop :=
| GS_fetch_interrupted :
    seed_source w 0 = FetchRaise KeyboardInterrupt ->
    gsk_shape w [EvFetch base_keys_url 10 (FetchRaise KeyboardInterrupt)]
      (Raise KeyboardInterrupt) 0
| GS_loop bk s0 tr r0 rc :
    get_base_keys w init = (Ok bk, s0) ->
    loop_run bk 0 tr r0 rc ->
    gsk_shape w (EvFetch base_keys_url 10 (seed_source w 0) :: tr) r0 rc.


(** The license that line 69 reads from a registration response,
    [r.json()["account"]["license"]]. *)
Definition registration_license (r : response) : option pyval :=
  match json_item r (py "account") with
  | Some a => item a (py "license")
  | None => None
  end.

(** The response of the last GET of the trace that completed. *)
Fixpoint final_account_info (tr : list event) : option response :=
  match tr with
  | [] => None
  | ev :: tr' =>
      match final_account_info tr' with
      | Some r => Some r
      | None =>
          match ev with
          | EvRequest {| rq_method := GET |} (ApiResp r) => Some r
          | _ => None
          end
      end
  end.

(** The attempt started in state [s] ends with the exception [e], and an
    [except] clause of the loop takes it: [retry_count] goes up by one, the
    diagnostic is printed on stderr, nothing is printed on stdout, and the
    loop goes on (unless the operator interrupts the sleep). *)
Definition retried (bk : list pystr) (w : world) (s : state) (e : exn) : Prop :=
  exists s1 r s',
    attempt bk w s = (Raise e, s1)
    /\ try_attempt bk w s = (r, s')
    /\ retry_count s' = retry_count s + 1
    /\ lines Stdout (trace s') = lines Stdout (trace s)
    /\ lines Stderr (trace s')
       = lines Stderr (trace s) ++ [retry_message (retry_label e) (retry_count s + 1) e]
    /\ (r = Ok None \/ r = Raise KeyboardInterrupt).

(** The seed-key pool as section 4.1 of the specification words it: split
    on commas, trim each segment, drop the empty ones. *)
Definition spec_parse (body : pystr) : list pystr :=
  filter truthy (map strip (split comma body)).

(** Every draw of [tr] is from the pool [bk], at an index inside it, and
    the event that follows it is the PUT of the key at that index. *)
Fixpoint seeded (bk : list pystr) (tr : list event) : Prop :=
  match tr with
  | [] => True
  | EvChoice pool i :: tr' =>
      pool = bk
      /\ (exists k,
            nth_error bk i = Some k
            /\ match tr' with
               | EvRequest rq _ :: _ =>
                   rq_method rq = PUT /\ rq_json rq = license_body (PStr k)
               | _ => False
               end)
      /\ seeded bk tr'
  | _ :: tr' => seeded bk tr'
  end.

(** Every draw of the loop is from the pool it was given, and the loop
    fetches nothing. *)
Definition pool_is (bk : list pystr) (ev : event) : Prop :=
  match ev with
  | EvChoice pool _ => pool = bk
  | EvFetch _ _ _ => False
  | _ => True
  end.

(** [retry_count] counts the diagnostics, and every diagnostic reports an
    [Exception]. *)
Definition counted (rc : Z) (tr : list event) (rc' : Z) : Prop :=
  rc' = rc + Z.of_nat (List.length (failures tr))
  /\ Forall (fun f => is_Exception (snd f) = true) (failures tr).

(** ** Concrete worlds

    The scenarios of section 8 of the specification and a few variations,
    used to run the script on explicit inputs. *)

Definition with_json (st : Z) (v : pyval) : response :=
  {| status_code := st; resp_json := Some v |}.

(** A response without a JSON body, such as 204 No Content. *)
Definition no_json (st : Z) : response :=
  {| status_code := st; resp_json := None |}.

Definition resp (st : Z) (v : pyval) : api_outcome := ApiResp (with_json st v).

Definition bare (st : Z) : api_outcome := ApiResp (no_json st).

Definition str (s : string) : pyval := PStr (py s).

Definition reg_A : pyval :=
  PDict [ (py "id", str "A1");
          (py "account", PDict [(py "license", str "LIC-ORIG")]);
          (py "token", str "T1") ].

Definition reg_B : pyval :=
  PDict [ (py "id", str "B1"); (py "token", str "T2") ].

Definition info_limited : pyval :=
  PDict [ (py "account_type", str "limited");
          (py "referral_count", PInt 10);
          (py "license", str "LIC-ORIG") ].

(** The provider answers the k-th request of every attempt with the k-th
    outcome of [l]. *)
Definition cycle (l : list api_outcome) (n : nat) : api_outcome :=
  nth (n mod List.length l) l (ApiRaise (RequestError "ConnectError")).

(** What a UTF-8 stdout takes: every text but a [str] with a surrogate
    ([str()] of any other value goes through [repr], which escapes them). *)
Definition has_surrogate (s : pystr) : bool := existsb is_surrogate s.

Definition utf8_piece (p : piece) : bool :=
  match p with
  | Fmt (PStr s) => negb (has_surrogate s)
  | _ => true
  end.

Definition utf8_accepts (text : fstring) : bool := forallb utf8_piece text.

Definition mk_world (src : fetch_outcome) (answer : nat -> api_outcome) : world :=
  {| seed_source := fun _ => src;
     api := answer;
     rng := fun n => n;
     ctrl_c := fun _ => false;
     stdout_accepts := utf8_accepts |}.

Definition seed_body (s : string) : fetch_outcome :=
  FetchResp 200 (list_byte_of_string s).

(** The end-to-end scenario of the specification. *)
Definition w_scenario : world :=
  mk_world (seed_body "SEED-1")
    (cycle [ resp 200 reg_A; resp 200 reg_B; bare 200; bare 204; bare 200;
             bare 200; resp 200 info_limited; bare 204 ]).

(** The seed source answers ["K1, K2 ,K3"]. *)
Definition w_k123 : world :=
  mk_world (seed_body "K1, K2 ,K3")
    (cycle [ resp 200 reg_A; resp 200 reg_B; bare 200; bare 204; bare 200;
             bare 200; resp 200 info_limited; bare 204 ]).

(** Nothing is reachable. *)
Definition w_down : world :=
  mk_world (FetchRaise (OtherException "ConnectionError"))
    (fun _ => ApiRaise (RequestError "ConnectError")).

(** Everything answers, up to the final GET included; the deletion of
    account A then times out, in every attempt. *)
Definition w_delete_fails : world :=
  mk_world (seed_body "SEED-1")
    (cycle [ resp 200 reg_A; resp 200 reg_B; bare 200; bare 204; bare 200;
             bare 200; resp 200 info_limited;
             ApiRaise (RequestError "ReadTimeout") ]).

(** The final account info carries another license than the registration. *)
Definition info_other : pyval :=
  PDict [ (py "account_type", str "limited");
          (py "referral_count", PInt 10);
          (py "license", str "LIC-OTHER") ].

Definition w_other_license : world :=
  mk_world (seed_body "SEED-1")
    (cycle [ resp 200 reg_A; resp 200 reg_B; bare 200; bare 204; bare 200;
             bare 200; resp 200 info_other; bare 204 ]).

(** The PATCH, both PUTs and both DELETEs are refused by the provider. *)
Definition w_refused : world :=
  mk_world (seed_body "SEED-1")
    (cycle [ resp 200 reg_A; resp 200 reg_B; bare 500; bare 403; bare 400;
             bare 400; resp 200 info_limited; bare 500 ]).

(** The seed source answers 200 with an empty body. *)
Definition w_empty_body : world :=
  mk_world (FetchResp 200 [])
    (cycle [ resp 200 reg_A; resp 200 reg_B; bare 200; bare 204 ]).

(** The operator presses Ctrl-C during the second registration. *)
Definition w_ctrl_c : world :=
  mk_world (seed_body "SEED-1")
    (cycle [ resp 200 reg_A; ApiRaise KeyboardInterrupt ]).

(** The first registration is refused; or the second one; or the final
    GET. *)
Definition w_reg_A_refused : world :=
  mk_world (seed_body "SEED-1") (cycle [ resp 503 reg_A ]).

Definition w_reg_B_refused : world :=
  mk_world (seed_body "SEED-1") (cycle [ resp 200 reg_A; resp 429 reg_B ]).

Definition w_info_refused : world :=
  mk_world (seed_body "SEED-1")
    (cycle [ resp 200 reg_A; resp 200 reg_B; bare 200; bare 204; bare 200;
             bare 200; resp 500 info_limited; bare 204 ]).

(** The final account info has a license and nothing else, or everything
    but a license. *)
Definition info_only_license : pyval :=
  PDict [ (py "license", str "LIC-ORIG") ].

Definition info_no_license : pyval :=
  PDict [ (py "account_type", str "limited"); (py "referral_count", PInt 10) ].

Definition w_only_license : world :=
  mk_world (seed_body "SEED-1")
    (cycle [ resp 200 reg_A; resp 200 reg_B; bare 200; bare 204; bare 200;
             bare 200; resp 200 info_only_license; bare 204 ]).

Definition w_no_license : world :=
  mk_world (seed_body "SEED-1")
    (cycle [ resp 200 reg_A; resp 200 reg_B; bare 200; bare 204; bare 200;
             bare 200; resp 200 info_no_license; bare 204 ]).

(** The final account info carries a license that is a lone surrogate, as
    [r.json()] returns it for the JSON text ["\ud800"]: a UTF-8 stdout
    cannot encode it. *)
Definition lone_surrogate : pyval := PStr [0xD800%N].

Definition info_unprintable : pyval :=
  PDict [ (py "license", lone_surrogate) ].

Definition w_unprintable : world :=
  mk_world (seed_body "SEED-1")
    (cycle [ resp 200 reg_A; resp 200 reg_B; bare 200; bare 204; bare 200;
             bare 200; resp 200 info_unprintable; bare 204 ]).

(** Three seed keys, and the deletion of account A times out in every
    attempt. *)
Definition w_k123_delete_fails : world :=
  mk_world (seed_body "K1, K2 ,K3")
    (cycle [ resp 200 reg_A; resp 200 reg_B; bare 200; bare 204; bare 200;
             bare 200; resp 200 info_limited;
             ApiRaise (RequestError "ReadTimeout") ]).

(** What an attempt reads in these worlds: accounts A1 and B1, the pool
    [["SEED-1"]], and the given answers to the unchecked requests and to the
    final GET. *)
Definition scenario_data (st_B : Z) (st_patch st_delete2 st_put1 st_put2 : Z)
    (info : response) (account_type referral_count : pyval) (st_delete1 : Z)
    : attempt_data :=
  {| ad_reg1 := with_json 200 reg_A;
     ad_reg2 := with_json st_B reg_B;
     ad_id1 := str "A1";
     ad_license := str "LIC-ORIG";
     ad_token1 := str "T1";
     ad_id2 := str "B1";
     ad_token2 := str "T2";
     ad_patch := no_json st_patch;
     ad_delete2 := no_json st_delete2;
     ad_draw := 0;
     ad_base_key := py "SEED-1";
     ad_put_seed := no_json st_put1;
     ad_put_license := no_json st_put2;
     ad_info := info;
     ad_account_type := account_type;
     ad_referral_count := referral_count;
     ad_final_license := str "LIC-ORIG";
     ad_delete1 := no_json st_delete1 |}.

Definition d_refused : attempt_data :=
  scenario_data 200 500 403 400 400 (with_json 200 info_limited)
    (str "limited") (PInt 10) 500.

Definition d_reg_B_refused : attempt_data :=
  scenario_data 429 200 204 200 200 (with_json 200 info_limited)
    (str "limited") (PInt 10) 204.

Definition d_info_refused : attempt_data :=
  scenario_data 200 200 204 200 200 (with_json 500 info_limited)
    (str "limited") (PInt 10) 204.

Definition d_only_license : attempt_data :=
  scenario_data 200 200 204 200 200 (with_json 200 info_only_license)
    (PStr empty) (PInt 0) 204.

Definition d_no_license : attempt_data :=
  scenario_data 200 200 204 200 200 (with_json 200 info_no_license)
    (str "limited") (PInt 10) 204.

Definition d_unprintable : attempt_data :=
  {| ad_reg1 := with_json 200 reg_A;
     ad_reg2 := with_json 200 reg_B;
     ad_id1 := str "A1";
     ad_license := str "LIC-ORIG";
     ad_token1 := str "T1";
     ad_id2 := str "B1";
     ad_token2 := str "T2";
     ad_patch := no_json 200;
     ad_delete2 := no_json 204;
     ad_draw := 0;
     ad_base_key := py "SEED-1";
     ad_put_seed := no_json 200;
     ad_put_license := no_json 200;
     ad_info := with_json 200 info_unprintable;
     ad_account_type := PStr empty;
     ad_referral_count := PInt 0;
     ad_final_license := lone_surrogate;
     ad_delete1 := no_json 204 |}.

(** The state in which the loop starts when the seed source answered. *)
Definition loop_start (w : world) : state :=
  set_retry_count 0 (snd (get_base_keys w init)).

(** The final trace, result and [retry_count] of the script in a world. *)
Definition run (w : world) : result unit * state := main w init.


(** ** The request protocol of a run

    What the script sends, and when, read as an automaton over the trace. *)

Definition method_eqb (a b : http_method) : bool :=
  match a, b with
  | POST, POST | PATCH, PATCH | DELETE, DELETE | PUT, PUT | GET, GET => true
  | _, _ => false
  end.

(** The methods of the eight requests of an attempt, lines 66-110. *)
Definition attempt_methods : list http_method :=
  [POST; POST; PATCH; DELETE; PUT; PUT; GET; DELETE].

Definition has_header (name : string) (h : headers_t) : bool :=
  existsb (fun p => String.eqb (fst p) name) h.

Definition has_json (rq : request) : bool :=
  match rq_json rq with Some _ => true | None => false end.

(** The path is [/reg], [/reg/{id}] or [/reg/{id}/account]. *)
Definition path_kind (p : fstring) : option nat :=
  match p with
  | [Lit a] => if String.eqb a "/reg" then Some 0%nat else None
  | [Lit a; Fmt _] => if String.eqb a "/reg/" then Some 1%nat else None
  | [Lit a; Fmt _; Lit b] =>
      if String.eqb a "/reg/" && String.eqb b "/account" then Some 2%nat else None
  | _ => None
  end.

(** What the k-th request of an attempt looks like: the registrations are
    bare POSTs of [/reg]; every other request carries an [Authorization]
    header; PATCH and PUT carry a JSON body and its content type. *)
Definition request_ok (k : nat) (rq : request) : bool :=
  match nth_error attempt_methods k with
  | None => false
  | Some m =>
      method_eqb (rq_method rq) m
      && match m with
         | POST =>
             match rq_headers rq with [] => true | _ => false end
             && negb (has_json rq)
             && match path_kind (rq_path rq) with Some 0%nat => true | _ => false end
         | PATCH =>
             has_header "Authorization" (rq_headers rq)
             && has_header "Content-Type" (rq_headers rq)
             && has_json rq
             && match path_kind (rq_path rq) with Some 1%nat => true | _ => false end
         | DELETE =>
             has_header "Authorization" (rq_headers rq)
             && negb (has_json rq)
             && match path_kind (rq_path rq) with Some 1%nat => true | _ => false end
         | PUT =>
             has_header "Authorization" (rq_headers rq)
             && has_header "Content-Type" (rq_headers rq)
             && has_json rq
             && match path_kind (rq_path rq) with Some 2%nat => true | _ => false end
         | GET =>
             has_header "Authorization" (rq_headers rq)
             && negb (has_json rq)
             && match path_kind (rq_path rq) with Some 2%nat => true | _ => false end
         end
  end.

(** No client is open, or one is, [k] requests were sent through it and the
    seed key was drawn or not. *)
Inductive pstate :=
| Closed
| Open (k : nat) (drawn : bool).

(** One event at a time: a client is opened only when none is; requests
    follow [attempt_methods]; the draw comes once, after the fourth request;
    nothing is printed inside a client block before the eighth request;
    outside a block only stderr is printed to; sleeps are outside. *)
Definition proto_step (st : pstate) (ev : event) : option pstate :=
  match st, ev with
  | Closed, EvOpen _ => Some (Open 0 false)
  | Closed, EvPrint Stderr _ => Some Closed
  | Closed, EvSleep _ _ => Some Closed
  | Open k dr, EvRequest rq _ =>
      if request_ok k rq && (Nat.ltb k 4 || dr) then Some (Open (S k) dr) else None
  | Open k dr, EvChoice _ _ =>
      if Nat.eqb k 4 && negb dr then Some (Open k true) else None
  | Open k dr, EvPrint _ _ =>
      if Nat.eqb k 8 then Some (Open k dr) else None
  | Open _ _, EvClose => Some Closed
  | _, _ => None
  end.

Fixpoint proto_run (st : pstate) (tr : list event) : option pstate :=
  match tr with
  | [] => Some st
  | ev :: tr' =>
      match proto_step st ev with
      | Some st' => proto_run st' tr'
      | None => None
      end
  end.

(** ** Counting *)

Definition is_open (ev : event) : bool :=
  match ev with EvOpen _ => true | _ => false end.

Definition is_close (ev : event) : bool :=
  match ev with EvClose => true | _ => false end.

Definition is_request (ev : event) : bool :=
  match ev with EvRequest _ _ => true | _ => false end.

Definition is_choice (ev : event) : bool :=
  match ev with EvChoice _ _ => true | _ => false end.

Definition is_sleep (ev : event) : bool :=
  match ev with EvSleep _ _ => true | _ => false end.

Definition count (p : event -> bool) (tr : list event) : nat :=
  List.length (filter p tr).

(** The requests that got a response. *)
Definition completed (tr : list event) : nat :=
  List.length (filter (fun q => match snd q with ApiResp _ => true | ApiRaise _ => false end)
                 (requests tr)).

(** Seconds asked of [time.sleep], over the trace. *)
Fixpoint sleep_total (tr : list event) : Z :=
  match tr with
  | [] => 0
  | EvSleep secs _ :: tr' => secs + sleep_total tr'
  | _ :: tr' => sleep_total tr'
  end.

(** Requests that the automaton still allows in the current client block,
    and draws. *)
Definition request_budget (st : pstate) : nat :=
  match st with
  | Closed => 0
  | Open k _ => 8 - k
  end.

Definition draw_budget (st : pstate) : nat :=
  match st with
  | Open _ false => 1
  | _ => 0
  end.

Definition is_opened (st : pstate) : nat :=
  match st with
  | Closed => 0
  | Open _ _ => 1
  end.

(** ** The module body

    Lines 12-18 and 151-152: the imports, guarded, then [main].
    [installed] tells whether [httpx] and [requests] can be imported. *)
Definition script (installed : bool) : M unit :=
  if installed then main
  else
    print Stderr [Lit "Error: Required modules not installed"];;
    print Stderr [Lit "Install: pip3 install httpx requests"];;
    sys_exit 1.

(** What the [except Exception] clause of [main] would print. *)
Definition fatal_message (e : exn) : fstring := [Lit "Fatal error: "; FmtExn e].

(** ** Further worlds and observations *)

(** The first registration is answered with an id and a token and no
    account. *)
Definition w_reg_no_account : world :=
  mk_world (seed_body "SEED-1") (cycle [ resp 200 reg_B ]).

(** The sleeps of a trace, and the sleep that follows a diagnostic: the one
    of its [except] clause, unless the diagnostic is that of the last
    attempt. *)
Fixpoint sleeps (tr : list event) : list Z :=
  match tr with
  | [] => []
  | EvSleep secs _ :: tr' => secs :: sleeps tr'
  | _ :: tr' => sleeps tr'
  end.

Definition sleep_after (f : Z * exn) : list Z :=
  if fst f <? max_retries then [retry_delay (snd f)] else [].

(** A draw records an index inside its pool. *)
Definition draw_in_range (ev : event) : Prop :=
  match ev with
  | EvChoice pool i => (i < List.length pool)%nat
  | _ => True
  end.

(** The requests a client may still send when no seed key is drawn any
    more. *)
Definition request_budget_no_draw (st : pstate) : nat :=
  match st with
  | Closed => 0
  | Open k false => 4 - k
  | Open k true => 8 - k
  end.

(** * Proofs *)

(** ** The string functions and the script on explicit inputs *)

Example decode_ascii :
  bytes_decode_UTF8 (list_byte_of_string "K1, K2 ,K3") = Some (py "K1, K2 ,K3").
Proof. reflexivity. Qed.

Example decode_two_bytes : decode_utf8 [0xC3; 0xA9]%N = Some [0xE9]%N.
Proof. reflexivity. Qed.

Example decode_three_bytes : decode_utf8 [0xE2; 0x82; 0xAC]%N = Some [0x20AC]%N.
Proof. reflexivity. Qed.

Example decode_overlong : decode_utf8 [0xC0; 0x80]%N = None.
Proof. reflexivity. Qed.

Example decode_surrogate : decode_utf8 [0xED; 0xA0; 0x80]%N = None.
Proof. reflexivity. Qed.

Example decode_truncated : decode_utf8 [0x4B; 0xE2; 0x82]%N = None.
Proof. reflexivity. Qed.

Example split_keeps_empty_segments :
  split comma (py "a,,b,") = [py "a"; empty; py "b"; empty].
Proof. reflexivity. Qed.

Example split_empty : split comma empty = [empty].
Proof. reflexivity. Qed.

Example strip_both_ends : strip (py "  K2 ") = py "K2".
Proof. reflexivity. Qed.

Example strip_no_break_space : strip [0xA0; 0x4B; 0x2003]%N = [0x4B]%N.
Proof. reflexivity. Qed.

(** The end-to-end scenario of section 8 of the specification. *)
Example scenario_run :
  fst (run w_scenario) = Ok tt
  /\ stdout (trace (snd (run w_scenario))) = [[Fmt (str "LIC-ORIG")]]
  /\ stderr (trace (snd (run w_scenario)))
     = [ [Lit "Account Type: "; Fmt (str "limited")];
         [Lit "Data Count: "; Fmt (PInt 10); Lit " GB(s)"] ].
Proof. repeat split. Qed.

(** ** Symbolic execution of the monadic code *)

Arguments py s : simpl never.

Ltac destr_in H :=
  match type of H with
  | context [match ?x with _ => _ end] =>
      lazymatch x with
      | context [match _ with _ => _ end] => fail
      | _ => destruct x eqn:?
      end
  end.

Ltac unfold_M H :=
  cbv beta iota zeta delta [attempt with_client bind ret raise client_request
    raise_for_status json getitem dict_get print random_choice] in H.

Ltac inj_pair H :=
  match type of H with
  | (?a, ?b) = (?r, ?s') =>
      let Hr := fresh in let Hs := fresh in
      assert (Hr : r = a) by congruence;
      assert (Hs : s' = b) by congruence;
      clear H; subst r s'
  end.

Ltac norm_trace :=
  cbn [trace log tick_api tick_rng tick_sleep tick_fetch set_retry_count
       retry_count n_api n_rng n_sleep n_fetch];
  repeat first [rewrite <- app_assoc | progress cbn [app]].

Lemma attempt_outcome bk w s r s' :
  attempt bk w s = (r, s') ->
  exists evs,
    trace s' = trace s ++ EvOpen client_cfg :: evs ++ [EvClose]
    /\ retry_count s' = retry_count s
    /\ match r with
       | Ok v => exists d, evs = success_body bk d /\ well_formed bk d
                           /\ v = ad_final_license d
       | Raise e => Forall (io_of bk) evs
                    /\ interrupted evs = is_KeyboardInterrupt e
       | _ => False
       end.
Proof.
  intros H. unfold_M H.
  repeat (destr_in H; cbv beta iota in H); inj_pair H;
    norm_trace;
    match goal with
    | |- exists evs, ?t ++ ?l = ?t ++ _ :: evs ++ [_] /\ _ =>
        exists (removelast (tl l))
    end;
    (split; [reflexivity|]); (split; [reflexivity|]); cbv beta iota delta [removelast tl].
  all: try (split; [ repeat constructor
                   | try reflexivity;
                     match goal with |- context [is_KeyboardInterrupt ?e] =>
                       destruct e; reflexivity end ]).
  all: repeat match goal with H : api _ _ = _ |- _ => clear H end.
  all: eexists (Build_attempt_data _ _ _ _ _ _ _ _ _ _ _ _ _ _ _ _ _ _);
    (split; [reflexivity|]); (split; [|reflexivity]);
    unfold well_formed, registered, registered_A, registered_B, informed,
      json_item, json_get, item;
    cbv beta iota delta [ad_reg1 ad_reg2 ad_id1 ad_license ad_token1 ad_id2 ad_token2
      ad_draw ad_base_key ad_info ad_account_type ad_referral_count ad_final_license];
    repeat match goal with H : _ = _ |- _ => rewrite H end.
  all: repeat split; try reflexivity; try assumption.
  all: eexists; split; [reflexivity | assumption].
Qed.

(** ** One iteration of the loop *)

Lemma on_error_eq what delay e w s :
  on_error what delay e w s =
  let rc := retry_count s + 1 in
  let s2 := log (EvPrint Stderr (retry_message what rc e)) (set_retry_count rc s) in
  if rc <? max_retries then
    let s3 := log (EvSleep delay (ctrl_c w (n_sleep s))) (tick_sleep s2) in
    if ctrl_c w (n_sleep s) then (Raise KeyboardInterrupt, s3) else (Ok None, s3)
  else (Ok None, s2).
Proof.
  unfold on_error, bind, incr_retry_count, get_retry_count, print, ret, time_sleep.
  cbn [retry_count set_retry_count log n_sleep]. cbv zeta.
  destruct (retry_count s + 1 <? max_retries); [|reflexivity].
  cbn [n_sleep log set_retry_count]. destruct (ctrl_c w (n_sleep s)); reflexivity.
Qed.

Lemma try_attempt_return bk w s v s' :
  attempt bk w s = (Ok v, s') -> try_attempt bk w s = (Ok (Some v), s').
Proof.
  intros E. unfold try_attempt, try_except, bind. rewrite E. reflexivity.
Qed.

Lemma try_attempt_raise bk w s e s1 :
  attempt bk w s = (Raise e, s1) ->
  is_Exception e = true ->
  try_attempt bk w s = on_error (retry_label e) (retry_delay e) e w s1.
Proof.
  intros E HE. unfold try_attempt, try_except, bind. rewrite E.
  destruct e; try discriminate; reflexivity.
Qed.

Lemma try_attempt_interrupt bk w s s1 :
  attempt bk w s = (Raise KeyboardInterrupt, s1) ->
  try_attempt bk w s = (Raise KeyboardInterrupt, s1).
Proof.
  intros E. unfold try_attempt, try_except, bind. rewrite E. reflexivity.
Qed.

Lemma try_attempt_outcome bk w s r s' :
  try_attempt bk w s = (r, s') ->
  exists tr, trace s' = trace s ++ tr
             /\ iter_run bk (retry_count s) tr r (retry_count s').
Proof.
  intros H. destruct (attempt bk w s) as [r0 s1] eqn:E.
  pose proof (attempt_outcome _ _ _ E) as (evs & Ht & Hrc & Hr).
  destruct r0 as [v | e | c | ]; try contradiction.
  - rewrite (try_attempt_return _ _ _ E) in H. inj_pair H.
    destruct Hr as (d & -> & Hwf & ->).
    eexists; split; [eassumption|]. rewrite Hrc. now constructor.
  - destruct Hr as (Hio & Hint). destruct (is_Exception e) eqn:HE.
    + assert (HnK : is_KeyboardInterrupt e = false)
        by (destruct e; auto; discriminate).
      rewrite HnK in Hint.
      rewrite (try_attempt_raise _ _ _ E HE), on_error_eq in H. cbv zeta in H.
      destruct (retry_count s1 + 1 <? max_retries) eqn:Hlt;
        [destruct (ctrl_c w (n_sleep s1)) eqn:Hirq|];
        inj_pair H; norm_trace; rewrite Ht; norm_trace;
        (eexists; split; [reflexivity|]); rewrite <- Hrc.
      * exact (@IR_handled_sleep bk (retry_count s1) _ e true Hio Hint HE Hlt).
      * exact (@IR_handled_sleep bk (retry_count s1) _ e false Hio Hint HE Hlt).
      * apply IR_handled; auto.
    + destruct e; try discriminate.
      rewrite (try_attempt_interrupt _ _ _ E) in H. inj_pair H.
      eexists; split; [eassumption|]. rewrite Hrc. now constructor.
Qed.

(** What an [except] clause of the loop appends: a diagnostic, and a sleep
    when attempts remain. *)
Lemma try_attempt_extends bk w s r s' :
  try_attempt bk w s = (r, s') ->
  exists r0 s1 tail,
    attempt bk w s = (r0, s1)
    /\ trace s' = trace s1 ++ tail
    /\ (tail = []
        \/ exists e,
             r0 = Raise e
             /\ (tail = [diagnostic (retry_count s1 + 1) e]
                 \/ exists irq,
                      tail = [diagnostic (retry_count s1 + 1) e;
                              EvSleep (retry_delay e) irq])).
Proof.
  intros H. destruct (attempt bk w s) as [r0 s1] eqn:E.
  exists r0, s1.
  destruct r0 as [v | e | c | ].
  - rewrite (try_attempt_return _ _ _ E) in H. inj_pair H.
    exists []. rewrite app_nil_r. auto.
  - destruct (is_Exception e) eqn:HE.
    + rewrite (try_attempt_raise _ _ _ E HE), on_error_eq in H. cbv zeta in H.
      destruct (retry_count s1 + 1 <? max_retries);
        [destruct (ctrl_c w (n_sleep s1))|]; inj_pair H; norm_trace;
        eexists; (split; [reflexivity|]); (split; [reflexivity|]);
        right; exists e; (split; [reflexivity|]); eauto.
    + destruct e; try discriminate.
      rewrite (try_attempt_interrupt _ _ _ E) in H. inj_pair H.
      exists []. rewrite app_nil_r. auto.
  - apply attempt_outcome in E. destruct E as (_ & _ & _ & []).
  - apply attempt_outcome in E. destruct E as (_ & _ & _ & []).
Qed.

(** ** The loop *)

Lemma retry_loop_run bk w fuel : forall s r s',
  retry_loop fuel bk w s = (r, s') ->
  (Z.to_nat (max_retries - retry_count s) < fuel)%nat ->
  exists tr, trace s' = trace s ++ tr
             /\ loop_run bk (retry_count s) tr r (retry_count s').
Proof.
  induction fuel as [| fuel IH]; intros s r s' H Hfuel; [lia|].
  cbn [retry_loop] in H. unfold bind, get_retry_count in H.
  destruct (retry_count s <? max_retries) eqn:Hlt.
  - destruct (try_attempt bk w s) as [r0 s1] eqn:E.
    apply try_attempt_outcome in E. destruct E as (tr & Ht & Hrun).
    destruct r0 as [[v |] | e | c | ].
    + unfold ret in H. inj_pair H.
      exists tr; split; [assumption|]. now apply LR_return.
    + apply IH in H.
      * destruct H as (tl & Ht' & Hrun').
        exists (tr ++ tl); split.
        -- rewrite Ht', Ht. now rewrite app_assoc.
        -- eapply LR_again; eauto.
      * assert (retry_count s1 = retry_count s + 1) by (inversion Hrun; try destruct irq; congruence).
        apply Z.ltb_lt in Hlt. unfold max_retries in *. lia.
    + inj_pair H. exists tr; split; [assumption|]. now apply LR_raise.
    + inversion Hrun. destruct irq; discriminate.
    + inversion Hrun. destruct irq; discriminate.
  - unfold print, sys_exit in H. inj_pair H. norm_trace.
    eexists; split; [reflexivity|]. now apply LR_exhausted.
Qed.

(** ** Running an attempt forward, from what the world answers *)

Lemma json_item_inv r k v :
  json_item r k = Some v ->
  exists d, resp_json r = Some (PDict d) /\ dict_lookup k d = Some v.
Proof.
  unfold json_item, item. destruct (resp_json r) as [[]|]; try discriminate.
  eauto.
Qed.

Lemma item_inv a k v :
  item a k = Some v -> exists d, a = PDict d /\ dict_lookup k d = Some v.
Proof. destruct a; try discriminate. cbn. eauto. Qed.

Lemma json_get_inv r k def v :
  json_get r k def = Some v ->
  exists d, resp_json r = Some (PDict d)
            /\ v = match dict_lookup k d with Some x => x | None => def end.
Proof.
  unfold json_get. destruct (resp_json r) as [[]|]; try discriminate.
  intros [= <-]. eauto.
Qed.

Lemma nth_error_nonempty (A : Type) (l : list A) i x :
  nth_error l i = Some x -> Nat.eqb (List.length l) 0 = false.
Proof. destruct l; [destruct i; discriminate | reflexivity]. Qed.

Ltac same_dict :=
  repeat match goal with
  | H1 : resp_json ?r = Some (PDict ?d1), H2 : resp_json ?r = Some (PDict ?d2) |- _ =>
      assert (d2 = d1) by congruence; subst d2; clear H2
  end.

Ltac open_registered H :=
  let a := fresh "a" in
  destruct H as ((? & ?%json_item_inv & (a & ?%json_item_inv & ?%item_inv)
                  & ?%json_item_inv) & ? & ?%json_item_inv & ?%json_item_inv);
  repeat match goal with H : exists _, _ |- _ => destruct H as (? & ? & ?) end;
  subst; same_dict.

Ltac open_informed H :=
  destruct H as (? & ?%json_get_inv & ?%json_get_inv & ?%json_item_inv);
  repeat match goal with H : exists _, _ |- _ => destruct H as (? & ? & ?) end;
  subst; same_dict.

Ltac unfold_M_goal :=
  cbv beta iota zeta delta [attempt with_client bind ret raise client_request
    raise_for_status json getitem dict_get print random_choice].

Ltac fwd :=
  repeat (cbn [n_api n_rng log tick_api tick_rng Nat.add];
          match goal with
          | H : ?x = _ |- context [match ?x with _ => _ end] => rewrite H
          end; cbv beta iota).

Lemma attempt_complete bk w s d :
  answers w s bk d -> well_formed bk d ->
  stdout_accepts w [Fmt (ad_final_license d)] = true ->
  exists s', attempt bk w s = (Ok (ad_final_license d), s')
             /\ trace s' = trace s ++ EvOpen client_cfg :: success_body bk d ++ [EvClose]
             /\ retry_count s' = retry_count s.
Proof.
  intros ((A0 & A1 & A2 & A3 & Ar & A4 & A5 & A6) & A7) (Hreg & Hnth & Hinf) Hacc.
  open_registered Hreg. open_informed Hinf.
  pose proof (nth_error_nonempty _ _ Hnth) as Hne.
  rewrite <- Ar in Hnth.
  cbn [Nat.add] in *.
  destruct (dict_lookup (py "account_type") _) eqn:Hat in *;
    destruct (dict_lookup (py "referral_count") _) eqn:Hrc in *;
    (eexists; split; [unfold_M_goal; fwd; reflexivity|]);
    unfold success_body; norm_trace; rewrite <- Ar;
    repeat match goal with H : ad_account_type _ = _ |- _ => rewrite H
                      | H : ad_referral_count _ = _ |- _ => rewrite H end;
    split; reflexivity.
Qed.


(** ** [get_base_keys] *)

Lemma get_base_keys_eq w s :
  get_base_keys w s =
  let o := seed_source w (n_fetch s) in
  let s1 := log (EvFetch base_keys_url 10 o) (tick_fetch s) in
  match o with
  | FetchRaise e => (if is_Exception e then Ok fallback_keys else Raise e, s1)
  | FetchResp st content =>
      if (400 <=? st) && (st <? 600) then (Ok fallback_keys, s1)
      else match bytes_decode_UTF8 content with
           | Some keys_str => (Ok (parse_keys keys_str), s1)
           | None => (Ok fallback_keys, s1)
           end
  end.
Proof.
  unfold get_base_keys, try_except, bind, requests_get, requests_raise_for_status,
    decode_UTF8.
  cbv zeta. destruct (seed_source w (n_fetch s)) as [st content | e].
  - cbn [fst snd]. destruct ((400 <=? st) && (st <? 600)).
    + reflexivity.
    + unfold ret. destruct (bytes_decode_UTF8 content); reflexivity.
  - destruct e; reflexivity.
Qed.

Lemma get_base_keys_outcome w s r s' :
  get_base_keys w s = (r, s') ->
  trace s' = trace s ++ [EvFetch base_keys_url 10 (seed_source w (n_fetch s))]
  /\ retry_count s' = retry_count s
  /\ match r with
     | Ok _ => interrupted_ev (EvFetch base_keys_url 10 (seed_source w (n_fetch s))) = false
     | Raise e => e = KeyboardInterrupt
                  /\ seed_source w (n_fetch s) = FetchRaise KeyboardInterrupt
     | _ => False
     end.
Proof.
  rewrite get_base_keys_eq. cbv zeta.
  destruct (seed_source w (n_fetch s)) as [st content | e].
  - destruct ((400 <=? st) && (st <? 600)); [|destruct (bytes_decode_UTF8 content)];
      intros H; inj_pair H; repeat split.
  - destruct e; intros H; inj_pair H; repeat split.
Qed.

(** ** The loop raises nothing but the operator's interruption *)

Lemma iter_run_raise bk rc tr e rc' :
  iter_run bk rc tr (Raise e) rc' -> e = KeyboardInterrupt.
Proof.
  inversion 1; subst; try reflexivity.
  destruct irq; congruence.
Qed.

Lemma loop_run_result bk rc tr r rc' :
  loop_run bk rc tr r rc' ->
  match r with
  | Ok _ => True
  | Raise e => e = KeyboardInterrupt
  | Exit c => c = 1
  | Diverge => False
  end.
Proof.
  induction 1; auto.
  eapply iter_run_raise; eauto.
Qed.

(** ** The shape of a run of [generate_single_key] and of [main] *)

Lemma gsk_shape_of_run w r s :
  generate_single_key w init = (r, s) -> gsk_shape w (trace s) r (retry_count s).
Proof.
  unfold generate_single_key, generate_single_key_fuel, bind.
  destruct (get_base_keys w init) as [r0 s0] eqn:E0.
  pose proof (get_base_keys_outcome _ _ E0) as (Ht0 & Hrc0 & Hr0).
  cbn [trace init n_fetch app] in Ht0, Hr0.
  destruct r0 as [bk | e | c | ]; try contradiction.
  - unfold assign_retry_count. intros E1.
    apply retry_loop_run in E1; [| cbn; lia].
    destruct E1 as (tr & Ht1 & Hrun).
    cbn [retry_count set_retry_count trace] in Ht1, Hrun.
    rewrite Ht1, Ht0. cbn [app]. eapply GS_loop; eauto.
  - destruct Hr0 as (-> & Hsrc). intros H; inj_pair H.
    rewrite Ht0, Hrc0, Hsrc. now constructor.
Qed.

Lemma gsk_result w r s :
  generate_single_key w init = (r, s) ->
  match r with
  | Ok _ => True
  | Raise e => e = KeyboardInterrupt
  | Exit c => c = 1
  | Diverge => False
  end.
Proof.
  intros H. apply gsk_shape_of_run in H. inversion H; subst; [reflexivity|].
  eapply loop_run_result; eauto.
Qed.

Lemma main_of_gsk w r s :
  main w init = (r, s) ->
  exists r0 s0,
    generate_single_key w init = (r0, s0)
    /\ r = outcome r0
    /\ trace s = trace s0 ++ epilogue r0
    /\ retry_count s = retry_count s0.
Proof.
  unfold main, try_except, bind.
  destruct (generate_single_key w init) as [r0 s0] eqn:E.
  pose proof (gsk_result _ E) as Hres.
  destruct r0 as [v | e | c | ]; try contradiction.
  - unfold ret. intros H; inj_pair H.
    exists (Ok v), s0. cbn [epilogue]. rewrite app_nil_r. auto.
  - subst e. cbn [find fst snd is_KeyboardInterrupt].
    unfold print, sys_exit. intros H; inj_pair H.
    exists (Raise KeyboardInterrupt), s0. auto.
  - intros H; inj_pair H.
    exists (Exit c), s0. cbn [epilogue]. rewrite app_nil_r. auto.
Qed.

Lemma main_shape w r s :
  main w init = (r, s) ->
  exists r0 tr,
    gsk_shape w tr r0 (retry_count s)
    /\ r = outcome r0 /\ trace s = tr ++ epilogue r0.
Proof.
  intros H. apply main_of_gsk in H.
  destruct H as (r0 & s0 & E & -> & Ht & Hrc).
  apply gsk_shape_of_run in E. rewrite Hrc, Ht. eauto.
Qed.

(** ** The fuel of the loop is enough *)

Lemma retry_loop_more_fuel bk w fuel : forall s r s',
  retry_loop fuel bk w s = (r, s') ->
  r <> Diverge ->
  forall fuel', (fuel <= fuel')%nat -> retry_loop fuel' bk w s = (r, s').
Proof.
  induction fuel as [| fuel IH]; intros s r s' H Hr fuel' Hle.
  - cbn in H. inj_pair H. now contradiction Hr.
  - destruct fuel' as [| fuel']; [lia|].
    cbn [retry_loop] in *. unfold bind, get_retry_count in *.
    destruct (retry_count s <? max_retries); [|exact H].
    destruct (try_attempt bk w s) as [[[v |] | e | c | ] s1]; try exact H.
    apply IH; [exact H | exact Hr | lia].
Qed.

Lemma generate_single_key_fuel_enough w fuel :
  (Z.to_nat max_retries < fuel)%nat ->
  generate_single_key_fuel fuel w init = generate_single_key w init.
Proof.
  intros Hfuel. unfold generate_single_key, generate_single_key_fuel, bind.
  destruct (get_base_keys w init) as [[bk | e | c | ] s0]; try reflexivity.
  unfold assign_retry_count.
  destruct (retry_loop (S (Z.to_nat max_retries)) bk w (set_retry_count 0 s0))
    as [r s1] eqn:E.
  apply retry_loop_more_fuel with (fuel := S (Z.to_nat max_retries));
    [exact E | | lia].
  apply retry_loop_run in E; [| cbn; lia].
  destruct E as (tr & _ & Hrun). apply loop_run_result in Hrun.
  intros ->. exact Hrun.
Qed.

(** [main] always ends, with one of three exit statuses. *)
Lemma main_exit_status w :
  In (exit_status (fst (main w init))) [Some 0; Some 1; Some 130].
Proof.
  destruct (main w init) as [r s] eqn:E. apply main_of_gsk in E.
  destruct E as (r0 & s0 & E & -> & _). apply gsk_result in E.
  destruct r0 as [v | e | c | ]; cbn; try contradiction; subst; auto.
Qed.

(** ** Observations distribute over concatenation and vanish on requests *)

Lemma lines_app ch a b : lines ch (a ++ b) = lines ch a ++ lines ch b.
Proof.
  induction a as [| ev a IH]; [reflexivity|].
  cbn [app lines]. destruct (printed ch ev); cbn [app]; now rewrite IH.
Qed.

Lemma control_app a b : control (a ++ b) = control a ++ control b.
Proof. apply filter_app. Qed.

Lemma interrupted_app a b : interrupted (a ++ b) = interrupted a || interrupted b.
Proof. apply existsb_app. Qed.

Lemma interrupted_cons ev tr :
  interrupted (ev :: tr) = interrupted_ev ev || interrupted tr.
Proof. reflexivity. Qed.

Lemma failures_app a b : failures (a ++ b) = failures a ++ failures b.
Proof.
  induction a as [| ev a IH]; [reflexivity|].
  cbn [app failures]. destruct (failure_of ev); cbn [app]; now rewrite IH.
Qed.

Lemma requests_app a b : requests (a ++ b) = requests a ++ requests b.
Proof.
  induction a as [| ev a IH]; [reflexivity|].
  destruct ev; cbn [app requests]; now rewrite IH.
Qed.

Create Rewrite HintDb obs.
#[local] Hint Rewrite lines_app control_app interrupted_app interrupted_cons
  failures_app requests_app : obs.

Lemma io_lines bk evs ch : Forall (io_of bk) evs -> lines ch evs = [].
Proof.
  induction 1 as [| ev l Hev _ IH]; [reflexivity|].
  destruct ev; try contradiction; cbn [lines printed]; destruct ch; exact IH.
Qed.

Lemma io_control bk evs : Forall (io_of bk) evs -> control evs = [].
Proof.
  induction 1 as [| ev l Hev _ IH]; [reflexivity|].
  destruct ev; try contradiction; exact IH.
Qed.

Lemma io_failures bk evs : Forall (io_of bk) evs -> failures evs = [].
Proof.
  induction 1 as [| ev l Hev _ IH]; [reflexivity|].
  destruct ev; try contradiction; exact IH.
Qed.

Lemma io_after_last_open bk evs :
  Forall (io_of bk) evs -> forall acc, after_last_open acc evs = acc.
Proof.
  induction 1 as [| ev l Hev _ IH]; intros acc; [reflexivity|].
  destruct ev; try contradiction; apply IH.
Qed.

Lemma success_body_io bk d :
  Forall (io_of bk) (firstn 9 (success_body bk d)).
Proof. repeat constructor. Qed.

Lemma after_last_open_app acc pre c body :
  after_last_open body body = body ->
  (forall acc', after_last_open acc' body = acc') ->
  after_last_open acc (pre ++ EvOpen c :: body) = body.
Proof.
  intros _ Hbody. revert acc.
  induction pre as [| ev pre IH]; intros acc.
  - cbn. apply Hbody.
  - destruct ev; cbn [app after_last_open]; apply IH.
Qed.

Lemma last_attempt_success pre bk d :
  last_attempt (pre ++ EvOpen client_cfg :: success_body bk d ++ [EvClose])
  = success_body bk d ++ [EvClose].
Proof.
  unfold last_attempt. apply after_last_open_app; reflexivity.
Qed.

Lemma In_lines ch t tr : In (EvPrint ch t) tr -> In t (lines ch tr).
Proof.
  induction tr as [| ev tr IH]; [contradiction|].
  intros [-> | Hin].
  - destruct ch; left; reflexivity.
  - cbn [lines]. destruct (printed ch ev); [right|]; auto.
Qed.

(** ** What the loop leaves in the trace *)

Ltac iter_cases H :=
  inversion H; subst; clear H;
  repeat match goal with irq : bool |- _ => destruct irq end;
  try discriminate.

Section LoopTraces.

Variable bk : list pystr.

Lemma iter_run_stdout rc tr r rc' :
  iter_run bk rc tr r rc' ->
  lines Stdout tr = match r with Ok (Some v) => [[Fmt v]] | _ => [] end.
Proof.
  intros H; iter_cases H; cbn [lines printed];
    rewrite ?lines_app, ?(io_lines Stdout H0); unfold success_body;
    reflexivity.
Qed.

Lemma loop_run_stdout rc tr r rc' :
  loop_run bk rc tr r rc' ->
  lines Stdout tr = match r with Ok v => [[Fmt v]] | _ => [] end.
Proof.
  induction 1 as [rc Hlt | rc tr v rc' Hlt Hit | rc tr e rc' Hlt Hit
                 | rc tr rc1 tl r rc' Hlt Hit Hloop IH].
  - reflexivity.
  - apply (iter_run_stdout Hit).
  - apply (iter_run_stdout Hit).
  - rewrite lines_app, (iter_run_stdout Hit), IH. reflexivity.
Qed.

Lemma loop_run_success rc tr v rc' :
  loop_run bk rc tr (Ok v) rc' ->
  exists pre d,
    tr = pre ++ EvOpen client_cfg :: success_body bk d ++ [EvClose]
    /\ well_formed bk d /\ v = ad_final_license d.
Proof.
  intros H. remember (Ok v) as r eqn:Hr.
  induction H as [rc Hlt | rc tr v' rc' Hlt Hit | rc tr e rc' Hlt Hit
                 | rc tr rc1 tl r rc' Hlt Hit Hloop IH]; try discriminate.
  - injection Hr as ->. iter_cases Hit.
    exists [], d. auto.
  - destruct (IH Hr) as (pre & d & -> & Hwf & Hv).
    exists (tr ++ pre), d. rewrite <- app_assoc. auto.
Qed.

Lemma iter_run_interrupted rc tr r rc' :
  iter_run bk rc tr r rc' ->
  interrupted tr = match r with Raise _ => true | _ => false end.
Proof.
  intros H; iter_cases H;
    rewrite interrupted_cons, interrupted_app;
    try match goal with H : interrupted _ = _ |- _ => rewrite H end;
    reflexivity.
Qed.

Lemma loop_run_interrupted rc tr r rc' :
  loop_run bk rc tr r rc' ->
  interrupted tr = match r with Raise _ => true | _ => false end.
Proof.
  induction 1 as [rc Hlt | rc tr v rc' Hlt Hit | rc tr e rc' Hlt Hit
                 | rc tr rc1 tl r rc' Hlt Hit Hloop IH].
  - reflexivity.
  - apply (iter_run_interrupted Hit).
  - apply (iter_run_interrupted Hit).
  - rewrite interrupted_app, (iter_run_interrupted Hit), IH. reflexivity.
Qed.

Lemma io_pool_is evs : Forall (io_of bk) evs -> Forall (pool_is bk) evs.
Proof.
  apply Forall_impl. intros [] H; try contradiction; exact H.
Qed.

Lemma iter_run_pool rc tr r rc' :
  iter_run bk rc tr r rc' -> Forall (pool_is bk) tr.
Proof.
  intros H; inversion H; subst; clear H;
    constructor; try exact I; apply Forall_app; split;
    try (apply io_pool_is; assumption);
    repeat constructor.
Qed.

Lemma loop_run_pool rc tr r rc' :
  loop_run bk rc tr r rc' -> Forall (pool_is bk) tr.
Proof.
  induction 1 as [rc Hlt | rc tr v rc' Hlt Hit | rc tr e rc' Hlt Hit
                 | rc tr rc1 tl r rc' Hlt Hit Hloop IH].
  - repeat constructor.
  - apply (iter_run_pool Hit).
  - apply (iter_run_pool Hit).
  - apply Forall_app; split; [apply (iter_run_pool Hit) | exact IH].
Qed.

Lemma iter_run_counted rc tr r rc' :
  iter_run bk rc tr r rc' -> counted rc tr rc'.
Proof.
  unfold counted.
  intros H; inversion H; subst; clear H; cbn [failures failure_of];
    rewrite ?failures_app, ?(io_failures H0); unfold success_body;
    cbn [failures failure_of diagnostic retry_message app List.length];
    split; try lia; repeat constructor; assumption.
Qed.

Lemma loop_run_counted rc tr r rc' :
  loop_run bk rc tr r rc' -> counted rc tr rc'.
Proof.
  induction 1 as [rc Hlt | rc tr v rc' Hlt Hit | rc tr e rc' Hlt Hit
                 | rc tr rc1 tl r rc' Hlt Hit Hloop IH].
  - split; [cbn; lia | constructor].
  - apply (iter_run_counted Hit).
  - apply (iter_run_counted Hit).
  - destruct (iter_run_counted Hit) as (H1 & H2). destruct IH as (H3 & H4).
    unfold counted. autorewrite with obs. rewrite length_app. split.
    + lia.
    + apply Forall_app; auto.
Qed.

(** The exhaustion line is printed only when the loop gives up. *)
Lemma iter_run_not_failed rc tr r rc' :
  iter_run bk rc tr r rc' -> ~ In failed_message (lines Stderr tr).
Proof.
  intros H; inversion H; subst; clear H; cbn [lines printed];
    rewrite ?lines_app, ?(io_lines Stderr H0); unfold success_body;
    cbn [lines printed app diagnostic]; unfold failed_message, retry_message;
    intros Hin; repeat (destruct Hin as [Hin | Hin]; try discriminate);
    contradiction.
Qed.

Lemma loop_run_not_failed rc tr r rc' :
  loop_run bk rc tr r rc' ->
  (forall c, r <> Exit c) -> ~ In failed_message (lines Stderr tr).
Proof.
  induction 1 as [rc Hlt | rc tr v rc' Hlt Hit | rc tr e rc' Hlt Hit
                 | rc tr rc1 tl r rc' Hlt Hit Hloop IH]; intros Hr.
  - now contradiction (Hr 1).
  - apply (iter_run_not_failed Hit).
  - apply (iter_run_not_failed Hit).
  - rewrite lines_app. intros Hin. apply in_app_or in Hin. destruct Hin.
    + now apply (iter_run_not_failed Hit).
    + now apply IH.
Qed.

End LoopTraces.

(** ** Failing attempts, forward *)

Lemma raised_is_retried bk w s e s1 :
  attempt bk w s = (Raise e, s1) ->
  is_Exception e = true ->
  retried bk w s e.
Proof.
  intros E HE. pose proof (try_attempt_raise _ _ _ E HE) as Ht.
  pose proof (attempt_outcome _ _ _ E) as (evs & Htr & Hrc & Hio & _).
  rewrite on_error_eq in Ht. cbv zeta in Ht.
  assert (Hout : lines Stdout (trace s1) = lines Stdout (trace s)).
  { rewrite Htr, lines_app. cbn [lines printed].
    rewrite lines_app, (io_lines Stdout Hio). cbn. now rewrite app_nil_r. }
  assert (Herr : lines Stderr (trace s1) = lines Stderr (trace s)).
  { rewrite Htr, lines_app. cbn [lines printed].
    rewrite lines_app, (io_lines Stderr Hio). cbn. now rewrite app_nil_r. }
  unfold retried. exists s1.
  destruct (retry_count s1 + 1 <? max_retries);
    [destruct (ctrl_c w (n_sleep s1))|];
    (eexists; eexists; split; [exact E|]; split; [exact Ht|]);
    norm_trace; rewrite !lines_app, Hout, Herr, Hrc; cbn [lines printed];
    rewrite ?app_nil_r; auto.
Qed.

Lemma attempt_bad_status_A bk w s r :
  api w (n_api s) = ApiResp r ->
  is_success (status_code r) = false ->
  exists s1, attempt bk w s = (Raise (HTTPStatusError (status_code r)), s1).
Proof.
  intros A0 Hst. eexists. unfold_M_goal. fwd. reflexivity.
Qed.

Lemma attempt_bad_status_B bk w s d :
  api w (n_api s) = ApiResp (ad_reg1 d) ->
  registered_A d ->
  api w (1 + n_api s)%nat = ApiResp (ad_reg2 d) ->
  is_success (status_code (ad_reg2 d)) = false ->
  exists s1, attempt bk w s = (Raise (HTTPStatusError (status_code (ad_reg2 d))), s1).
Proof.
  intros A0 (? & ?%json_item_inv & (a & ?%json_item_inv & ?%item_inv)
             & ?%json_item_inv) A1 Hst.
  repeat match goal with H : exists _, _ |- _ => destruct H as (? & ? & ?) end;
  subst; same_dict.
  cbn [Nat.add] in *.
  eexists. unfold_M_goal. fwd. reflexivity.
Qed.

Lemma attempt_bad_status_info bk w s d :
  answers_until_info w s bk d ->
  registered d ->
  nth_error bk (ad_draw d) = Some (ad_base_key d) ->
  is_success (status_code (ad_info d)) = false ->
  exists s1, attempt bk w s = (Raise (HTTPStatusError (status_code (ad_info d))), s1).
Proof.
  intros (A0 & A1 & A2 & A3 & Ar & A4 & A5 & A6) Hreg Hnth Hst.
  open_registered Hreg.
  pose proof (nth_error_nonempty _ _ Hnth) as Hne.
  rewrite <- Ar in Hnth.
  cbn [Nat.add] in *.
  eexists. unfold_M_goal. fwd. reflexivity.
Qed.

Lemma attempt_missing_license bk w s d fields :
  answers_until_info w s bk d ->
  registered d ->
  nth_error bk (ad_draw d) = Some (ad_base_key d) ->
  is_success (status_code (ad_info d)) = true ->
  resp_json (ad_info d) = Some (PDict fields) ->
  dict_lookup (py "license") fields = None ->
  exists s1, attempt bk w s = (Raise (KeyError (py "license")), s1).
Proof.
  intros (A0 & A1 & A2 & A3 & Ar & A4 & A5 & A6) Hreg Hnth Hst Hjs Hlic.
  open_registered Hreg.
  pose proof (nth_error_nonempty _ _ Hnth) as Hne.
  rewrite <- Ar in Hnth.
  cbn [Nat.add] in *.
  destruct (dict_lookup (py "account_type") fields) eqn:Hat;
    destruct (dict_lookup (py "referral_count") fields) eqn:Hrc;
    eexists; unfold_M_goal; fwd; reflexivity.
Qed.

(** Everything went well up to the deletion of account A, and stdout does
    not take the license: the [print] of line 113 raises. *)
Lemma attempt_license_refused bk w s d fields :
  answers w s bk d ->
  registered d ->
  nth_error bk (ad_draw d) = Some (ad_base_key d) ->
  is_success (status_code (ad_info d)) = true ->
  resp_json (ad_info d) = Some (PDict fields) ->
  dict_lookup (py "license") fields = Some (ad_final_license d) ->
  stdout_accepts w [Fmt (ad_final_license d)] = false ->
  exists s1,
    attempt bk w s = (Raise UnicodeEncodeError, s1)
    /\ trace s1
       = trace s ++ EvOpen client_cfg :: firstn 9 (success_body bk d) ++ [EvClose].
Proof.
  intros ((A0 & A1 & A2 & A3 & Ar & A4 & A5 & A6) & A7) Hreg Hnth Hst Hjs Hlic Hacc.
  open_registered Hreg.
  pose proof (nth_error_nonempty _ _ Hnth) as Hne.
  rewrite <- Ar in Hnth.
  cbn [Nat.add] in *.
  destruct (dict_lookup (py "account_type") fields) eqn:Hat;
    destruct (dict_lookup (py "referral_count") fields) eqn:Hrc;
    (eexists; split; [unfold_M_goal; fwd; reflexivity|]);
    unfold success_body; cbn [firstn]; norm_trace; rewrite <- Ar; reflexivity.
Qed.

(** * Properties of the script *)

(** ** Seed-key pool *)

Lemma parse_keys_spec keys_str : parse_keys keys_str = spec_parse keys_str.
Proof.
  unfold parse_keys, spec_parse.
  induction (split comma keys_str) as [| k l IH]; [reflexivity|].
  cbn [filter map]. destruct (truthy (strip k)); cbn [map]; now rewrite IH.
Qed.

(** C6: when the fetch of the seed source succeeds (the call returns, the
    status is not an error, the body decodes as UTF-8), [get_base_keys]
    returns the body split on commas, each segment trimmed, the empty ones
    dropped, in order; equal segments are all kept, and the body
    ["K1, K2 ,K3"] gives [["K1"; "K2"; "K3"]]. *)
Theorem C6_pool_is_parsed_body :
  (forall w s st content keys_str,
      seed_source w (n_fetch s) = FetchResp st content ->
      (400 <=? st) && (st <? 600) = false ->
      bytes_decode_UTF8 content = Some keys_str ->
      fst (get_base_keys w s) = Ok (spec_parse keys_str))
  /\ option_map spec_parse (bytes_decode_UTF8 (list_byte_of_string "K1, K2 ,K3"))
     = Some [py "K1"; py "K2"; py "K3"]
  /\ spec_parse (py "B, A ,,A") = [py "B"; py "A"; py "A"].
Proof.
  split; [|split; reflexivity].
  intros w s st content keys_str Hsrc Hst Hdec.
  rewrite get_base_keys_eq. cbv zeta. rewrite Hsrc, Hst, Hdec.
  cbn [fst]. now rewrite parse_keys_spec.
Qed.

Lemma C6_witness :
  fst (get_base_keys w_k123 init) = Ok [py "K1"; py "K2"; py "K3"].
Proof.
  exact (proj1 C6_pool_is_parsed_body w_k123 init 200
           (list_byte_of_string "K1, K2 ,K3") (py "K1, K2 ,K3")
           eq_refl eq_refl eq_refl).
Defined.

(** The other branches of [get_base_keys]: the hard-coded list. *)
Lemma get_base_keys_fallback w s :
  match seed_source w (n_fetch s) with
  | FetchRaise e => is_Exception e = true
  | FetchResp st content =>
      (400 <=? st) && (st <? 600) = true \/ bytes_decode_UTF8 content = None
  end ->
  fst (get_base_keys w s) = Ok fallback_keys.
Proof.
  rewrite get_base_keys_eq. cbv zeta.
  destruct (seed_source w (n_fetch s)) as [st content | e].
  - intros [-> | Hdec]; [reflexivity|].
    destruct ((400 <=? st) && (st <? 600)); [reflexivity|]. now rewrite Hdec.
  - now intros ->.
Qed.

(** C4, at the failing input: the seed source answers 200 with an empty
    body.  [get_base_keys] returns the empty list, not the three fallback
    keys, and every attempt then dies in [random.choice] with [IndexError]:
    three attempts, exit status 1, nothing on stdout. *)
Theorem C4_empty_body_gives_empty_pool :
  fst (get_base_keys w_empty_body init) = Ok []
  /\ List.length fallback_keys = 3%nat
  /\ fst (run w_empty_body) = Exit 1
  /\ map snd (failures (trace (snd (run w_empty_body))))
     = [IndexError; IndexError; IndexError]
  /\ stdout (trace (snd (run w_empty_body))) = [].
Proof. repeat split; vm_compute; reflexivity. Qed.

(** ** Successful runs *)

Lemma final_account_info_app a b :
  final_account_info (a ++ b)
  = match final_account_info b with
    | Some r => Some r
    | None => final_account_info a
    end.
Proof.
  induction a as [| ev a IH]; cbn [app final_account_info].
  - now destruct (final_account_info b).
  - rewrite IH. now destruct (final_account_info b).
Qed.

(** A successful run ends with a complete attempt; nothing was printed on
    stdout before it. *)
Lemma main_success w s :
  main w init = (Ok tt, s) ->
  exists bk s0 pre d,
    get_base_keys w init = (Ok bk, s0)
    /\ trace s = pre ++ EvOpen client_cfg :: success_body bk d ++ [EvClose]
    /\ well_formed bk d
    /\ lines Stdout pre = []
    /\ retry_count s = Z.of_nat (List.length (failures pre)).
Proof.
  intros H. apply main_shape in H. destruct H as (r0 & tr & Hshape & Hr & Ht).
  inversion Hshape as [Hsrc | bk s0 tr' r0' rc E0 Hrun]; subst; [discriminate|].
  destruct r0 as [v | e | c | ]; try discriminate.
  pose proof (loop_run_stdout Hrun) as Hout.
  pose proof (loop_run_counted Hrun) as (Hcount & _).
  destruct (loop_run_success Hrun) as (pre & d & -> & Hwf & ->).
  exists bk, s0, (EvFetch base_keys_url 10 (seed_source w 0) :: pre), d.
  cbn [epilogue] in Ht. rewrite app_nil_r in Ht.
  rewrite lines_app in Hout. cbn [lines printed] in Hout.
  rewrite lines_app in Hout. unfold success_body in Hout at 1.
  cbn [lines printed app] in Hout.
  rewrite failures_app in Hcount. cbn [failures failure_of] in Hcount.
  rewrite failures_app in Hcount. unfold success_body in Hcount at 1.
  cbn [failures failure_of app] in Hcount.
  split; [exact E0|]. split; [exact Ht|]. split; [exact Hwf|]. split.
  - cbn [lines printed]. apply (f_equal (@List.length _)) in Hout.
    rewrite length_app in Hout.
    destruct (lines Stdout pre); [reflexivity | cbn in Hout; lia].
  - cbn [failures failure_of]. rewrite Hcount, app_nil_r. lia.
Qed.

(** C1, amended: in every run that succeeds ([main] returns, so that an
    attempt ran to its [return]), standard output is exactly one line, the
    [license] field of the response to the final GET; the account type and
    the data count are the last two lines of standard error. *)
Theorem C1_stdout_is_the_final_license w s :
  main w init = (Ok tt, s) ->
  exists info v account_type referral_count errs,
    final_account_info (trace s) = Some info
    /\ json_item info (py "license") = Some v
    /\ stdout (trace s) = [[Fmt v]]
    /\ (forall t, In (EvPrint Stdout t) (trace s) -> t = [Fmt v])
    /\ stderr (trace s)
       = errs ++ [ [Lit "Account Type: "; Fmt account_type];
                   [Lit "Data Count: "; Fmt referral_count; Lit " GB(s)"] ].
Proof.
  intros H. apply main_success in H.
  destruct H as (bk & s0 & pre & d & _ & Ht & Hwf & Hpre & _).
  destruct Hwf as (_ & _ & _ & _ & _ & Hlic).
  assert (Hout : stdout (trace s) = [[Fmt (ad_final_license d)]]).
  { unfold stdout. rewrite Ht, lines_app, Hpre. reflexivity. }
  exists (ad_info d), (ad_final_license d), (ad_account_type d),
    (ad_referral_count d), (lines Stderr pre).
  split; [|split; [|split; [|split]]].
  - rewrite Ht, final_account_info_app. reflexivity.
  - exact Hlic.
  - exact Hout.
  - intros t Hin. apply In_lines in Hin. fold (stdout (trace s)) in Hin.
    rewrite Hout in Hin. destruct Hin as [<- | []]. reflexivity.
  - unfold stderr. rewrite Ht, lines_app. reflexivity.
Qed.

Lemma C1_witness :
  exists info v account_type referral_count errs,
    final_account_info (trace (snd (run w_scenario))) = Some info
    /\ json_item info (py "license") = Some v
    /\ stdout (trace (snd (run w_scenario))) = [[Fmt v]]
    /\ (forall t, In (EvPrint Stdout t) (trace (snd (run w_scenario))) -> t = [Fmt v])
    /\ stderr (trace (snd (run w_scenario)))
       = errs ++ [ [Lit "Account Type: "; Fmt account_type];
                   [Lit "Data Count: "; Fmt referral_count; Lit " GB(s)"] ].
Proof.
  apply (@C1_stdout_is_the_final_license w_scenario (snd (run w_scenario))).
  vm_compute. reflexivity.
Defined.

(** C1 as stated fails: in [w_delete_fails] every attempt reaches the final
    GET, which answers 200 with a license, and then dies in the deletion of
    account A; nothing is ever printed on stdout. *)
Lemma C1_counterexample :
  ~ (forall info,
        final_account_info (trace (snd (run w_delete_fails))) = Some info ->
        exists v, json_item info (py "license") = Some v
                  /\ stdout (trace (snd (run w_delete_fails))) = [[Fmt v]]).
Proof.
  intros H.
  destruct (H (with_json 200 info_limited))
    as (v & _ & Hout).
  - vm_compute. reflexivity.
  - vm_compute in Hout. discriminate.
Qed.

Lemma step_success pre bk d k :
  step k (pre ++ EvOpen client_cfg :: success_body bk d ++ [EvClose])
  = nth_error (requests (success_body bk d)) k.
Proof.
  unfold step. rewrite last_attempt_success, requests_app. cbn [requests].
  now rewrite app_nil_r.
Qed.

(** C2, amended: in every run that succeeds, the second PUT of the last
    attempt sends the license read from account A's registration response,
    and the line on stdout is the [license] field of the response to the
    final GET, whatever the provider put there: it is the registration
    license exactly when the provider answers with it.  The script does not
    compare the two. *)
Theorem C2_restores_and_prints_what_it_reads w s :
  main w init = (Ok tt, s) ->
  exists rq_reg reg original rq_put o_put rq_get info final,
    step 0 (trace s) = Some (rq_reg, ApiResp reg)
    /\ registration_license reg = Some original
    /\ step 5 (trace s) = Some (rq_put, o_put)
    /\ rq_method rq_put = PUT
    /\ rq_json rq_put = license_body original
    /\ step 6 (trace s) = Some (rq_get, ApiResp info)
    /\ rq_method rq_get = GET
    /\ json_item info (py "license") = Some final
    /\ stdout (trace s) = [[Fmt final]]
    /\ (stdout (trace s) = [[Fmt original]]
        <-> json_item info (py "license") = Some original).
Proof.
  intros H. apply main_success in H.
  destruct H as (bk & s0 & pre & d & _ & Ht & Hwf & Hpre & _).
  destruct Hwf as (((_ & _ & (a & Ha & Hlic) & _) & _) & _ & _ & _ & _ & Hfinal).
  assert (Hout : stdout (trace s) = [[Fmt (ad_final_license d)]]).
  { unfold stdout. rewrite Ht, lines_app, Hpre. reflexivity. }
  do 8 eexists.
  rewrite Ht, !step_success. cbn [success_body requests nth_error].
  split; [reflexivity|]. split.
  { unfold registration_license. rewrite Ha. exact Hlic. }
  split; [reflexivity|]. split; [reflexivity|]. split; [reflexivity|].
  split; [reflexivity|]. split; [reflexivity|]. split; [exact Hfinal|].
  rewrite <- Ht, Hout. split; [reflexivity|].
  rewrite Hfinal. split; intros [= E]; now rewrite E.
Qed.

Lemma C2_witness :
  exists rq_reg reg original rq_put o_put rq_get info final,
    step 0 (trace (snd (run w_scenario))) = Some (rq_reg, ApiResp reg)
    /\ registration_license reg = Some original
    /\ step 5 (trace (snd (run w_scenario))) = Some (rq_put, o_put)
    /\ rq_method rq_put = PUT
    /\ rq_json rq_put = license_body original
    /\ step 6 (trace (snd (run w_scenario))) = Some (rq_get, ApiResp info)
    /\ rq_method rq_get = GET
    /\ json_item info (py "license") = Some final
    /\ stdout (trace (snd (run w_scenario))) = [[Fmt final]]
    /\ (stdout (trace (snd (run w_scenario))) = [[Fmt original]]
        <-> json_item info (py "license") = Some original).
Proof.
  apply (@C2_restores_and_prints_what_it_reads w_scenario (snd (run w_scenario))).
  vm_compute. reflexivity.
Defined.

(** C2 as stated fails: in [w_other_license] the run succeeds, account A
    was registered with the license LIC-ORIG, and the line printed is
    LIC-OTHER, the license of the final account info. *)
Lemma C2_counterexample :
  ~ (fst (run w_other_license) = Ok tt ->
     forall rq reg original final,
       step 0 (trace (snd (run w_other_license))) = Some (rq, ApiResp reg) ->
       registration_license reg = Some original ->
       stdout (trace (snd (run w_other_license))) = [[Fmt final]] ->
       final = original).
Proof.
  intros H.
  specialize (H eq_refl (mk_request POST [Lit "/reg"] [] None)
                (with_json 200 reg_A)
                (str "LIC-ORIG") (str "LIC-OTHER") eq_refl eq_refl eq_refl).
  vm_compute in H. discriminate.
Qed.

(** ** Seed selection *)

Lemma seeded_tail bk ev tr : seeded bk (ev :: tr) -> seeded bk tr.
Proof. destruct ev; cbn [seeded]; try tauto. Qed.

Lemma seeded_app bk a b : seeded bk a -> seeded bk b -> seeded bk (a ++ b).
Proof.
  intros Ha Hb. induction a as [| ev a IH]; [exact Hb|].
  pose proof (IH (@seeded_tail _ _ _ Ha)) as Hab.
  destruct ev; cbn [app seeded] in *; try exact Hab.
  destruct Ha as (Hp & (k & Hk & Hnext) & _).
  split; [exact Hp|]. split; [|exact Hab].
  exists k. split; [exact Hk|].
  destruct a as [| ev a]; [contradiction|]. exact Hnext.
Qed.

(** What [seeded] says of a draw, wherever it stands in the trace. *)
Lemma seeded_at bk pre : forall tr pool i post,
  seeded bk tr ->
  tr = pre ++ EvChoice pool i :: post ->
  pool = bk
  /\ exists k rq o post',
       nth_error bk i = Some k
       /\ post = EvRequest rq o :: post'
       /\ rq_method rq = PUT
       /\ rq_json rq = license_body (PStr k).
Proof.
  induction pre as [| ev pre IH]; intros tr pool i post Hs ->.
  - cbn [app seeded] in Hs. destruct Hs as (Hp & (k & Hk & Hnext) & _).
    split; [exact Hp|].
    destruct post as [| [] post']; try contradiction.
    destruct Hnext as (Hm & Hj). exists k, rq, o, post'. auto.
  - apply seeded_tail in Hs. eapply IH; [exact Hs | reflexivity].
Qed.

Lemma random_choice_total pool w s :
  pool <> [] ->
  exists k,
    random_choice pool w s
    = (Ok k, log (EvChoice pool (rng w (n_rng s) mod List.length pool)) (tick_rng s))
    /\ nth_error pool (rng w (n_rng s) mod List.length pool) = Some k.
Proof.
  intros Hne. unfold random_choice.
  destruct (Nat.eqb (List.length pool) 0) eqn:Hlen.
  - apply Nat.eqb_eq in Hlen. destruct pool; [contradiction | discriminate].
  - cbv zeta. apply Nat.eqb_neq in Hlen.
    destruct (nth_error pool (rng w (n_rng s) mod List.length pool)) as [k |] eqn:E.
    + exists k. auto.
    + apply nth_error_None in E.
      pose proof (Nat.mod_upper_bound (rng w (n_rng s)) _ Hlen). lia.
Qed.

Lemma attempt_seeded bk w s r s' :
  attempt bk w s = (r, s') ->
  exists evs, trace s' = trace s ++ evs /\ seeded bk evs.
Proof.
  intros H. unfold_M H.
  repeat (destr_in H; cbv beta iota in H); inj_pair H;
    norm_trace; (eexists; split; [reflexivity|]);
    cbn [seeded]; try exact I.
  all: try (split; [reflexivity|]; split; [|exact I];
            eexists; split; [eassumption|]; split; reflexivity).
  all: exfalso;
    match goal with
    | Hn : nth_error _ _ = None, Hl : Nat.eqb _ 0 = false |- _ =>
        cbn [n_rng n_api log tick_api tick_rng] in Hn;
        apply nth_error_None in Hn; apply Nat.eqb_neq in Hl;
        pose proof (Nat.mod_upper_bound (rng w (n_rng s)) _ Hl); lia
    end.
Qed.

(** What holds of the events of every attempt, of a line on stderr and of
    a sleep, and of two traces put end to end when it holds of each, holds
    of the events of the loop. *)
Lemma retry_loop_traces (Q : list event -> Prop) bk w :
  Q [] ->
  (forall a b, Q a -> Q b -> Q (a ++ b)) ->
  (forall s r s', attempt bk w s = (r, s') ->
                  exists evs, trace s' = trace s ++ evs /\ Q evs) ->
  (forall t, Q [EvPrint Stderr t]) ->
  (forall d irq, Q [EvSleep d irq]) ->
  forall fuel s r s',
    retry_loop fuel bk w s = (r, s') ->
    exists tr, trace s' = trace s ++ tr /\ Q tr.
Proof.
  intros Hnil Happ Hatt Hprint Hsleep.
  induction fuel as [| fuel IH]; intros s r s' H.
  - cbn in H. inj_pair H. exists []. now rewrite app_nil_r.
  - cbn [retry_loop] in H. unfold bind, get_retry_count in H.
    destruct (retry_count s <? max_retries).
    + destruct (try_attempt bk w s) as [r0 s1] eqn:E.
      assert (Hone : exists tr, trace s1 = trace s ++ tr /\ Q tr).
      { apply try_attempt_extends in E.
        destruct E as (ra & sa & tail & E & Ht & Htail).
        apply Hatt in E. destruct E as (evs & Hevs & HQ).
        exists (evs ++ tail). rewrite Ht, Hevs, app_assoc. split; [reflexivity|].
        apply Happ; [exact HQ|].
        destruct Htail as [-> | (e & _ & [-> | (irq & ->)])]; unfold diagnostic.
        - exact Hnil.
        - apply Hprint.
        - apply (Happ [_] [_]); [apply Hprint | apply Hsleep]. }
      destruct Hone as (tr & Ht & HQ).
      destruct r0 as [[v |] | e | c | ]; try (inj_pair H; eauto).
      * unfold ret in H. inj_pair H. eauto.
      * apply IH in H. destruct H as (tl & Ht' & HQ').
        exists (tr ++ tl). rewrite Ht', Ht, app_assoc. split; [reflexivity|].
        apply Happ; assumption.
    + unfold print, sys_exit in H. inj_pair H. norm_trace.
      eexists; split; [reflexivity|]. apply Hprint.
Qed.

Lemma main_seeded w r s bk s0 :
  main w init = (r, s) ->
  get_base_keys w init = (Ok bk, s0) ->
  seeded bk (trace s).
Proof.
  intros E E0. apply main_of_gsk in E. destruct E as (r0 & sg & E & _ & Ht & _).
  rewrite Ht. apply seeded_app; [|destruct r0; exact I].
  revert E. unfold generate_single_key, generate_single_key_fuel, bind.
  rewrite E0.
  pose proof (get_base_keys_outcome _ _ E0) as (Ht0 & _ & _).
  cbn [trace init app] in Ht0.
  unfold assign_retry_count. intros E1.
  apply (@retry_loop_traces (seeded bk)) in E1.
  - destruct E1 as (tr & Ht1 & HQ). cbn [set_retry_count trace] in Ht1.
    rewrite Ht1, Ht0. exact HQ.
  - exact I.
  - apply seeded_app.
  - intros sa ra sa'. apply attempt_seeded.
  - intros t. exact I.
  - intros d irq. exact I.
Qed.

(** C8: [random.choice] returns a key on every pool that is not empty: the
    one at the index the generator gives, modulo the length; every key of
    the pool is returned for some output of the generator, and the single
    key of a one-element pool for every output.  In every run, whether it
    succeeds or not, every draw of every attempt is from the pool that
    [get_base_keys] returned, and the request that follows it is the PUT
    that carries the key drawn; in a run that succeeds, the key sent by the
    first PUT of the last attempt is an element of that pool, hence its
    single element when it has one. *)
Theorem C8_seed_is_drawn_from_the_pool :
  (forall pool w s k s', random_choice pool w s = (Ok k, s') -> In k pool)
  /\ (forall pool w s,
        pool <> [] ->
        exists k,
          random_choice pool w s
          = (Ok k,
             log (EvChoice pool (rng w (n_rng s) mod List.length pool)) (tick_rng s))
          /\ nth_error pool (rng w (n_rng s) mod List.length pool) = Some k
          /\ In k pool)
  /\ (forall pool k,
        In k pool ->
        exists i, forall w s,
          rng w (n_rng s) = i -> fst (random_choice pool w s) = Ok k)
  /\ (forall x w s, fst (random_choice [x] w s) = Ok x)
  /\ (forall w r s pre pool i post,
        main w init = (r, s) ->
        trace s = pre ++ EvChoice pool i :: post ->
        exists s0 k rq o post',
          get_base_keys w init = (Ok pool, s0)
          /\ nth_error pool i = Some k
          /\ In k pool
          /\ post = EvRequest rq o :: post'
          /\ rq_method rq = PUT
          /\ rq_json rq = license_body (PStr k)
          /\ (forall x, pool = [x] -> k = x))
  /\ (forall w s,
        main w init = (Ok tt, s) ->
        exists bk s0 rq o k,
          get_base_keys w init = (Ok bk, s0)
          /\ step 4 (trace s) = Some (rq, o)
          /\ rq_method rq = PUT
          /\ rq_json rq = license_body (PStr k)
          /\ In k bk
          /\ (forall x, bk = [x] -> k = x)).
Proof.
  split; [|split; [|split; [|split; [|split]]]].
  - intros pool w s k s'. unfold random_choice.
    destruct (Nat.eqb (List.length pool) 0); [discriminate|]. cbv zeta.
    destruct (nth_error pool _) eqn:E; [|discriminate].
    intros [= <- _]. eapply nth_error_In; eauto.
  - intros pool w s Hne.
    destruct (@random_choice_total pool w s Hne) as (k & E & Hk).
    exists k. split; [exact E|]. split; [exact Hk|].
    eapply nth_error_In; eauto.
  - intros pool k Hin. apply In_nth_error in Hin. destruct Hin as (i & Hi).
    exists i. intros w s Hrng.
    assert (Hlt : (i < List.length pool)%nat)
      by (apply nth_error_Some; rewrite Hi; discriminate).
    assert (Hne : pool <> []) by (intros ->; destruct i; discriminate).
    destruct (@random_choice_total pool w s Hne) as (k' & E & Hk').
    rewrite Hrng, Nat.mod_small in Hk' by exact Hlt.
    rewrite E. cbn [fst]. congruence.
  - intros x w s. unfold random_choice. cbn [List.length Nat.eqb]. cbv zeta.
    rewrite Nat.mod_1_r. reflexivity.
  - intros w r s pre pool i post H Ht.
    destruct (get_base_keys w init) as [rk s0] eqn:E0.
    destruct rk as [bk | e | c | ].
    + pose proof (@main_seeded _ _ _ _ _ H E0) as Hs.
      destruct (@seeded_at bk pre _ _ _ _ Hs Ht) as (-> & k & rq & o & post' & Hk & Hp & Hm & Hj).
      exists s0, k, rq, o, post'.
      split; [reflexivity|]. split; [exact Hk|].
      pose proof (nth_error_In _ _ Hk) as Hin.
      repeat split; auto.
      intros x ->. destruct Hin as [<- | []]. reflexivity.
    + exfalso. apply main_shape in H. destruct H as (r0 & tr & Hshape & _ & Ht').
      inversion Hshape as [Hsrc | bk s1 tr' r0' rc E1 Hrun]; subst; [|congruence].
      rewrite Ht' in Ht. cbn [epilogue app] in Ht.
      destruct pre as [| ? [| ? [| ? ?]]]; discriminate.
    + exfalso. apply get_base_keys_outcome in E0. now destruct E0 as (_ & _ & []).
    + exfalso. apply get_base_keys_outcome in E0. now destruct E0 as (_ & _ & []).
  - intros w s H. apply main_success in H.
    destruct H as (bk & s0 & pre & d & E0 & Ht & Hwf & _).
    destruct Hwf as (_ & Hnth & _).
    exists bk, s0. do 2 eexists. exists (ad_base_key d).
    rewrite Ht, step_success. cbn [success_body requests nth_error].
    split; [exact E0|]. split; [reflexivity|]. split; [reflexivity|].
    split; [reflexivity|].
    apply nth_error_In in Hnth. split; [exact Hnth|].
    intros x ->. destruct Hnth as [<- | []]. reflexivity.
Qed.

Lemma C8_witness :
  In (py "SEED-1") [py "SEED-1"]
  /\ (exists k,
        random_choice [py "K1"; py "K2"; py "K3"] w_k123 (loop_start w_k123)
        = (Ok k,
           log (EvChoice [py "K1"; py "K2"; py "K3"]
                  (rng w_k123 (n_rng (loop_start w_k123))
                   mod List.length [py "K1"; py "K2"; py "K3"]))
             (tick_rng (loop_start w_k123)))
        /\ nth_error [py "K1"; py "K2"; py "K3"]
             (rng w_k123 (n_rng (loop_start w_k123))
              mod List.length [py "K1"; py "K2"; py "K3"]) = Some k
        /\ In k [py "K1"; py "K2"; py "K3"])
  /\ (exists i, forall w s,
        rng w (n_rng s) = i ->
        fst (random_choice [py "K1"; py "K2"; py "K3"] w s) = Ok (py "K3"))
  /\ (exists s0 k rq o post',
        get_base_keys w_k123_delete_fails init = (Ok [py "K1"; py "K2"; py "K3"], s0)
        /\ nth_error [py "K1"; py "K2"; py "K3"] 1 = Some k
        /\ In k [py "K1"; py "K2"; py "K3"]
        /\ skipn 20 (trace (snd (run w_k123_delete_fails))) = EvRequest rq o :: post'
        /\ rq_method rq = PUT
        /\ rq_json rq = license_body (PStr k)
        /\ (forall x, [py "K1"; py "K2"; py "K3"] = [x] -> k = x))
  /\ exists bk s0 rq o k,
       get_base_keys w_scenario init = (Ok bk, s0)
       /\ step 4 (trace (snd (run w_scenario))) = Some (rq, o)
       /\ rq_method rq = PUT
       /\ rq_json rq = license_body (PStr k)
       /\ In k bk
       /\ (forall x, bk = [x] -> k = x).
Proof.
  split; [|split; [|split; [|split]]].
  - apply (proj1 C8_seed_is_drawn_from_the_pool [py "SEED-1"] w_scenario init
             (py "SEED-1")
             (snd (random_choice [py "SEED-1"] w_scenario init))).
    vm_compute. reflexivity.
  - apply (proj1 (proj2 C8_seed_is_drawn_from_the_pool)
             [py "K1"; py "K2"; py "K3"] w_k123 (loop_start w_k123)).
    discriminate.
  - apply (proj1 (proj2 (proj2 C8_seed_is_drawn_from_the_pool))
             [py "K1"; py "K2"; py "K3"] (py "K3")).
    cbn [In]. right. right. left. reflexivity.
  - apply (proj1 (proj2 (proj2 (proj2 (proj2 C8_seed_is_drawn_from_the_pool))))
             w_k123_delete_fails (fst (run w_k123_delete_fails))
             (snd (run w_k123_delete_fails))
             (firstn 19 (trace (snd (run w_k123_delete_fails))))
             [py "K1"; py "K2"; py "K3"] 1%nat
             (skipn 20 (trace (snd (run w_k123_delete_fails))))).
    + vm_compute. reflexivity.
    + vm_compute. reflexivity.
  - apply (proj2 (proj2 (proj2 (proj2 (proj2 C8_seed_is_drawn_from_the_pool))))
             w_scenario (snd (run w_scenario))).
    vm_compute. reflexivity.
Defined.

(** C9: the seed source is fetched once, before anything else; no later
    event of the run is a fetch, and every draw of every attempt is from the
    list that this one call of [get_base_keys] returned. *)
Theorem C9_pool_is_fetched_once w r s :
  main w init = (r, s) ->
  exists rest,
    trace s = EvFetch base_keys_url 10 (seed_source w 0) :: rest
    /\ (forall url t o, ~ In (EvFetch url t o) rest)
    /\ (forall bk s0 pool i,
          get_base_keys w init = (Ok bk, s0) ->
          In (EvChoice pool i) rest -> pool = bk).
Proof.
  intros H. apply main_shape in H. destruct H as (r0 & tr & Hshape & Hr & Ht).
  inversion Hshape as [Hsrc | bk s0 tr' r0' rc E0 Hrun]; subst.
  - exists [EvPrint Stderr cancelled_message]. rewrite Ht, Hsrc.
    split; [reflexivity|]. split.
    + intros url t o [Hin | []]; discriminate.
    + intros bk s0 pool i _ [Hin | []]; discriminate.
  - exists (tr' ++ epilogue r0). rewrite Ht. split; [reflexivity|].
    assert (Hall : Forall (pool_is bk) (tr' ++ epilogue r0)).
    { apply Forall_app; split; [apply (loop_run_pool Hrun)|].
      destruct r0; repeat constructor. }
    rewrite Forall_forall in Hall. split.
    + intros url t o Hin. exact (Hall _ Hin).
    + intros bk' s0' pool i E0' Hin. rewrite E0 in E0'. injection E0' as <- _.
      exact (Hall _ Hin).
Qed.

Lemma C9_witness :
  exists rest,
    trace (snd (run w_delete_fails))
    = EvFetch base_keys_url 10 (seed_source w_delete_fails 0) :: rest
    /\ (forall url t o, ~ In (EvFetch url t o) rest)
    /\ (forall bk s0 pool i,
          get_base_keys w_delete_fails init = (Ok bk, s0) ->
          In (EvChoice pool i) rest -> pool = bk).
Proof.
  apply (@C9_pool_is_fetched_once w_delete_fails (fst (run w_delete_fails))
           (snd (run w_delete_fails))).
  vm_compute. reflexivity.
Defined.

(** ** Exhaustion of the retries *)

Lemma iter_run_handled bk rc tr rc1 :
  iter_run bk rc tr (Ok None) rc1 ->
  exists e,
    is_Exception e = true /\ rc1 = rc + 1
    /\ control tr
       = EvOpen client_cfg :: EvClose :: diagnostic (rc + 1) e
         :: (if rc + 1 <? max_retries then [EvSleep (retry_delay e) false] else []).
Proof.
  intros H; iter_cases H; exists e; (split; [assumption|]); (split; [reflexivity|]);
    unfold control; cbn [filter is_io negb]; rewrite filter_app;
    fold (control evs);
    match goal with H : Forall (io_of _) _ |- _ => rewrite (io_control H) end;
    match goal with H : (_ <? _) = _ |- _ => rewrite H end; reflexivity.
Qed.

Ltac next_round H :=
  let Hlt := fresh "Hlt" in
  let Hit' := fresh "Hit" in
  let Hloop' := fresh "Hloop" in
  inversion H as [? Hlt | | | ? ? ? ? ? ? Hlt Hit' Hloop']; subst; clear H;
  try (vm_compute in Hlt; discriminate); try clear Hlt;
  try rename Hit' into Hit; try rename Hloop' into Hloop.

Lemma loop_run_exhausted bk tr c rc' :
  loop_run bk 0 tr (Exit c) rc' ->
  exists e1 e2 e3,
    is_Exception e1 = true /\ is_Exception e2 = true /\ is_Exception e3 = true
    /\ rc' = 3
    /\ control tr
       = [ EvOpen client_cfg; EvClose; diagnostic 1 e1; EvSleep (retry_delay e1) false;
           EvOpen client_cfg; EvClose; diagnostic 2 e2; EvSleep (retry_delay e2) false;
           EvOpen client_cfg; EvClose; diagnostic 3 e3;
           EvPrint Stderr failed_message ].
Proof.
  intros H.
  next_round H. apply iter_run_handled in Hit. destruct Hit as (e1 & He1 & -> & Hc1).
  change (0 + 1) with 1 in *.
  next_round Hloop. apply iter_run_handled in Hit. destruct Hit as (e2 & He2 & -> & Hc2).
  change (1 + 1) with 2 in *.
  next_round Hloop. apply iter_run_handled in Hit. destruct Hit as (e3 & He3 & -> & Hc3).
  change (2 + 1) with 3 in *.
  next_round Hloop.
  exists e1, e2, e3. repeat (split; [assumption || reflexivity|]).
  rewrite !control_app, Hc1, Hc2, Hc3. reflexivity.
Qed.

Lemma control_lines ch tr : lines ch (control tr) = lines ch tr.
Proof.
  induction tr as [| ev tr IH]; [reflexivity|].
  destruct ev; cbn [control filter is_io negb lines printed];
    fold (control tr); rewrite ?IH; reflexivity.
Qed.

(** C3: when the run neither succeeds nor is interrupted, it exits with
    status 1 after exactly three attempts: three client blocks, each
    followed by its diagnostic, a sleep after the first and after the second
    (5 seconds after an HTTP-status or a transport error, 10 seconds
    otherwise), none after the third, then the final failure line; nothing
    is printed on stdout. *)
Theorem C3_three_attempts_then_exit_1 w r s :
  main w init = (r, s) ->
  r <> Ok tt ->
  interrupted (trace s) = false ->
  r = Exit 1
  /\ exit_status r = Some 1
  /\ stdout (trace s) = []
  /\ exists e1 e2 e3,
       control (trace s)
       = [ EvFetch base_keys_url 10 (seed_source w 0);
           EvOpen client_cfg; EvClose; diagnostic 1 e1; EvSleep (retry_delay e1) false;
           EvOpen client_cfg; EvClose; diagnostic 2 e2; EvSleep (retry_delay e2) false;
           EvOpen client_cfg; EvClose; diagnostic 3 e3;
           EvPrint Stderr failed_message ]
       /\ forall e, In e [e1; e2; e3] ->
            is_Exception e = true
            /\ retry_delay e
               = if is_HTTPStatusError e || is_RequestError e then 5 else 10.
Proof.
  intros H Hnot Hint. apply main_shape in H.
  destruct H as (r0 & tr & Hshape & -> & Ht).
  inversion Hshape as [Hsrc | bk s0 tr' r0' rc E0 Hrun]; subst.
  - rewrite Ht in Hint. discriminate.
  - pose proof (loop_run_interrupted Hrun) as Hi.
    pose proof (loop_run_result Hrun) as Hres.
    destruct r0 as [v | e | c | ]; try contradiction.
    + rewrite Ht, interrupted_app, interrupted_cons, Hi in Hint.
      rewrite orb_true_r, orb_true_l in Hint. discriminate.
    + subst c. cbn [epilogue] in Ht. rewrite app_nil_r in Ht.
      apply loop_run_exhausted in Hrun.
      destruct Hrun as (e1 & e2 & e3 & He1 & He2 & He3 & _ & Hc).
      assert (Hctl : control (trace s)
                     = EvFetch base_keys_url 10 (seed_source w 0) :: control tr').
      { rewrite Ht. reflexivity. }
      split; [reflexivity|]. split; [reflexivity|]. split.
      * unfold stdout. rewrite <- control_lines, Hctl, Hc. reflexivity.
      * exists e1, e2, e3. rewrite Hctl, Hc. split; [reflexivity|].
        intros e [<- | [<- | [<- | []]]]; (split; [assumption|]);
          unfold retry_delay; destruct (is_HTTPStatusError _); try reflexivity;
          destruct (is_RequestError _); reflexivity.
Qed.

Lemma C3_witness :
  fst (run w_down) = Exit 1
  /\ exit_status (fst (run w_down)) = Some 1
  /\ stdout (trace (snd (run w_down))) = []
  /\ exists e1 e2 e3,
       control (trace (snd (run w_down)))
       = [ EvFetch base_keys_url 10 (seed_source w_down 0);
           EvOpen client_cfg; EvClose; diagnostic 1 e1; EvSleep (retry_delay e1) false;
           EvOpen client_cfg; EvClose; diagnostic 2 e2; EvSleep (retry_delay e2) false;
           EvOpen client_cfg; EvClose; diagnostic 3 e3;
           EvPrint Stderr failed_message ]
       /\ forall e, In e [e1; e2; e3] ->
            is_Exception e = true
            /\ retry_delay e
               = if is_HTTPStatusError e || is_RequestError e then 5 else 10.
Proof.
  apply (@C3_three_attempts_then_exit_1 w_down (fst (run w_down)) (snd (run w_down))).
  - vm_compute. reflexivity.
  - vm_compute. discriminate.
  - vm_compute. reflexivity.
Defined.

(** ** Interruption by the operator *)

(** C7: if the operator's Ctrl-C shows up anywhere in the run (in the fetch
    of the seed keys, in a request, in a sleep between attempts), nothing
    inside [generate_single_key] catches it: that function ends by raising
    [KeyboardInterrupt], [main] prints the cancellation line, which is not
    the exhaustion line, and exits with status 130.  The exhaustion line is
    not printed, stdout stays empty, and [retry_count] is the number of
    diagnostics printed, each of them for an [Exception]: the interruption
    is not counted. *)
Theorem C7_interruption_exits_130 w r s :
  main w init = (r, s) ->
  interrupted (trace s) = true ->
  r = Exit 130
  /\ exit_status r = Some 130
  /\ (exists s0, generate_single_key w init = (Raise KeyboardInterrupt, s0)
                 /\ trace s = trace s0 ++ [EvPrint Stderr cancelled_message])
  /\ cancelled_message <> failed_message
  /\ ~ In failed_message (stderr (trace s))
  /\ stdout (trace s) = []
  /\ retry_count s = Z.of_nat (List.length (failures (trace s)))
  /\ Forall (fun f => is_Exception (snd f) = true) (failures (trace s)).
Proof.
  intros H Hint. apply main_of_gsk in H.
  destruct H as (r0 & s0 & E & -> & Ht & Hrc).
  pose proof (gsk_shape_of_run _ E) as Hshape.
  assert (Hr0 : r0 = Raise KeyboardInterrupt).
  { inversion Hshape as [Hsrc | bk s1 tr' r0' rc E0 Hrun]; subst; [reflexivity|].
    pose proof (loop_run_interrupted Hrun) as Hi.
    pose proof (loop_run_result Hrun) as Hres.
    pose proof (get_base_keys_outcome _ _ E0) as (_ & _ & Hfetch).
    cbn [n_fetch init] in Hfetch.
    rewrite Ht, <- H in Hint. autorewrite with obs in Hint.
    rewrite Hfetch, Hi in Hint.
    destruct r0 as [v | e | c | ]; try discriminate; try contradiction.
    now subst e. }
  subst r0. cbn [epilogue outcome] in *.
  split; [reflexivity|]. split; [reflexivity|].
  split; [exists s0; auto|].
  split; [discriminate|].
  unfold stderr, stdout. rewrite Ht, Hrc. autorewrite with obs.
  cbn [lines printed failures failure_of cancelled_message].
  rewrite !app_nil_r.
  inversion Hshape as [Hsrc | bk s1 tr' r0' rc E0 Hrun]; subst.
  - cbn. repeat split; try constructor.
    intros [Hin | []]. discriminate.
  - cbn [lines printed failures failure_of].
    pose proof (loop_run_stdout Hrun) as Hout. cbn in Hout.
    pose proof (loop_run_counted Hrun) as (Hcount & Hexn).
    assert (Hnf : ~ In failed_message (lines Stderr tr'))
      by (apply (loop_run_not_failed Hrun); discriminate).
    split; [|split; [exact Hout | split; [lia | exact Hexn]]].
    intros Hin. apply in_app_or in Hin. destruct Hin as [Hin | [Hin | []]].
    + now apply Hnf.
    + discriminate.
Qed.

Lemma C7_witness :
  fst (run w_ctrl_c) = Exit 130
  /\ exit_status (fst (run w_ctrl_c)) = Some 130
  /\ (exists s0, generate_single_key w_ctrl_c init = (Raise KeyboardInterrupt, s0)
                 /\ trace (snd (run w_ctrl_c))
                    = trace s0 ++ [EvPrint Stderr cancelled_message])
  /\ cancelled_message <> failed_message
  /\ ~ In failed_message (stderr (trace (snd (run w_ctrl_c))))
  /\ stdout (trace (snd (run w_ctrl_c))) = []
  /\ retry_count (snd (run w_ctrl_c))
     = Z.of_nat (List.length (failures (trace (snd (run w_ctrl_c)))))
  /\ Forall (fun f => is_Exception (snd f) = true)
       (failures (trace (snd (run w_ctrl_c)))).
Proof.
  apply (@C7_interruption_exits_130 w_ctrl_c (fst (run w_ctrl_c)) (snd (run w_ctrl_c))).
  - vm_compute. reflexivity.
  - vm_compute. reflexivity.
Defined.

(** ** Status checks and missing fields *)

(** C5, amended: the status is checked on the two registration POSTs and on
    the final GET only.  A completed response with a status outside 2xx to
    one of these three requests raises [HTTPStatusError], which ends the
    attempt and is taken by the first [except] clause: the counter goes up
    by one.  The responses to the PATCH, to the two PUTs and to the two
    DELETEs are not looked at: whatever their status, the attempt goes on
    through its eight requests when the three checked responses are good;
    it then returns when stdout takes the license, and when stdout refuses
    it the attempt ends with the [UnicodeEncodeError] of the [print], which
    is no HTTP-status failure. *)
Theorem C5_status_checked_on_post_and_get :
  (forall bk w s r,
      api w (n_api s) = ApiResp r ->
      is_success (status_code r) = false ->
      retried bk w s (HTTPStatusError (status_code r)))
  /\ (forall bk w s d,
        api w (n_api s) = ApiResp (ad_reg1 d) ->
        registered_A d ->
        api w (1 + n_api s)%nat = ApiResp (ad_reg2 d) ->
        is_success (status_code (ad_reg2 d)) = false ->
        retried bk w s (HTTPStatusError (status_code (ad_reg2 d))))
  /\ (forall bk w s d,
        answers_until_info w s bk d ->
        registered d ->
        nth_error bk (ad_draw d) = Some (ad_base_key d) ->
        is_success (status_code (ad_info d)) = false ->
        retried bk w s (HTTPStatusError (status_code (ad_info d))))
  /\ (forall bk w s d,
        answers w s bk d ->
        well_formed bk d ->
        stdout_accepts w [Fmt (ad_final_license d)] = true ->
        exists s',
          try_attempt bk w s = (Ok (Some (ad_final_license d)), s')
          /\ retry_count s' = retry_count s
          /\ trace s'
             = trace s ++ EvOpen client_cfg :: success_body bk d ++ [EvClose])
  /\ (forall bk w s d,
        answers w s bk d ->
        well_formed bk d ->
        stdout_accepts w [Fmt (ad_final_license d)] = false ->
        retried bk w s UnicodeEncodeError
        /\ is_HTTPStatusError UnicodeEncodeError = false
        /\ exists s1,
             attempt bk w s = (Raise UnicodeEncodeError, s1)
             /\ trace s1
                = trace s ++ EvOpen client_cfg :: firstn 9 (success_body bk d)
                    ++ [EvClose]).
Proof.
  split; [|split; [|split; [|split]]].
  - intros bk w s r A0 Hst.
    destruct (attempt_bad_status_A bk _ _ A0 Hst) as (s1 & E).
    now apply (raised_is_retried _ _ _ E).
  - intros bk w s d A0 HA A1 Hst.
    destruct (attempt_bad_status_B bk _ _ A0 HA A1 Hst) as (s1 & E).
    now apply (raised_is_retried _ _ _ E).
  - intros bk w s d Hans Hreg Hnth Hst.
    destruct (attempt_bad_status_info Hans Hreg Hnth Hst) as (s1 & E).
    now apply (raised_is_retried _ _ _ E).
  - intros bk w s d Hans Hwf Hacc.
    destruct (attempt_complete Hans Hwf Hacc) as (s' & E & Ht & Hrc).
    exists s'. split; [now apply try_attempt_return | auto].
  - intros bk w s d Hans (Hreg & Hnth & Hinf) Hacc.
    destruct Hinf as (Hst & _ & _ & Hlic%json_item_inv).
    destruct Hlic as (fields & Hjs & Hlic).
    destruct (attempt_license_refused Hans Hreg Hnth Hst Hjs Hlic Hacc)
      as (s1 & E & Ht).
    split; [|split; [reflexivity|]].
    + now apply (raised_is_retried _ _ _ E).
    + exists s1. auto.
Qed.

Lemma C5_witness :
  retried [py "SEED-1"] w_reg_A_refused (loop_start w_reg_A_refused)
    (HTTPStatusError 503)
  /\ retried [py "SEED-1"] w_reg_B_refused (loop_start w_reg_B_refused)
       (HTTPStatusError 429)
  /\ retried [py "SEED-1"] w_info_refused (loop_start w_info_refused)
       (HTTPStatusError 500)
  /\ (exists s',
       try_attempt [py "SEED-1"] w_refused (loop_start w_refused)
       = (Ok (Some (str "LIC-ORIG")), s')
       /\ retry_count s' = retry_count (loop_start w_refused)
       /\ trace s'
          = trace (loop_start w_refused)
            ++ EvOpen client_cfg :: success_body [py "SEED-1"] d_refused ++ [EvClose])
  /\ retried [py "SEED-1"] w_unprintable (loop_start w_unprintable)
       UnicodeEncodeError
  /\ is_HTTPStatusError UnicodeEncodeError = false
  /\ exists s1,
       attempt [py "SEED-1"] w_unprintable (loop_start w_unprintable)
       = (Raise UnicodeEncodeError, s1)
       /\ trace s1
          = trace (loop_start w_unprintable)
            ++ EvOpen client_cfg :: firstn 9 (success_body [py "SEED-1"] d_unprintable)
            ++ [EvClose].
Proof.
  split; [|split; [|split; [|split]]].
  - apply (proj1 C5_status_checked_on_post_and_get [py "SEED-1"] w_reg_A_refused
             (loop_start w_reg_A_refused) (with_json 503 reg_A));
      reflexivity.
  - apply (proj1 (proj2 C5_status_checked_on_post_and_get) [py "SEED-1"]
             w_reg_B_refused (loop_start w_reg_B_refused) d_reg_B_refused);
      try reflexivity.
    repeat split; try reflexivity. eexists; split; reflexivity.
  - apply (proj1 (proj2 (proj2 C5_status_checked_on_post_and_get)) [py "SEED-1"]
             w_info_refused (loop_start w_info_refused) d_info_refused);
      try reflexivity.
    + repeat split; reflexivity.
    + repeat split; try reflexivity. eexists; split; reflexivity.
  - apply (proj1 (proj2 (proj2 (proj2 C5_status_checked_on_post_and_get)))
             [py "SEED-1"] w_refused (loop_start w_refused) d_refused).
    + repeat split; reflexivity.
    + repeat split; try reflexivity. eexists; split; reflexivity.
    + reflexivity.
  - apply (proj2 (proj2 (proj2 (proj2 C5_status_checked_on_post_and_get)))
             [py "SEED-1"] w_unprintable (loop_start w_unprintable) d_unprintable).
    + repeat split; reflexivity.
    + repeat split; try reflexivity. eexists; split; reflexivity.
    + reflexivity.
Defined.

(** C5 as stated fails: in [w_refused] the PATCH is answered 500, the
    DELETEs 403 and 500, the PUTs 400; these are completed responses with a
    non-success status, yet no attempt is aborted: the run succeeds at the
    first attempt and the counter stays at 0. *)
Lemma C5_counterexample :
  ~ (forall rq r,
        In (rq, ApiResp r) (requests (trace (snd (run w_refused)))) ->
        is_success (status_code r) = false ->
        1 <= retry_count (snd (run w_refused))
        /\ failures (trace (snd (run w_refused))) <> []).
Proof.
  intros H.
  destruct (H (mk_request PATCH (reg_path (str "A1")) (headers_post (str "T1"))
                 (Some (PDict [(py "referrer", str "B1")])))
              (no_json 500)) as (Hrc & _).
  - vm_compute. right; right; left. reflexivity.
  - reflexivity.
  - vm_compute in Hrc. apply Hrc. reflexivity.
Qed.

Lemma attempt_with_license bk w s d fields :
  answers w s bk d ->
  registered d ->
  nth_error bk (ad_draw d) = Some (ad_base_key d) ->
  is_success (status_code (ad_info d)) = true ->
  resp_json (ad_info d) = Some (PDict fields) ->
  dict_lookup (py "license") fields = Some (ad_final_license d) ->
  stdout_accepts w [Fmt (ad_final_license d)] = true ->
  exists s',
    attempt bk w s = (Ok (ad_final_license d), s')
    /\ retry_count s' = retry_count s
    /\ trace s'
       = trace s ++ EvOpen client_cfg :: firstn 9 (success_body bk d)
           ++ [ EvPrint Stdout [Fmt (ad_final_license d)];
                EvPrint Stderr
                  [ Lit "Account Type: ";
                    Fmt (match dict_lookup (py "account_type") fields with
                         | Some x => x
                         | None => PStr empty
                         end) ];
                EvPrint Stderr
                  [ Lit "Data Count: ";
                    Fmt (match dict_lookup (py "referral_count") fields with
                         | Some x => x
                         | None => PInt 0
                         end);
                    Lit " GB(s)" ];
                EvClose ].
Proof.
  intros ((A0 & A1 & A2 & A3 & Ar & A4 & A5 & A6) & A7) Hreg Hnth Hst Hjs Hlic Hacc.
  open_registered Hreg.
  pose proof (nth_error_nonempty _ _ Hnth) as Hne.
  rewrite <- Ar in Hnth.
  cbn [Nat.add] in *.
  destruct (dict_lookup (py "account_type") fields) eqn:Hat;
    destruct (dict_lookup (py "referral_count") fields) eqn:Hrc;
    (eexists; split; [unfold_M_goal; fwd; reflexivity|]);
    (split; [reflexivity|]);
    unfold success_body; cbn [firstn]; norm_trace; rewrite <- Ar; reflexivity.
Qed.

(** C10: when everything else in the attempt goes well (the eight requests
    are answered, the checked statuses are good, stdout takes the license)
    and the response to the final GET is a JSON object with a [license]
    field, the attempt returns that license whether or not the object has
    [account_type] and [referral_count]; the report on stderr shows the
    field when it is there, and the empty string, respectively 0, when it
    is not.  The two optional fields never decide the outcome: with the
    [license] field there, the only way left for the attempt to fail is
    that stdout refuses the license, and this with or without the optional
    fields.  When the object has no [license] field, the attempt ends with
    [KeyError], taken by the last [except] clause (an unexpected error, 10
    seconds): the counter goes up by one and the attempt prints nothing on
    stdout. *)
Theorem C10_optional_fields_default_license_required :
  (forall bk w s d fields,
      answers w s bk d ->
      registered d ->
      nth_error bk (ad_draw d) = Some (ad_base_key d) ->
      is_success (status_code (ad_info d)) = true ->
      resp_json (ad_info d) = Some (PDict fields) ->
      dict_lookup (py "license") fields = Some (ad_final_license d) ->
      stdout_accepts w [Fmt (ad_final_license d)] = true ->
      exists s',
        try_attempt bk w s = (Ok (Some (ad_final_license d)), s')
        /\ retry_count s' = retry_count s
        /\ lines Stdout (trace s')
           = lines Stdout (trace s) ++ [[Fmt (ad_final_license d)]]
        /\ lines Stderr (trace s')
           = lines Stderr (trace s)
             ++ [ [ Lit "Account Type: ";
                    Fmt (match dict_lookup (py "account_type") fields with
                         | Some x => x
                         | None => PStr empty
                         end) ];
                  [ Lit "Data Count: ";
                    Fmt (match dict_lookup (py "referral_count") fields with
                         | Some x => x
                         | None => PInt 0
                         end);
                    Lit " GB(s)" ] ])
  /\ (forall bk w s d fields,
        answers w s bk d ->
        registered d ->
        nth_error bk (ad_draw d) = Some (ad_base_key d) ->
        is_success (status_code (ad_info d)) = true ->
        resp_json (ad_info d) = Some (PDict fields) ->
        dict_lookup (py "license") fields = Some (ad_final_license d) ->
        stdout_accepts w [Fmt (ad_final_license d)] = false ->
        retried bk w s UnicodeEncodeError
        /\ retry_label UnicodeEncodeError = "Unexpected error"
        /\ retry_delay UnicodeEncodeError = 10)
  /\ (forall bk w s d fields,
        answers_until_info w s bk d ->
        registered d ->
        nth_error bk (ad_draw d) = Some (ad_base_key d) ->
        is_success (status_code (ad_info d)) = true ->
        resp_json (ad_info d) = Some (PDict fields) ->
        dict_lookup (py "license") fields = None ->
        retried bk w s (KeyError (py "license"))
        /\ retry_label (KeyError (py "license")) = "Unexpected error"
        /\ retry_delay (KeyError (py "license")) = 10).
Proof.
  split; [|split].
  - intros bk w s d fields Hans Hreg Hnth Hst Hjs Hlic Hacc.
    destruct (attempt_with_license Hans Hreg Hnth Hst Hjs Hlic Hacc)
      as (s' & E & Hrc & Ht).
    exists s'. split; [now apply try_attempt_return|]. split; [exact Hrc|].
    rewrite Ht, !lines_app. cbn [lines printed].
    rewrite !lines_app, !(io_lines _ (success_body_io bk d)).
    split; reflexivity.
  - intros bk w s d fields Hans Hreg Hnth Hst Hjs Hlic Hacc.
    destruct (attempt_license_refused Hans Hreg Hnth Hst Hjs Hlic Hacc)
      as (s1 & E & _).
    split; [|split; reflexivity].
    now apply (raised_is_retried _ _ _ E).
  - intros bk w s d fields Hans Hreg Hnth Hst Hjs Hlic.
    destruct (attempt_missing_license Hans Hreg Hnth Hst Hjs Hlic) as (s1 & E).
    split; [|split; reflexivity].
    now apply (raised_is_retried _ _ _ E).
Qed.

Lemma C10_witness :
  (exists s',
      try_attempt [py "SEED-1"] w_only_license (loop_start w_only_license)
      = (Ok (Some (str "LIC-ORIG")), s')
      /\ retry_count s' = retry_count (loop_start w_only_license)
      /\ lines Stdout (trace s')
         = lines Stdout (trace (loop_start w_only_license)) ++ [[Fmt (str "LIC-ORIG")]]
      /\ lines Stderr (trace s')
         = lines Stderr (trace (loop_start w_only_license))
           ++ [ [Lit "Account Type: "; Fmt (PStr empty)];
                [Lit "Data Count: "; Fmt (PInt 0); Lit " GB(s)"] ])
  /\ (retried [py "SEED-1"] w_unprintable (loop_start w_unprintable)
        UnicodeEncodeError
      /\ retry_label UnicodeEncodeError = "Unexpected error"
      /\ retry_delay UnicodeEncodeError = 10)
  /\ retried [py "SEED-1"] w_no_license (loop_start w_no_license)
       (KeyError (py "license"))
  /\ retry_label (KeyError (py "license")) = "Unexpected error"
  /\ retry_delay (KeyError (py "license")) = 10.
Proof.
  split; [|split].
  - apply (proj1 C10_optional_fields_default_license_required [py "SEED-1"]
             w_only_license (loop_start w_only_license) d_only_license
             [(py "license", str "LIC-ORIG")]);
      try reflexivity.
    + repeat split; reflexivity.
    + repeat split; try reflexivity. eexists; split; reflexivity.
  - apply (proj1 (proj2 C10_optional_fields_default_license_required)
             [py "SEED-1"] w_unprintable (loop_start w_unprintable) d_unprintable
             [(py "license", lone_surrogate)]);
      try reflexivity.
    + repeat split; reflexivity.
    + repeat split; try reflexivity. eexists; split; reflexivity.
  - apply (proj2 (proj2 C10_optional_fields_default_license_required) [py "SEED-1"]
             w_no_license (loop_start w_no_license) d_no_license
             [(py "account_type", str "limited"); (py "referral_count", PInt 10)]);
      try reflexivity.
    + repeat split; reflexivity.
    + repeat split; try reflexivity. eexists; split; reflexivity.
Defined.

(** * Further properties *)

(** ** The protocol of an attempt *)

Lemma proto_run_app st a b :
  proto_run st (a ++ b)
  = match proto_run st a with
    | Some st' => proto_run st' b
    | None => None
    end.
Proof.
  revert st. induction a as [| ev a IH]; intros st; [reflexivity|].
  cbn [app proto_run]. destruct (proto_step st ev); [apply IH | reflexivity].
Qed.

Lemma attempt_protocol bk w s r s' :
  attempt bk w s = (r, s') ->
  exists evs,
    trace s' = trace s ++ evs
    /\ proto_run Closed evs = Some Closed
    /\ count is_open evs = 1%nat
    /\ match r with
       | Ok _ => completed evs = 8%nat
       | Raise _ => (completed evs <= 8)%nat
       | _ => False
       end.
Proof.
  intros H. unfold_M H.
  repeat (destr_in H; cbv beta iota in H); inj_pair H;
    norm_trace; (eexists; split; [reflexivity|]);
    repeat split; cbv; lia.
Qed.

(** ** The protocol of the loop and of a run *)

Lemma count_app p a b : count p (a ++ b) = (count p a + count p b)%nat.
Proof. unfold count. now rewrite filter_app, length_app. Qed.

Lemma completed_app a b : completed (a ++ b) = (completed a + completed b)%nat.
Proof. unfold completed. now rewrite requests_app, filter_app, length_app. Qed.

Lemma sleep_total_app a b : sleep_total (a ++ b) = sleep_total a + sleep_total b.
Proof.
  induction a as [| ev a IH]; [reflexivity|].
  destruct ev; cbn [app sleep_total]; rewrite IH; lia.
Qed.

Lemma try_attempt_protocol bk w s r s' :
  try_attempt bk w s = (r, s') ->
  exists tr,
    trace s' = trace s ++ tr
    /\ proto_run Closed tr = Some Closed
    /\ count is_open tr = 1%nat.
Proof.
  intros H. apply try_attempt_extends in H.
  destruct H as (r0 & s1 & tail & E & Ht & Htail).
  apply attempt_protocol in E. destruct E as (evs & Hevs & Hp & Ho & _).
  exists (evs ++ tail). rewrite Ht, Hevs, app_assoc, proto_run_app, Hp, count_app, Ho.
  split; [reflexivity|].
  destruct Htail as [-> | (e & _ & [-> | (irq & ->)])]; split; reflexivity.
Qed.

Lemma retry_loop_protocol bk w fuel : forall s r s',
  retry_loop fuel bk w s = (r, s') ->
  r <> Diverge ->
  exists tr, trace s' = trace s ++ tr /\ proto_run Closed tr = Some Closed.
Proof.
  induction fuel as [| fuel IH]; intros s r s' H Hr.
  - cbn in H. inj_pair H. now contradiction Hr.
  - cbn [retry_loop] in H. unfold bind, get_retry_count in H.
    destruct (retry_count s <? max_retries).
    + destruct (try_attempt bk w s) as [r0 s1] eqn:E.
      apply try_attempt_protocol in E. destruct E as (tr & Ht & Hp & _).
      destruct r0 as [[v |] | e | c | ].
      * unfold ret in H. inj_pair H. eauto.
      * apply IH in H; [|exact Hr]. destruct H as (tl & Ht' & Hp').
        exists (tr ++ tl). rewrite Ht', Ht, app_assoc, proto_run_app, Hp. auto.
      * inj_pair H. eauto.
      * inj_pair H. eauto.
      * inj_pair H. now contradiction Hr.
    + unfold print, sys_exit in H. inj_pair H. norm_trace.
      eexists; split; reflexivity.
Qed.

Lemma gsk_protocol w r s :
  generate_single_key w init = (r, s) ->
  exists rest,
    trace s = EvFetch base_keys_url 10 (seed_source w 0) :: rest
    /\ proto_run Closed rest = Some Closed.
Proof.
  intros H. pose proof (gsk_result _ H) as Hres. revert H.
  unfold generate_single_key, generate_single_key_fuel, bind.
  destruct (get_base_keys w init) as [r0 s0] eqn:E0.
  pose proof (get_base_keys_outcome _ _ E0) as (Ht0 & _ & Hr0).
  cbn [trace init n_fetch app] in Ht0.
  destruct r0 as [bk | e | c | ]; try contradiction.
  - unfold assign_retry_count. intros E1.
    apply retry_loop_protocol in E1.
    + destruct E1 as (tr & Ht1 & Hp). cbn [set_retry_count trace] in Ht1.
      exists tr. rewrite Ht1, Ht0. auto.
    + intros ->. exact Hres.
  - intros H. inj_pair H. exists []. rewrite Ht0. auto.
Qed.

Lemma run_protocol w :
  exists rest,
    trace (snd (run w)) = EvFetch base_keys_url 10 (seed_source w 0) :: rest
    /\ proto_run Closed rest = Some Closed.
Proof.
  unfold run. destruct (main w init) as [r s] eqn:E. cbn [snd].
  apply main_of_gsk in E. destruct E as (r0 & s0 & E & _ & Ht & _).
  apply gsk_protocol in E. destruct E as (rest & Ht0 & Hp).
  exists (rest ++ epilogue r0). rewrite Ht, Ht0. split; [reflexivity|].
  rewrite proto_run_app, Hp. destruct r0; reflexivity.
Qed.

(** ** Bounds *)

Lemma request_ok_lt k rq : request_ok k rq = true -> (k < 8)%nat.
Proof.
  unfold request_ok. destruct (nth_error attempt_methods k) eqn:E; [|discriminate].
  intros _. change 8%nat with (List.length attempt_methods).
  apply nth_error_Some. rewrite E. discriminate.
Qed.

Lemma proto_step_inv st ev st' :
  proto_step st ev = Some st' ->
  match ev with
  | EvFetch _ _ _ => False
  | EvOpen _ => st = Closed /\ st' = Open 0 false
  | EvClose => is_opened st = 1%nat /\ st' = Closed
  | EvRequest _ _ =>
      exists k dr, st = Open k dr /\ st' = Open (S k) dr /\ (k < 8)%nat
  | EvChoice _ _ => st = Open 4 false /\ st' = Open 4 true
  | EvSleep _ _ => st = Closed /\ st' = Closed
  | EvPrint _ _ => st' = st
  end.
Proof.
  destruct ev; destruct st as [| k dr]; cbn [proto_step]; try discriminate.
  - now intros [= <-].
  - now intros [= <-].
  - destruct (request_ok k rq) eqn:Hok; cbn [andb]; [|discriminate].
    destruct (Nat.ltb k 4 || dr); [|discriminate].
    intros [= <-]. exists k, dr. repeat split. now apply request_ok_lt in Hok.
  - destruct (Nat.eqb k 4) eqn:Hk; cbn [andb]; [|discriminate].
    apply Nat.eqb_eq in Hk. subst k.
    destruct dr; cbn [negb]; [discriminate|]. now intros [= <-].
  - now intros [= <-].
  - destruct ch; [discriminate | now intros [= <-]].
  - destruct (Nat.eqb k 8); [|discriminate]. now intros [= <-].
Qed.

Lemma proto_bounds tr : forall st st',
  proto_run st tr = Some st' ->
  (count is_request tr <= request_budget st + 8 * count is_open tr)%nat
  /\ (count is_choice tr <= draw_budget st + count is_open tr)%nat
  /\ (count is_close tr + is_opened st' = count is_open tr + is_opened st)%nat.
Proof.
  induction tr as [| ev tr IH]; intros st st' H.
  - cbn in H. injection H as <-. cbn [count filter List.length]. lia.
  - cbn [proto_run] in H. destruct (proto_step st ev) as [st1|] eqn:E; [|discriminate].
    apply IH in H. apply proto_step_inv in E.
    change (ev :: tr) with ([ev] ++ tr). rewrite !count_app.
    destruct ev; cbn [count filter is_request is_open is_choice is_close
                        List.length Nat.add] in *; try contradiction.
    + destruct E as (-> & ->). unfold request_budget, draw_budget, is_opened in *. lia.
    + destruct E as (Ho & ->). unfold request_budget, draw_budget, is_opened in *. lia.
    + destruct E as (k & dr & -> & -> & Hk). destruct dr; unfold request_budget, draw_budget, is_opened in *; lia.
    + destruct E as (-> & ->). unfold request_budget, draw_budget, is_opened in *. lia.
    + destruct E as (-> & ->). unfold request_budget, draw_budget, is_opened in *. lia.
    + subst st1. lia.
Qed.

Lemma io_count_open bk evs : Forall (io_of bk) evs -> count is_open evs = 0%nat.
Proof.
  induction 1 as [| ev l Hev _ IH]; [reflexivity|].
  destruct ev; try contradiction; exact IH.
Qed.

Lemma io_count_sleep bk evs : Forall (io_of bk) evs -> count is_sleep evs = 0%nat.
Proof.
  induction 1 as [| ev l Hev _ IH]; [reflexivity|].
  destruct ev; try contradiction; exact IH.
Qed.

Lemma io_sleep_total bk evs : Forall (io_of bk) evs -> sleep_total evs = 0.
Proof.
  induction 1 as [| ev l Hev _ IH]; [reflexivity|].
  destruct ev; try contradiction; exact IH.
Qed.

Lemma retry_delay_cases e : retry_delay e = 5 \/ retry_delay e = 10.
Proof.
  unfold retry_delay. destruct (is_HTTPStatusError e); auto.
  destruct (is_RequestError e); auto.
Qed.

Lemma iter_run_counts bk rc tr r rc' :
  iter_run bk rc tr r rc' ->
  count is_open tr = 1%nat
  /\ (rc' = rc \/ rc' = rc + 1)
  /\ (r = Ok None -> rc' = rc + 1)
  /\ (count is_sleep tr = 0%nat /\ sleep_total tr = 0
      \/ count is_sleep tr = 1%nat /\ rc + 1 < max_retries
         /\ 5 <= sleep_total tr <= 10).
Proof.
  intros H; inversion H; subst; clear H;
    change (EvOpen client_cfg :: ?l) with ([EvOpen client_cfg] ++ l);
    rewrite !count_app, !sleep_total_app;
    try match goal with H : Forall (io_of _) _ |- _ =>
      rewrite (io_count_open H), (io_count_sleep H), (io_sleep_total H) end.
  all: (split; [reflexivity|]); (split; [auto|]); (split; [auto; discriminate|]).
  all: try (left; split; reflexivity).
  right.
  match goal with H : (_ <? _) = true |- _ => apply Z.ltb_lt in H end.
  cbn [count filter is_sleep List.length sleep_total Nat.add diagnostic app].
  destruct (retry_delay_cases e) as [-> | ->]; repeat split; lia.
Qed.

Lemma loop_run_counts bk rc tr r rc' :
  loop_run bk rc tr r rc' ->
  0 <= rc ->
  (count is_open tr <= Z.to_nat (max_retries - rc))%nat
  /\ (count is_sleep tr <= Z.to_nat (max_retries - 1 - rc))%nat
  /\ 0 <= sleep_total tr <= 10 * Z.of_nat (Z.to_nat (max_retries - 1 - rc))
  /\ rc <= rc' <= Z.max rc max_retries.
Proof.
  unfold max_retries.
  induction 1 as [rc Hlt | rc tr v rc' Hlt Hit | rc tr e rc' Hlt Hit
                 | rc tr rc1 tl r rc' Hlt Hit Hloop IH]; intros Hrc.
  - apply Z.ltb_ge in Hlt. unfold max_retries in Hlt.
    cbn [count filter is_open is_sleep List.length sleep_total]. lia.
  - apply Z.ltb_lt in Hlt. unfold max_retries in Hlt.
    destruct (iter_run_counts Hit) as (Ho & Hrc' & _ & Hs).
    rewrite Ho. destruct Hs as [(-> & ->) | (-> & Hlt' & Hs)];
      unfold max_retries in *; lia.
  - apply Z.ltb_lt in Hlt. unfold max_retries in Hlt.
    destruct (iter_run_counts Hit) as (Ho & Hrc' & _ & Hs).
    rewrite Ho. destruct Hs as [(-> & ->) | (-> & Hlt' & Hs)];
      unfold max_retries in *; lia.
  - apply Z.ltb_lt in Hlt. unfold max_retries in Hlt.
    destruct (iter_run_counts Hit) as (Ho & _ & Hrc1 & Hs).
    specialize (Hrc1 eq_refl). subst rc1.
    destruct IH as (IHo & IHs & IHt & IHrc); [lia|].
    rewrite !count_app, sleep_total_app, Ho.
    destruct Hs as [(-> & ->) | (-> & Hlt' & Hs)];
      unfold max_retries in *; lia.
Qed.

(** What a run consists of: the fetch, the events of the loop (none when the
    fetch was interrupted), and what [main] adds. *)
Lemma run_parts w :
  exists r0 tr rc,
    trace (snd (run w))
    = EvFetch base_keys_url 10 (seed_source w 0) :: tr ++ epilogue r0
    /\ fst (run w) = outcome r0
    /\ retry_count (snd (run w)) = rc
    /\ (tr = [] /\ r0 = Raise KeyboardInterrupt /\ rc = 0
        \/ exists bk, loop_run bk 0 tr r0 rc).
Proof.
  unfold run. destruct (main w init) as [r s] eqn:E. cbn [fst snd].
  apply main_shape in E. destruct E as (r0 & trx & Hshape & -> & Ht).
  inversion Hshape as [Hsrc | bk s0 tr r0' rc E0 Hrun]; subst.
  - exists (Raise KeyboardInterrupt), [], 0. rewrite Ht, Hsrc.
    repeat split; auto.
  - exists r0, tr, (retry_count s). rewrite Ht.
    repeat split; auto. right. eauto.
Qed.

(** X1: in every run, after the fetch of the seed keys, the events follow
    the protocol of [proto_step] and end with no client open: a client is
    opened only when none is open and is closed on every way out, also on
    an interruption; inside a client block the requests are the first ones
    of POST, POST, PATCH, DELETE, PUT, PUT, GET, DELETE, in this order; the
    registrations are bare POSTs of [/reg], every other request carries an
    [Authorization] header; the seed key is drawn once, between the fourth
    and the fifth request; nothing is printed in a block before the eighth
    request; outside a block only stderr is written; sleeps come between
    blocks. *)
Theorem X1_run_follows_the_protocol w :
  exists rest,
    trace (snd (run w)) = EvFetch base_keys_url 10 (seed_source w 0) :: rest
    /\ proto_run Closed rest = Some Closed.
Proof. exact (run_protocol w). Qed.

(** X2: a run opens at most 3 clients and closes each of them, sends at
    most 24 requests, draws at most 3 seed keys, sleeps at most twice and
    asks for at most 20 seconds of sleep in all. *)
Theorem X2_run_is_bounded w :
  (count is_open (trace (snd (run w))) <= 3)%nat
  /\ count is_close (trace (snd (run w))) = count is_open (trace (snd (run w)))
  /\ (count is_request (trace (snd (run w))) <= 24)%nat
  /\ (count is_choice (trace (snd (run w))) <= 3)%nat
  /\ (count is_sleep (trace (snd (run w))) <= 2)%nat
  /\ 0 <= sleep_total (trace (snd (run w))) <= 20.
Proof.
  destruct (run_protocol w) as (rest & Ht & Hp).
  destruct (run_parts w) as (r0 & tr & rc & Ht' & _ & _ & Hloop).
  rewrite Ht in Ht'. injection Ht' as Hrest.
  apply proto_bounds in Hp. destruct Hp as (Hreq & Hch & Hcl).
  cbn [request_budget draw_budget is_opened] in *.
  assert (Hcounts : (count is_open tr <= 3)%nat /\ (count is_sleep tr <= 2)%nat
                    /\ 0 <= sleep_total tr <= 20).
  { destruct Hloop as [(-> & _) | (bk & Hrun)].
    - cbn. lia.
    - apply loop_run_counts in Hrun; [|lia]. unfold max_retries in Hrun.
      lia. }
  assert (He : count is_open (epilogue r0) = 0%nat /\ count is_sleep (epilogue r0) = 0%nat
               /\ sleep_total (epilogue r0) = 0) by (destruct r0; repeat split).
  rewrite Ht.
  change (EvFetch base_keys_url 10 (seed_source w 0) :: rest)
    with ([EvFetch base_keys_url 10 (seed_source w 0)] ++ rest).
  rewrite !count_app, sleep_total_app.
  cbn [count filter is_open is_close is_request is_choice is_sleep List.length
       sleep_total Nat.add].
  rewrite Hrest in *. rewrite !count_app, sleep_total_app in *.
  lia.
Qed.

(** ** The diagnostics *)

Lemma numbers_shift rc n :
  map (fun i => rc + Z.of_nat i) (seq 2 n)
  = map (fun i => rc + 1 + Z.of_nat i) (seq 1 n).
Proof.
  rewrite <- seq_shift, map_map. apply map_ext. intros i. lia.
Qed.

Lemma loop_run_numbered bk rc tr r rc' :
  loop_run bk rc tr r rc' ->
  map fst (failures tr)
  = map (fun i => rc + Z.of_nat i) (seq 1 (List.length (failures tr))).
Proof.
  induction 1 as [rc Hlt | rc tr v rc' Hlt Hit | rc tr e rc' Hlt Hit
                 | rc tr rc1 tl r rc' Hlt Hit Hloop IH].
  - reflexivity.
  - iter_cases Hit. unfold success_body. reflexivity.
  - iter_cases Hit; cbn [failures failure_of]; rewrite failures_app;
      match goal with H : Forall (io_of _) _ |- _ => rewrite (io_failures H) end;
      cbn; repeat f_equal; lia.
  - iter_cases Hit; rewrite failures_app;
      cbn [failures failure_of]; rewrite failures_app;
      match goal with H : Forall (io_of _) _ |- _ => rewrite (io_failures H) end;
      cbn [app failures failure_of diagnostic retry_message map fst List.length seq];
      rewrite IH, numbers_shift; repeat f_equal; lia.
Qed.

(** X3: the diagnostics of a run are numbered 1, 2, ... in the order they
    are printed, there are [retry_count] of them, and [retry_count] never
    goes above 3. *)
Theorem X3_diagnostics_are_numbered w :
  map fst (failures (trace (snd (run w))))
  = map Z.of_nat (seq 1 (List.length (failures (trace (snd (run w))))))
  /\ retry_count (snd (run w))
     = Z.of_nat (List.length (failures (trace (snd (run w)))))
  /\ 0 <= retry_count (snd (run w)) <= 3.
Proof.
  destruct (run_parts w) as (r0 & tr & rc & Ht & _ & Hrc & Hloop).
  rewrite Ht, Hrc.
  change (EvFetch base_keys_url 10 (seed_source w 0) :: tr ++ epilogue r0)
    with ([EvFetch base_keys_url 10 (seed_source w 0)] ++ tr ++ epilogue r0).
  rewrite !failures_app.
  assert (He : failures (epilogue r0) = []) by (destruct r0; reflexivity).
  rewrite He, app_nil_r. cbn [failures failure_of app].
  destruct Hloop as [(-> & _ & ->) | (bk & Hrun)].
  - cbn. repeat split; lia.
  - pose proof (loop_run_numbered Hrun) as Hn.
    pose proof (loop_run_counted Hrun) as (Hc & _).
    pose proof (loop_run_counts Hrun) as (_ & _ & _ & Hb); [lia|].
    unfold max_retries in Hb. rewrite Hn. repeat split; lia.
Qed.

(** ** An attempt and its requests *)



(** X5: in a run that succeeds, every request of the last attempt is
    addressed with what the two registrations of that attempt returned: the
    PATCH goes to account A with A's token and names B as referrer, B is
    deleted with B's own token, the two PUTs, the GET and the last DELETE go
    to account A with A's token; there are exactly eight requests. *)
Theorem X5_requests_use_the_registered_ids w s :
  main w init = (Ok tt, s) ->
  exists reg_a reg_b id1 token1 id2 token2 seed original o2 o3 o4 o5 o6 o7,
    step 0 (trace s) = Some (mk_request POST [Lit "/reg"] [] None, ApiResp reg_a)
    /\ step 1 (trace s) = Some (mk_request POST [Lit "/reg"] [] None, ApiResp reg_b)
    /\ json_item reg_a (py "id") = Some id1
    /\ json_item reg_a (py "token") = Some token1
    /\ json_item reg_b (py "id") = Some id2
    /\ json_item reg_b (py "token") = Some token2
    /\ step 2 (trace s)
       = Some (mk_request PATCH (reg_path id1) (headers_post token1)
                 (Some (PDict [(py "referrer", id2)])), o2)
    /\ step 3 (trace s)
       = Some (mk_request DELETE (reg_path id2) (headers_get token2) None, o3)
    /\ step 4 (trace s)
       = Some (mk_request PUT (account_path id1) (headers_post token1)
                 (license_body (PStr seed)), o4)
    /\ step 5 (trace s)
       = Some (mk_request PUT (account_path id1) (headers_post token1)
                 (license_body original), o5)
    /\ step 6 (trace s)
       = Some (mk_request GET (account_path id1) (headers_get token1) None, o6)
    /\ step 7 (trace s)
       = Some (mk_request DELETE (reg_path id1) (headers_get token1) None, o7)
    /\ step 8 (trace s) = None.
Proof.
  intros H. apply main_success in H.
  destruct H as (bk & s0 & pre & d & _ & Ht & Hwf & _).
  destruct Hwf as (((_ & Hid1 & _ & Htok1) & (_ & Hid2 & Htok2)) & _).
  exists (ad_reg1 d), (ad_reg2 d), (ad_id1 d), (ad_token1 d), (ad_id2 d),
    (ad_token2 d), (ad_base_key d), (ad_license d).
  do 6 eexists. rewrite Ht, !step_success.
  repeat split; try eassumption; reflexivity.
Qed.

Lemma X5_witness :
  exists reg_a reg_b id1 token1 id2 token2 seed original o2 o3 o4 o5 o6 o7,
    step 0 (trace (snd (run w_scenario)))
    = Some (mk_request POST [Lit "/reg"] [] None, ApiResp reg_a)
    /\ step 1 (trace (snd (run w_scenario)))
       = Some (mk_request POST [Lit "/reg"] [] None, ApiResp reg_b)
    /\ json_item reg_a (py "id") = Some id1
    /\ json_item reg_a (py "token") = Some token1
    /\ json_item reg_b (py "id") = Some id2
    /\ json_item reg_b (py "token") = Some token2
    /\ step 2 (trace (snd (run w_scenario)))
       = Some (mk_request PATCH (reg_path id1) (headers_post token1)
                 (Some (PDict [(py "referrer", id2)])), o2)
    /\ step 3 (trace (snd (run w_scenario)))
       = Some (mk_request DELETE (reg_path id2) (headers_get token2) None, o3)
    /\ step 4 (trace (snd (run w_scenario)))
       = Some (mk_request PUT (account_path id1) (headers_post token1)
                 (license_body (PStr seed)), o4)
    /\ step 5 (trace (snd (run w_scenario)))
       = Some (mk_request PUT (account_path id1) (headers_post token1)
                 (license_body original), o5)
    /\ step 6 (trace (snd (run w_scenario)))
       = Some (mk_request GET (account_path id1) (headers_get token1) None, o6)
    /\ step 7 (trace (snd (run w_scenario)))
       = Some (mk_request DELETE (reg_path id1) (headers_get token1) None, o7)
    /\ step 8 (trace (snd (run w_scenario))) = None.
Proof.
  apply (@X5_requests_use_the_registered_ids w_scenario (snd (run w_scenario))).
  vm_compute. reflexivity.
Defined.

(** ** How the script ends *)

(** The loop prints neither of the two lines of [main]. *)
Lemma iter_run_own_lines bk rc tr r rc' t :
  iter_run bk rc tr r rc' ->
  In t (lines Stderr tr) ->
  t <> cancelled_message /\ forall e, t <> fatal_message e.
Proof.
  intros H; inversion H; subst; clear H; cbn [lines printed];
    rewrite ?lines_app;
    match goal with H : Forall (io_of _) _ |- _ => rewrite ?(io_lines Stderr H)
                  | _ => idtac end;
    unfold success_body;
    cbn [lines printed app diagnostic]; unfold retry_message;
    cbn [In]; intros Hin; try contradiction;
    repeat (destruct Hin as [Hin | Hin]; try contradiction);
    subst t; split; try intros e0; discriminate.
Qed.

Lemma loop_run_own_lines bk rc tr r rc' t :
  loop_run bk rc tr r rc' ->
  In t (lines Stderr tr) ->
  t <> cancelled_message /\ forall e, t <> fatal_message e.
Proof.
  induction 1 as [rc Hlt | rc tr v rc' Hlt Hit | rc tr e rc' Hlt Hit
                 | rc tr rc1 tl r rc' Hlt Hit Hloop IH].
  - cbn [lines printed]. intros [<- | []]. split; try intros e; discriminate.
  - intros Hin. eapply iter_run_own_lines; eassumption.
  - intros Hin. eapply iter_run_own_lines; eassumption.
  - rewrite lines_app. intros Hin. apply in_app_or in Hin. destruct Hin.
    + eapply iter_run_own_lines; eassumption.
    + now apply IH.
Qed.

Ltac in_cases H :=
  cbn [In] in H; repeat (destruct H as [H | H]; try discriminate H);
  try contradiction.

(** X6: however the script ends, it ends with exit status 0, 1 or 130;
    status 0 goes with a line on stdout and the other two with an empty
    stdout; status 130 goes with an interruption by the operator and with
    the cancellation line on stderr, and with nothing else; the line
    [Fatal error: ...] of the last clause of [main] is never printed;
    without the two modules the script prints its two lines on stderr and
    exits 1 without any fetch or request. *)
Theorem X6_exit_status_tells_the_outcome installed w r s :
  script installed w init = (r, s) ->
  (r = Ok tt \/ r = Exit 1 \/ r = Exit 130)
  /\ (r = Ok tt <-> stdout (trace s) <> [])
  /\ (r = Exit 130 <-> interrupted (trace s) = true)
  /\ (r = Exit 130 <-> In cancelled_message (stderr (trace s)))
  /\ (forall e, ~ In (fatal_message e) (stderr (trace s)))
  /\ (installed = false ->
      r = Exit 1
      /\ trace s = [EvPrint Stderr [Lit "Error: Required modules not installed"];
                    EvPrint Stderr [Lit "Install: pip3 install httpx requests"]]).
Proof.
  destruct installed; cbn [script].
  - intros H. apply main_shape in H. destruct H as (r0 & tr & Hshape & -> & Ht).
    rewrite Ht. unfold stdout, stderr. rewrite !lines_app, interrupted_app.
    inversion Hshape as [Hsrc | bk s0 tr' r0' rc E0 Hrun]; subst.
    + cbn. repeat split; auto; try discriminate; try congruence.
      * intros e Hin. in_cases Hin.
    + pose proof (get_base_keys_outcome _ _ E0) as (_ & _ & Hf).
      cbn [n_fetch init] in Hf.
      pose proof (loop_run_stdout Hrun) as Hout.
      pose proof (loop_run_interrupted Hrun) as Hint.
      pose proof (loop_run_result Hrun) as Hres.
      assert (Hown : forall t, In t (lines Stderr tr') ->
                t <> cancelled_message /\ forall e, t <> fatal_message e)
        by (intros t Hin; eapply loop_run_own_lines; eassumption).
      cbn [lines printed]. rewrite interrupted_cons, Hf, Hout, Hint.
      cbn [orb].
      destruct r0 as [v | e | c | ]; try contradiction; subst;
        cbn [outcome epilogue lines printed interrupted existsb app orb];
        rewrite ?app_nil_r.
      * repeat split; auto; try discriminate; try congruence.
        -- intros Hin. now destruct (Hown _ Hin) as (Hc & _).
        -- intros e Hin. destruct (Hown _ Hin) as (_ & Hc). now apply (Hc e).
      * repeat split; auto; try discriminate; try congruence.
        -- intros _. apply in_or_app. right. now left.
        -- intros e Hin. apply in_app_or in Hin. destruct Hin as [Hin | [Hin | []]].
           ++ destruct (Hown _ Hin) as (_ & Hc). now apply (Hc e).
           ++ discriminate.
      * repeat split; auto; try discriminate; try congruence.
        -- intros Hin. now destruct (Hown _ Hin) as (Hc & _).
        -- intros e Hin. destruct (Hown _ Hin) as (_ & Hc). now apply (Hc e).
  - unfold print, sys_exit, bind. intros H. inj_pair H. cbn.
    repeat split; auto; try discriminate; try congruence.
    + intros Hin. in_cases Hin.
    + intros e Hin. in_cases Hin.
Qed.

Lemma X6_witness :
  (fst (script true w_ctrl_c init) = Ok tt
   \/ fst (script true w_ctrl_c init) = Exit 1
   \/ fst (script true w_ctrl_c init) = Exit 130)
  /\ (fst (script true w_ctrl_c init) = Ok tt
      <-> stdout (trace (snd (script true w_ctrl_c init))) <> [])
  /\ (fst (script true w_ctrl_c init) = Exit 130
      <-> interrupted (trace (snd (script true w_ctrl_c init))) = true)
  /\ (fst (script true w_ctrl_c init) = Exit 130
      <-> In cancelled_message (stderr (trace (snd (script true w_ctrl_c init)))))
  /\ (forall e,
        ~ In (fatal_message e) (stderr (trace (snd (script true w_ctrl_c init)))))
  /\ (true = false ->
      fst (script true w_ctrl_c init) = Exit 1
      /\ trace (snd (script true w_ctrl_c init))
         = [EvPrint Stderr [Lit "Error: Required modules not installed"];
            EvPrint Stderr [Lit "Install: pip3 install httpx requests"]]).
Proof.
  apply (@X6_exit_status_tells_the_outcome true w_ctrl_c).
  vm_compute. reflexivity.
Defined.

(** ** The parser of the seed keys *)

Lemma lstrip_spec s :
  exists ws, s = ws ++ lstrip s /\ forallb isspace ws = true.
Proof.
  induction s as [| c s IH]; [exists []; auto|].
  cbn [lstrip]. destruct (isspace c) eqn:Hc.
  - destruct IH as (ws & Hs & Hws). exists (c :: ws). cbn. rewrite Hc, Hws.
    split; [now f_equal | reflexivity].
  - exists []. auto.
Qed.

Lemma lstrip_head s c t : lstrip s = c :: t -> isspace c = false.
Proof.
  induction s as [| c0 s IH]; [discriminate|].
  cbn [lstrip]. destruct (isspace c0) eqn:Hc; [exact IH|].
  now intros [= <- _].
Qed.

Lemma lstrip_fixed c t : isspace c = false -> lstrip (c :: t) = c :: t.
Proof. intros H. cbn. now rewrite H. Qed.

Lemma lstrip_nil_iff s : lstrip s = [] <-> forallb isspace s = true.
Proof.
  induction s as [| c s IH]; [now split|].
  cbn [lstrip forallb]. destruct (isspace c); cbn [andb]; [exact IH|].
  split; discriminate.
Qed.

Lemma rstrip_spec s :
  exists ws, s = rstrip s ++ ws /\ forallb isspace ws = true.
Proof.
  unfold rstrip. destruct (lstrip_spec (rev s)) as (ws & Hs & Hws).
  exists (rev ws). split.
  - rewrite <- rev_app_distr, <- Hs. now rewrite rev_involutive.
  - rewrite forallb_forall in *. intros x Hx. apply Hws. now apply in_rev.
Qed.

Lemma rstrip_last s : rstrip s = [] \/ exists t c, rstrip s = t ++ [c] /\ isspace c = false.
Proof.
  unfold rstrip. destruct (lstrip (rev s)) as [| c t] eqn:E; [now left|].
  right. exists (rev t), c. split; [reflexivity|]. eapply lstrip_head; eauto.
Qed.

Lemma rstrip_fixed t c : isspace c = false -> rstrip (t ++ [c]) = t ++ [c].
Proof.
  intros H. unfold rstrip. rewrite rev_app_distr. cbn [rev app].
  rewrite lstrip_fixed by exact H. cbn [rev]. now rewrite rev_involutive.
Qed.

(** [strip] leaves a stripped string as it is. *)
Lemma strip_strip s : strip (strip s) = strip s.
Proof.
  set (a := lstrip s). change (strip s) with (rstrip a).
  assert (Ha : lstrip a = a).
  { subst a. destruct (lstrip s) as [| c t] eqn:E; [reflexivity|].
    apply lstrip_fixed. eapply lstrip_head; eauto. }
  destruct (rstrip_last a) as [E | (t & c & E & Hc)].
  - rewrite E. reflexivity.
  - assert (Hl : lstrip (rstrip a) = rstrip a).
    { destruct (rstrip_spec a) as (ws & Hs & _). rewrite E in *.
      destruct t as [| c0 t].
      - cbn. now rewrite Hc.
      - cbn [app]. apply lstrip_fixed.
        destruct a as [| a0 a']; [discriminate|].
        cbn [app] in Hs. injection Hs as -> _.
        eapply lstrip_head. exact Ha. }
    unfold strip. rewrite Hl, E. now apply rstrip_fixed.
Qed.

Lemma strip_nil_iff s : strip s = [] <-> forallb isspace s = true.
Proof.
  unfold strip. split.
  - intros H. destruct (rstrip_spec (lstrip s)) as (ws & Hs & Hws).
    rewrite H in Hs. cbn [app] in Hs.
    destruct (lstrip_spec s) as (ws' & Hs' & Hws').
    rewrite Hs', forallb_app, Hws', Hs, Hws. reflexivity.
  - intros H. apply lstrip_nil_iff in H. rewrite H. reflexivity.
Qed.

Lemma strip_incl s c : In c (strip s) -> In c s.
Proof.
  unfold strip. intros H.
  destruct (rstrip_spec (lstrip s)) as (ws & Hs & _).
  destruct (lstrip_spec s) as (ws' & Hs' & _).
  rewrite Hs'. apply in_or_app. right. rewrite Hs. apply in_or_app. now left.
Qed.

Lemma split_nonempty sep s : split sep s <> [].
Proof.
  destruct s as [| c s]; cbn [split]; [discriminate|].
  destruct (N.eqb c sep); [discriminate|].
  destruct (split sep s); discriminate.
Qed.

Lemma split_no_sep sep s seg : In seg (split sep s) -> ~ In sep seg.
Proof.
  revert seg. induction s as [| c s IH]; intros seg.
  - intros [<- | []] [].
  - cbn [split]. destruct (N.eqb c sep) eqn:Hc.
    + intros [<- | Hin]; [intros [] | now apply IH].
    + destruct (split sep s) as [| seg0 segs] eqn:E.
      * intros [<- | []] [-> | []]. now rewrite N.eqb_refl in Hc.
      * intros [<- | Hin].
        -- intros [-> | Hin]; [now rewrite N.eqb_refl in Hc|].
           apply (IH seg0); [now left | exact Hin].
        -- apply IH. now right.
Qed.

Lemma split_app sep a b :
  split sep (a ++ sep :: b) = split sep a ++ split sep b.
Proof.
  induction a as [| c a IH]; cbn [app split].
  - now rewrite N.eqb_refl.
  - destruct (N.eqb c sep); [now rewrite IH|].
    rewrite IH. pose proof (split_nonempty sep a) as Hne.
    destruct (split sep a); [contradiction | reflexivity].
Qed.

Lemma split_all_space s :
  Forall (fun seg => forallb isspace seg = true) (split comma s)
  <-> forallb (fun c => N.eqb c comma || isspace c) s = true.
Proof.
  induction s as [| c s IH]; cbn [split forallb].
  - split; [reflexivity | repeat constructor].
  - destruct (N.eqb c comma) eqn:Hc; cbn [orb andb].
    + split; intros H.
      * apply IH. now inversion H.
      * apply IH in H. constructor; [reflexivity | exact H].
    + pose proof (split_nonempty comma s) as Hne.
      destruct (split comma s) as [| seg segs]; [contradiction|].
      split; intros H.
      * inversion H as [| ? ? Hseg Hsegs]; subst. cbn [forallb] in Hseg.
        apply andb_true_iff in Hseg. destruct Hseg as (-> & Hseg).
        cbn [andb]. apply IH. now constructor.
      * apply andb_true_iff in H. destruct H as (Hsp & H).
        apply IH in H. inversion H; subst. constructor; [|assumption].
        cbn [forallb]. rewrite Hsp. assumption.
Qed.

Lemma truthy_false_iff s : truthy s = false <-> s = [].
Proof. destruct s; split; intros; try reflexivity; discriminate. Qed.

Lemma filter_strip_nil_iff segs :
  map strip (filter (fun k => truthy (strip k)) segs) = []
  <-> Forall (fun seg => forallb isspace seg = true) segs.
Proof.
  induction segs as [| seg segs IH]; cbn [filter map].
  - split; [constructor | reflexivity].
  - destruct (truthy (strip seg)) eqn:Ht; cbn [map].
    + split; [discriminate|]. inversion 1 as [| ? ? Hseg _]; subst.
      apply strip_nil_iff in Hseg. now rewrite Hseg in Ht.
    + apply truthy_false_iff, strip_nil_iff in Ht. split; intros H.
      * constructor; [exact Ht | now apply IH].
      * apply IH. now inversion H.
Qed.

Lemma parse_keys_nil_iff s :
  parse_keys s = []
  <-> forallb (fun c => N.eqb c comma || isspace c) s = true.
Proof.
  unfold parse_keys. split; intros H.
  - now apply split_all_space, filter_strip_nil_iff.
  - now apply filter_strip_nil_iff, split_all_space.
Qed.

(** ** The pool of seed keys *)

Lemma strip_head s c t : strip s = c :: t -> isspace c = false.
Proof.
  unfold strip. intros H.
  destruct (rstrip_spec (lstrip s)) as (ws & Hs & _).
  rewrite H in Hs. cbn [app] in Hs. eapply lstrip_head. exact Hs.
Qed.

Lemma strip_last s t c : strip s = t ++ [c] -> isspace c = false.
Proof.
  unfold strip. intros H.
  destruct (rstrip_last (lstrip s)) as [E | (t' & c' & E & Hc)].
  - rewrite E in H. now destruct t.
  - rewrite E in H. apply app_inj_tail in H. now destruct H as (_ & <-).
Qed.

Lemma split_one sep s : ~ In sep s -> split sep s = [s].
Proof.
  induction s as [| c s IH]; [reflexivity|].
  intros Hn. cbn [split].
  destruct (N.eqb c sep) eqn:Hc.
  - apply N.eqb_eq in Hc. subst c. contradiction Hn. now left.
  - rewrite IH; [reflexivity|]. intros Hin. apply Hn. now right.
Qed.

(** What [parse_keys] gives for a key. *)
Lemma parse_keys_key s k :
  In k (parse_keys s) ->
  k <> [] /\ ~ In comma k /\ strip k = k.
Proof.
  unfold parse_keys. intros H. apply in_map_iff in H.
  destruct H as (seg & <- & Hseg). apply filter_In in Hseg.
  destruct Hseg as (Hseg & Ht). split; [|split].
  - intros E. rewrite E in Ht. discriminate.
  - intros Hin. apply strip_incl in Hin. exact (split_no_sep _ _ _ Hseg Hin).
  - apply strip_strip.
Qed.

(** X7: every key of the pool that [get_base_keys] returns, from the body
    of the source or from the hard-coded list, is non-empty, holds no comma
    and neither starts nor ends with a whitespace character. *)
Theorem X7_pool_keys_are_clean w s bk s' k :
  get_base_keys w s = (Ok bk, s') ->
  In k bk ->
  k <> []
  /\ ~ In comma k
  /\ strip k = k
  /\ (forall c t, k = c :: t -> isspace c = false)
  /\ (forall t c, k = t ++ [c] -> isspace c = false).
Proof.
  intros H Hin.
  assert (Hk : k <> [] /\ ~ In comma k /\ strip k = k).
  { rewrite get_base_keys_eq in H. cbv zeta in H.
    assert (Hfb : In k fallback_keys -> k <> [] /\ ~ In comma k /\ strip k = k).
    { intros Hf. cbn [fallback_keys In] in Hf.
      repeat (destruct Hf as [Hf | Hf]; [subst k; repeat split; try discriminate;
        [vm_compute; intros Hc; repeat (destruct Hc as [Hc | Hc]; try discriminate Hc);
         exact Hc]|]).
      contradiction. }
    destruct (seed_source w (n_fetch s)) as [st content | e].
    - destruct ((400 <=? st) && (st <? 600)).
      + assert (bk = fallback_keys) by congruence. subst bk. auto.
      + destruct (bytes_decode_UTF8 content) as [body |].
        * assert (bk = parse_keys body) by congruence. subst bk.
          eapply parse_keys_key; eassumption.
        * assert (bk = fallback_keys) by congruence. subst bk. auto.
    - destruct (is_Exception e); [|discriminate].
      assert (bk = fallback_keys) by congruence. subst bk. auto. }
  destruct Hk as (Hne & Hc & Hs). repeat split; auto.
  - intros c t E. apply (@strip_head k c t). now rewrite Hs.
  - intros t c E. apply (@strip_last k t c). now rewrite Hs.
Qed.

Lemma X7_witness :
  py "K2" <> []
  /\ ~ In comma (py "K2")
  /\ strip (py "K2") = py "K2"
  /\ (forall c t, py "K2" = c :: t -> isspace c = false)
  /\ (forall t c, py "K2" = t ++ [c] -> isspace c = false).
Proof.
  apply (@X7_pool_keys_are_clean w_k123 init [py "K1"; py "K2"; py "K3"]
           (snd (get_base_keys w_k123 init)) (py "K2")).
  - vm_compute. reflexivity.
  - cbn [In]. right. left. reflexivity.
Defined.

(** X8: the parse of a body is the parse of what stands before a comma
    followed by the parse of what stands after it, and a body without a
    comma gives its trimmed text as the only key, or no key when nothing is
    left of it; so the keys come in the order of the body and a key never
    depends on its neighbours. *)
Theorem X8_parse_keys_comma_by_comma :
  (forall a b, parse_keys (a ++ comma :: b) = parse_keys a ++ parse_keys b)
  /\ (forall s, ~ In comma s ->
        parse_keys s = if truthy (strip s) then [strip s] else []).
Proof.
  split.
  - intros a b. unfold parse_keys. now rewrite split_app, filter_app, map_app.
  - intros s Hs. unfold parse_keys. rewrite (@split_one comma s Hs). cbn [filter].
    destruct (truthy (strip s)); reflexivity.
Qed.

Lemma X8_witness :
  parse_keys (py " K2 ") = [py "K2"].
Proof.
  refine (proj2 X8_parse_keys_comma_by_comma (py " K2 ") _).
  vm_compute. intros H. repeat (destruct H as [H | H]; try discriminate H).
  exact H.
Defined.

(** X9: [get_base_keys] returns an empty pool exactly when the source
    answers with a status outside 400..599 and a body that decodes to
    nothing but commas and whitespace; in every other case that returns,
    the pool holds a key. *)
Theorem X9_pool_is_empty_iff w s :
  fst (get_base_keys w s) = Ok []
  <-> exists st content body,
        seed_source w (n_fetch s) = FetchResp st content
        /\ (400 <=? st) && (st <? 600) = false
        /\ bytes_decode_UTF8 content = Some body
        /\ forallb (fun c => N.eqb c comma || isspace c) body = true.
Proof.
  rewrite get_base_keys_eq. cbv zeta.
  destruct (seed_source w (n_fetch s)) as [st content | e].
  - destruct ((400 <=? st) && (st <? 600)) eqn:Hst.
    + split; [discriminate|]. intros (st' & c' & b' & [= <- <-] & Hc & _).
      congruence.
    + destruct (bytes_decode_UTF8 content) as [body |] eqn:Hdec; cbn [fst].
      * split.
        -- intros [= H]. apply parse_keys_nil_iff in H.
           exists st, content, body. auto.
        -- intros (st' & c' & b' & [= <- <-] & _ & Hd & Hb).
           rewrite Hdec in Hd. injection Hd as <-.
           apply parse_keys_nil_iff in Hb. now rewrite Hb.
      * split; [discriminate|].
        intros (st' & c' & b' & [= <- <-] & _ & Hd & _). congruence.
  - split.
    + destruct (is_Exception e); discriminate.
    + intros (st' & c' & b' & H & _). discriminate.
Qed.

(** ** Failures inside an attempt *)

(** X10: in an attempt, either every request that was sent got a response,
    or the request that raised is the last one sent and the attempt ends
    with that very exception: an error of the transport is never swallowed,
    and nothing is sent after it. *)
Theorem X10_failed_request_ends_the_attempt bk w s r s' :
  attempt bk w s = (r, s') ->
  exists evs,
    trace s' = trace s ++ evs
    /\ (completed evs = count is_request evs
        \/ exists rq e,
             r = Raise e
             /\ count is_request evs = S (completed evs)
             /\ nth_error (requests evs) (completed evs) = Some (rq, ApiRaise e)).
Proof.
  intros H. unfold_M H.
  repeat (destr_in H; cbv beta iota in H); inj_pair H;
    norm_trace; (eexists; split; [reflexivity|]);
    first [ left; reflexivity
          | right; do 2 eexists; repeat split; reflexivity ].
Qed.

Lemma X10_witness :
  exists evs,
    trace (snd (attempt [py "SEED-1"] w_delete_fails (loop_start w_delete_fails)))
    = trace (loop_start w_delete_fails) ++ evs
    /\ (completed evs = count is_request evs
        \/ exists rq e,
             fst (attempt [py "SEED-1"] w_delete_fails (loop_start w_delete_fails))
             = Raise e
             /\ count is_request evs = S (completed evs)
             /\ nth_error (requests evs) (completed evs) = Some (rq, ApiRaise e)).
Proof.
  apply (@X10_failed_request_ends_the_attempt [py "SEED-1"] w_delete_fails
           (loop_start w_delete_fails)).
  vm_compute. reflexivity.
Defined.

(** X11: when the response to the first registration has a success status
    but lacks the [id], the [account] with its [license], or the [token]
    (or is no JSON object at all), the attempt ends after this one request,
    the client is closed, and the failure is taken by the last [except]
    clause of the loop: [Unexpected error], counted, followed by a sleep of
    10 seconds when attempts remain. *)
Theorem X11_malformed_registration_is_unexpected bk w s r0 :
  api w (n_api s) = ApiResp r0 ->
  is_success (status_code r0) = true ->
  json_item r0 (py "id") = None \/ registration_license r0 = None
  \/ json_item r0 (py "token") = None ->
  exists e s1,
    attempt bk w s = (Raise e, s1)
    /\ trace s1
       = trace s ++ [ EvOpen client_cfg;
                      EvRequest (mk_request POST [Lit "/reg"] [] None) (ApiResp r0);
                      EvClose ]
    /\ retry_label e = "Unexpected error"%string
    /\ retry_delay e = 10
    /\ retried bk w s e.
Proof.
  intros A0 Hst Hbad.
  assert (H : exists e s1,
             attempt bk w s = (Raise e, s1)
             /\ trace s1
                = trace s ++ [ EvOpen client_cfg;
                               EvRequest (mk_request POST [Lit "/reg"] [] None)
                                 (ApiResp r0);
                               EvClose ]
             /\ retry_label e = "Unexpected error"%string
             /\ retry_delay e = 10
             /\ is_Exception e = true).
  { unfold registration_license, json_item, item in Hbad.
    destruct (resp_json r0) as [j |] eqn:Hj;
      [destruct j as [ | b | z | f | t | l | d] |];
      try (do 2 eexists; split; [unfold_M_goal; fwd; reflexivity|];
           norm_trace; repeat split; reflexivity).
    destruct (dict_lookup (py "id") d) as [id1 |] eqn:Hid;
      [| do 2 eexists; split; [unfold_M_goal; fwd; reflexivity|];
         norm_trace; repeat split; reflexivity].
    destruct (dict_lookup (py "account") d) as [a |] eqn:Ha;
      [| do 2 eexists; split; [unfold_M_goal; fwd; reflexivity|];
         norm_trace; repeat split; reflexivity].
    destruct a as [ | b | z | f | t | l | da];
      try (do 2 eexists; split; [unfold_M_goal; fwd; reflexivity|];
           norm_trace; repeat split; reflexivity).
    destruct (dict_lookup (py "license") da) as [lic |] eqn:Hlic;
      [| do 2 eexists; split; [unfold_M_goal; fwd; reflexivity|];
         norm_trace; repeat split; reflexivity].
    destruct (dict_lookup (py "token") d) as [tok |] eqn:Htok;
      [| do 2 eexists; split; [unfold_M_goal; fwd; reflexivity|];
         norm_trace; repeat split; reflexivity].
    destruct Hbad as [Hbad | [Hbad | Hbad]]; discriminate. }
  destruct H as (e & s1 & E & Ht & Hl & Hd & HE).
  exists e, s1. repeat split; auto.
  eapply raised_is_retried; eassumption.
Qed.

Lemma X11_witness :
  exists e s1,
    attempt [py "SEED-1"] w_reg_no_account (loop_start w_reg_no_account)
    = (Raise e, s1)
    /\ trace s1
       = trace (loop_start w_reg_no_account)
           ++ [ EvOpen client_cfg;
                EvRequest (mk_request POST [Lit "/reg"] [] None)
                  (ApiResp (with_json 200 reg_B));
                EvClose ]
    /\ retry_label e = "Unexpected error"%string
    /\ retry_delay e = 10
    /\ retried [py "SEED-1"] w_reg_no_account (loop_start w_reg_no_account) e.
Proof.
  apply (@X11_malformed_registration_is_unexpected [py "SEED-1"] w_reg_no_account
           (loop_start w_reg_no_account) (with_json 200 reg_B)).
  - reflexivity.
  - reflexivity.
  - right. left. reflexivity.
Defined.

(** ** Sleeps and diagnostics *)

Lemma sleeps_app a b : sleeps (a ++ b) = sleeps a ++ sleeps b.
Proof.
  induction a as [| ev a IH]; [reflexivity|].
  destruct ev; cbn [app sleeps]; now rewrite IH.
Qed.

Lemma io_sleeps bk evs : Forall (io_of bk) evs -> sleeps evs = [].
Proof.
  induction 1 as [| ev evs Hev _ IH]; [reflexivity|].
  destruct ev; try contradiction; exact IH.
Qed.

Lemma iter_run_sleeps bk rc tr r rc' :
  iter_run bk rc tr r rc' ->
  sleeps tr = flat_map sleep_after (failures tr).
Proof.
  intros H; inversion H; subst; clear H;
    cbn [sleeps failures failure_of]; rewrite sleeps_app, failures_app;
    try match goal with H : Forall (io_of _) _ |- _ =>
      rewrite (io_sleeps H), (io_failures H) end;
    unfold success_body;
    cbn [app sleeps failures failure_of diagnostic retry_message flat_map];
    unfold sleep_after; cbn [fst snd];
    try match goal with H : (_ <? _) = _ |- _ => rewrite H end;
    reflexivity.
Qed.

Lemma loop_run_sleeps bk rc tr r rc' :
  loop_run bk rc tr r rc' ->
  sleeps tr = flat_map sleep_after (failures tr).
Proof.
  induction 1 as [rc Hlt | rc tr v rc' Hlt Hit | rc tr e rc' Hlt Hit
                 | rc tr rc1 tl r rc' Hlt Hit Hloop IH].
  - reflexivity.
  - apply (iter_run_sleeps Hit).
  - apply (iter_run_sleeps Hit).
  - rewrite sleeps_app, failures_app, flat_map_app, (iter_run_sleeps Hit), IH.
    reflexivity.
Qed.

(** X12: the sleeps of a run are those of its diagnostics, in order: after
    the diagnostic of attempt 1 or 2 the script sleeps 5 seconds when the
    error was an [HTTPStatusError] or a [RequestError] and 10 seconds for
    any other exception; after the diagnostic of attempt 3 it does not
    sleep; and it sleeps at no other time. *)
Theorem X12_sleeps_follow_the_diagnostics w :
  sleeps (trace (snd (run w)))
  = flat_map sleep_after (failures (trace (snd (run w)))).
Proof.
  destruct (run_parts w) as (r0 & tr & rc & Ht & _ & _ & Hloop).
  rewrite Ht.
  change (EvFetch base_keys_url 10 (seed_source w 0) :: tr ++ epilogue r0)
    with ([EvFetch base_keys_url 10 (seed_source w 0)] ++ tr ++ epilogue r0).
  rewrite !sleeps_app, !failures_app, !flat_map_app.
  assert (He : sleeps (epilogue r0) = [] /\ failures (epilogue r0) = [])
    by (destruct r0; split; reflexivity).
  destruct He as (-> & ->).
  cbn [sleeps failures failure_of flat_map app]. rewrite !app_nil_r.
  destruct Hloop as [(-> & _) | (bk & Hrun)]; [reflexivity|].
  apply (loop_run_sleeps Hrun).
Qed.

(** ** A run with an empty pool *)

Lemma attempt_draws bk w s r s' :
  attempt bk w s = (r, s') ->
  exists evs, trace s' = trace s ++ evs /\ Forall draw_in_range evs.
Proof.
  intros H. unfold_M H.
  repeat (destr_in H; cbv beta iota in H); inj_pair H;
    norm_trace; (eexists; split; [reflexivity|]);
    repeat (constructor; try exact I);
    cbv beta iota delta [draw_in_range];
    apply Nat.mod_upper_bound; intros E;
    match goal with H : Nat.eqb _ 0 = false |- _ => rewrite E in H; discriminate H end.
Qed.

(** An invariant of the events of every attempt, that the lines of stderr
    and the sleeps have too, holds all along the loop. *)
Lemma retry_loop_events (P : event -> Prop) bk w :
  (forall s r s', attempt bk w s = (r, s') ->
                  exists evs, trace s' = trace s ++ evs /\ Forall P evs) ->
  (forall t, P (EvPrint Stderr t)) ->
  (forall d irq, P (EvSleep d irq)) ->
  forall fuel s r s',
    retry_loop fuel bk w s = (r, s') ->
    exists tr, trace s' = trace s ++ tr /\ Forall P tr.
Proof.
  intros Hatt Hprint Hsleep.
  induction fuel as [| fuel IH]; intros s r s' H.
  - cbn in H. inj_pair H. exists []. now rewrite app_nil_r.
  - cbn [retry_loop] in H. unfold bind, get_retry_count in H.
    destruct (retry_count s <? max_retries).
    + destruct (try_attempt bk w s) as [r0 s1] eqn:E.
      assert (Hone : exists tr, trace s1 = trace s ++ tr /\ Forall P tr).
      { apply try_attempt_extends in E.
        destruct E as (ra & sa & tail & E & Ht & Htail).
        apply Hatt in E. destruct E as (evs & Hevs & HP).
        exists (evs ++ tail). rewrite Ht, Hevs, app_assoc. split; [reflexivity|].
        apply Forall_app. split; [exact HP|].
        destruct Htail as [-> | (e & _ & [-> | (irq & ->)])];
          unfold diagnostic; repeat constructor; auto. }
      destruct Hone as (tr & Ht & HP).
      destruct r0 as [[v |] | e | c | ]; try (inj_pair H; eauto).
      * unfold ret in H. inj_pair H. eauto.
      * apply IH in H. destruct H as (tl & Ht' & HP').
        exists (tr ++ tl). rewrite Ht', Ht, app_assoc. split; [reflexivity|].
        apply Forall_app. auto.
    + unfold print, sys_exit in H. inj_pair H. norm_trace.
      eexists; split; [reflexivity|]. repeat constructor. auto.
Qed.

Lemma run_draws w :
  Forall draw_in_range (trace (snd (run w))).
Proof.
  unfold run. destruct (main w init) as [r s] eqn:E. cbn [snd].
  apply main_of_gsk in E. destruct E as (r0 & s0 & E & _ & Ht & _).
  rewrite Ht. apply Forall_app. split; [|destruct r0; repeat constructor].
  revert E. unfold generate_single_key, generate_single_key_fuel, bind.
  destruct (get_base_keys w init) as [rk sk] eqn:E0.
  pose proof (get_base_keys_outcome _ _ E0) as (Ht0 & _ & Hr0).
  cbn [trace init app] in Ht0.
  destruct rk as [bk | e | c | ]; try contradiction.
  - unfold assign_retry_count. intros E1.
    apply (@retry_loop_events draw_in_range) in E1.
    + destruct E1 as (tr & Ht1 & HP). cbn [set_retry_count trace] in Ht1.
      rewrite Ht1, Ht0. constructor; [exact I | exact HP].
    + intros sa ra sa'. apply attempt_draws.
    + intros t. exact I.
    + intros d irq. exact I.
  - intros H. inj_pair H. rewrite Ht0. repeat constructor.
Qed.

Lemma proto_bounds_no_draw tr : forall st st',
  proto_run st tr = Some st' ->
  count is_choice tr = 0%nat ->
  (count is_request tr <= request_budget_no_draw st + 4 * count is_open tr)%nat.
Proof.
  induction tr as [| ev tr IH]; intros st st' H Hc.
  - cbn [count filter List.length]. lia.
  - cbn [proto_run] in H.
    destruct (proto_step st ev) as [st1 |] eqn:E; [|discriminate].
    change (ev :: tr) with ([ev] ++ tr) in *. rewrite !count_app in *.
    assert (Hc' : count is_choice tr = 0%nat) by lia.
    specialize (IH _ _ H Hc').
    destruct ev; destruct st as [| k dr]; cbn [proto_step] in E; try discriminate;
      cbn [count filter is_request is_open is_choice List.length Nat.add] in *;
      try discriminate.
    + injection E as <-. unfold request_budget_no_draw in *. lia.
    + injection E as <-. unfold request_budget_no_draw in *. lia.
    + destruct (request_ok k rq) eqn:Hok; cbn [andb] in E; [|discriminate].
      apply request_ok_lt in Hok.
      destruct dr.
      * rewrite orb_true_r in E. injection E as <-.
        unfold request_budget_no_draw in *. lia.
      * rewrite orb_false_r in E.
        destruct (Nat.ltb k 4) eqn:Hk; [|discriminate].
        apply Nat.ltb_lt in Hk. injection E as <-.
        unfold request_budget_no_draw in *. lia.
    + injection E as <-. unfold request_budget_no_draw in *. lia.
    + destruct ch; [discriminate|]. injection E as <-.
      unfold request_budget_no_draw in *. lia.
    + destruct (Nat.eqb k 8); [|discriminate]. injection E as <-.
      unfold request_budget_no_draw in *. lia.
Qed.

Lemma no_draw_from_empty tr :
  Forall draw_in_range tr -> Forall (pool_is []) tr -> count is_choice tr = 0%nat.
Proof.
  induction 1 as [| ev tr Hev _ IH]; [reflexivity|].
  inversion 1 as [| ? ? Hp Hps]; subst.
  change (ev :: tr) with ([ev] ++ tr). rewrite count_app, (IH Hps).
  destruct ev; try reflexivity.
  cbn in Hp, Hev. subst pool. cbn in Hev. lia.
Qed.

Lemma proto_no_draw_methods tr : forall st st',
  proto_run st tr = Some st' ->
  count is_choice tr = 0%nat ->
  (forall k, st <> Open k true) ->
  forall rq o, In (rq, o) (requests tr) ->
               rq_method rq <> PUT /\ rq_method rq <> GET.
Proof.
  induction tr as [| ev tr IH]; intros st st' H Hc Hst rq o Hin; [contradiction|].
  cbn [proto_run] in H.
  destruct (proto_step st ev) as [st1 |] eqn:E; [|discriminate].
  change (ev :: tr) with ([ev] ++ tr) in Hc. rewrite count_app in Hc.
  assert (Hc' : count is_choice tr = 0%nat) by lia.
  destruct ev; destruct st as [| k dr]; cbn [proto_step] in E; try discriminate;
    cbn [requests] in Hin;
    cbn [count filter is_choice List.length Nat.add] in Hc; try discriminate.
  - injection E as <-. eapply IH; eauto; discriminate.
  - injection E as <-. eapply IH; eauto; discriminate.
  - destruct dr; [now contradiction (Hst k)|].
    destruct (request_ok k rq0) eqn:Hok; cbn [andb] in E; [|discriminate].
    rewrite orb_false_r in E.
    destruct (Nat.ltb k 4) eqn:Hk; [|discriminate].
    apply Nat.ltb_lt in Hk. injection E as <-.
    destruct Hin as [Hin | Hin].
    + injection Hin as -> _.
      unfold request_ok in Hok.
      do 4 (destruct k as [| k]; [cbn [nth_error attempt_methods] in Hok;
            apply andb_true_iff in Hok; destruct Hok as (Hm & _);
            destruct (rq_method rq); try discriminate Hm; split; discriminate|]).
      lia.
    + eapply IH; eauto; discriminate.
  - injection E as <-. eapply IH; eauto; discriminate.
  - destruct ch; [discriminate|]. injection E as <-. eapply IH; eauto.
  - destruct (Nat.eqb k 8); [|discriminate]. injection E as <-. eapply IH; eauto.
Qed.

(** X13: when [get_base_keys] returns an empty pool, the run never
    succeeds, whatever the provider answers: it ends with exit status 1 or
    130 and an empty stdout; no seed key is drawn and no attempt goes past
    its fourth request, so that at most 12 requests are sent, none of them
    a PUT or a GET. *)
Theorem X13_empty_pool_run_fails w :
  fst (get_base_keys w init) = Ok [] ->
  (fst (run w) = Exit 1 \/ fst (run w) = Exit 130)
  /\ stdout (trace (snd (run w))) = []
  /\ count is_choice (trace (snd (run w))) = 0%nat
  /\ (count is_request (trace (snd (run w))) <= 12)%nat
  /\ (forall rq o, In (rq, o) (requests (trace (snd (run w)))) ->
        rq_method rq <> PUT /\ rq_method rq <> GET).
Proof.
  intros Hpool.
  destruct (run_protocol w) as (rest & Ht & Hp).
  pose proof (run_draws w) as Hdr.
  unfold run in *. destruct (main w init) as [r s] eqn:E. cbn [fst snd] in *.
  apply main_shape in E. destruct E as (r0 & tr & Hshape & -> & Ht').
  inversion Hshape as [Hsrc | bk s0 tr' r0' rc E0 Hrun]; subst.
  { rewrite get_base_keys_eq in Hpool. cbv zeta in Hpool.
    cbn [n_fetch init] in Hpool. rewrite Hsrc in Hpool. discriminate. }
  rewrite E0 in Hpool. cbn [fst] in Hpool. injection Hpool as ->.
  rewrite Ht in Ht'. injection Ht' as Hrest.
  assert (Hno : forall v, r0 <> Ok v).
  { intros v ->. destruct (loop_run_success Hrun) as (pre & d & _ & Hwf & _).
    destruct Hwf as (_ & Hnth & _). destruct (ad_draw d); discriminate. }
  pose proof (loop_run_result Hrun) as Hres.
  pose proof (loop_run_stdout Hrun) as Hout.
  pose proof (loop_run_pool Hrun) as Hpl.
  pose proof (loop_run_counts Hrun) as (Hopen & _); [lia|].
  unfold max_retries in Hopen.
  assert (He : lines Stdout (epilogue r0) = [] /\ count is_open (epilogue r0) = 0%nat
               /\ Forall (pool_is []) (epilogue r0))
    by (destruct r0; repeat split; repeat constructor).
  destruct He as (He1 & He2 & He3).
  assert (Hch : count is_choice rest = 0%nat).
  { apply no_draw_from_empty.
    - rewrite Ht in Hdr. now inversion Hdr.
    - rewrite Hrest. apply Forall_app. auto. }
  assert (Hop : (count is_open rest <= 3)%nat).
  { rewrite Hrest, count_app, He2. lia. }
  pose proof (proto_bounds_no_draw _ _ Hp Hch) as Hrq.
  cbn [request_budget_no_draw] in Hrq.
  rewrite Ht.
  change (EvFetch base_keys_url 10 (seed_source w 0) :: rest)
    with ([EvFetch base_keys_url 10 (seed_source w 0)] ++ rest).
  unfold stdout. rewrite lines_app, !count_app, requests_app.
  cbn [lines printed count filter is_choice is_request List.length requests app
       Nat.add].
  split; [|split; [|split; [|split]]].
  - destruct r0 as [v | e | c | ]; try contradiction.
    + now contradiction (Hno v).
    + right. reflexivity.
    + left. subst c. reflexivity.
  - rewrite Hrest, lines_app, Hout, He1.
    destruct r0 as [v | e | c | ]; try reflexivity. now contradiction (Hno v).
  - exact Hch.
  - lia.
  - eapply proto_no_draw_methods; eauto. discriminate.
Qed.

Lemma X13_witness :
  (fst (run w_empty_body) = Exit 1 \/ fst (run w_empty_body) = Exit 130)
  /\ stdout (trace (snd (run w_empty_body))) = []
  /\ count is_choice (trace (snd (run w_empty_body))) = 0%nat
  /\ (count is_request (trace (snd (run w_empty_body))) <= 12)%nat
  /\ (forall rq o, In (rq, o) (requests (trace (snd (run w_empty_body)))) ->
        rq_method rq <> PUT /\ rq_method rq <> GET).
Proof.
  apply (@X13_empty_pool_run_fails w_empty_body).
  vm_compute. reflexivity.
Defined.
